(** * Sales analytics dashboard (src/App.tsx): the [analytics] memo and the
      "Key Insights" reductions, embedded shallowly.

    The file follows the source top-down:
    - [JsNumber]: the operations the source applies to JavaScript numbers,
      as an interface with two instances: IEEE binary64, which is what the
      program runs on, and exact rationals;
    - [JsObject]: plain objects [{}] used as accumulators: own properties in
      creation order, properties inherited from [Object.prototype], and the
      enumeration order of [Object.entries];
    - [Dashboard]: [analytics] and the insight reductions;
    - [Grouping], [Spec], [Examples]: the shape the three grouping reducers
      share, the vocabulary of the specification, and sample inputs;
    - the properties of the specification, C1 to C10. *)

From Stdlib Require Import List String Ascii Bool Arith ZArith NArith Lia.
From Stdlib Require Import QArith Qcanon Qround Qabs.
From Stdlib Require Import Permutation Sorted.
From Stdlib Require Import DecimalString DecimalNat DecimalN.
From Stdlib Require Import Floats.SpecFloat.
Import ListNotations.

Close Scope Qc_scope.
Close Scope Q_scope.
Open Scope string_scope.
Open Scope nat_scope.
Open Scope list_scope.

Set Implicit Arguments.

(* ================================================================= *)
(** ** JavaScript numbers *)

Module JsNumber.

(** The result of [Number.prototype.toFixed]: a string.  [Decimal neg n d]
    is the string made of an optional minus sign and the digits of [n] with
    the last [d] of them after the point; [Literal x] is [ToString x], which
    [toFixed] returns for NaN, the infinities and magnitudes of 1e21 and
    more. *)
Inductive numeric_string (num : Type) : Type :=
| Decimal (neg : bool) (scaled : N) (digits : nat)
| Literal (x : num).
Arguments Decimal {num} neg scaled digits.
Arguments Literal {num} x.

(** What [analytics] and the insight reductions do with numbers. *)
Class Number : Type := {
  num : Type;
  zero : num;                       (* the literal 0 *)
  hundred : num;                    (* the literal 100 *)
  add : num -> num -> num;          (* a + b *)
  mul : num -> num -> num;          (* a * b *)
  div : num -> num -> num;          (* a / b *)
  of_nat : nat -> num;              (* a count or an array length *)
  gtb : num -> num -> bool;         (* a > b *)
  truthy : num -> bool;             (* ToBoolean: false for 0, -0, NaN *)
  toFixed : nat -> num -> numeric_string num;
  parseFloat : numeric_string num -> num
}.

(** [a || 0] on numbers. *)
Definition or_zero {N : Number} (a : num) : num :=
  if truthy a then a else zero.

(* ----------------------------------------------------------------- *)
(** *** IEEE 754 binary64, the numbers of the running program *)

Module Binary64.

#[local] Open Scope Z_scope.

Definition prec : Z := 53.
Definition emax : Z := 1024.

Definition b64 : Type := spec_float.

Definition of_Z (z : Z) : b64 := binary_normalize prec emax z 0 false.

(** The double nearest to [p / q] for integers [p >= 0], [q > 0]: the
    quotient is computed with more than [prec] bits and a sticky bit, then
    rounded once. *)
Definition nearest_ratio (p q : Z) : b64 :=
  let k := Z.max 0 (Z.log2 q - Z.log2 p + 60) in
  let n := Z.shiftl p k in
  let m := 2 * (n / q) + (if n mod q =? 0 then 0 else 1) in
  binary_normalize prec emax m (- k - 1) false.

(** [Some (neg, m, e)] when [x] is finite with value [(-1)^neg * m * 2^e]. *)
Definition finite_parts (x : b64) : option (bool * Z * Z) :=
  match x with
  | S754_zero s => Some (s, 0, 0)
  | S754_finite s m e => Some (s, Zpos m, e)
  | _ => None
  end.

(** The integer [n] for which [n / 10^d - m * 2^e] is closest to zero, the
    larger one when there are two (step 10.a of [toFixed]). *)
Definition round_scaled (m e : Z) (d : nat) : Z :=
  let t := 10 ^ Z.of_nat d in
  if 0 <=? e then m * 2 ^ e * t
  else (2 * m * t + 2 ^ (- e)) / 2 ^ (1 - e).

(** [m * 2^e >= 10^21]. *)
Definition at_least_1e21 (m e : Z) : bool :=
  if 0 <=? e then 10 ^ 21 <=? m * 2 ^ e
  else 10 ^ 21 * 2 ^ (- e) <=? m.

Definition b64_toFixed (d : nat) (x : b64) : numeric_string b64 :=
  match finite_parts x with
  | None => Literal x
  | Some (s, m, e) =>
      if at_least_1e21 m e then Literal x
      else
        (* "If x < 0, then set s to - and x to -x": -0 is not below 0 *)
        let neg := match x with S754_zero _ => false | _ => s end in
        Decimal neg (Z.to_N (round_scaled m e d)) d
  end.

Definition b64_parseFloat (s : numeric_string b64) : b64 :=
  match s with
  | Literal x => x
  | Decimal neg n d =>
      let v := if (n =? 0)%N then S754_zero false
               else nearest_ratio (Z.of_N n) (10 ^ Z.of_nat d) in
      if neg then SFopp v else v
  end.

Definition b64_truthy (x : b64) : bool :=
  match x with
  | S754_zero _ | S754_nan => false
  | _ => true
  end.

#[export] Instance binary64 : Number := {|
  num := b64;
  zero := S754_zero false;
  hundred := of_Z 100;
  add := SFadd prec emax;
  mul := SFmul prec emax;
  div := SFdiv prec emax;
  of_nat := fun n => of_Z (Z.of_nat n);
  gtb := fun a b => SFltb b a;
  truthy := b64_truthy;
  toFixed := b64_toFixed;
  parseFloat := b64_parseFloat
|}.

(** The double written as the decimal literal [n / 10^d]. *)
Definition lit (n : Z) (d : nat) : b64 :=
  if n =? 0 then S754_zero false else nearest_ratio n (10 ^ Z.of_nat d).

End Binary64.

(* ----------------------------------------------------------------- *)
(** *** Exact rational arithmetic *)

Module Exact.

#[local] Open Scope Z_scope.

Definition Qc_of_Z (z : Z) : Qc := Q2Qc (inject_Z z).

Definition Qc_gtb (a b : Qc) : bool :=
  match (b ?= a)%Qc with Lt => true | _ => false end.

Definition Qc_toFixed (d : nat) (x : Qc) : numeric_string Qc :=
  let t := 10 ^ Z.of_nat d in
  let a := Qabs (this x) in
  Decimal (Qc_gtb 0%Qc x)
          (Z.to_N (Qfloor (a * inject_Z t + (1 # 2))%Q)) d.

Definition Qc_parseFloat (s : numeric_string Qc) : Qc :=
  match s with
  | Literal x => x
  | Decimal neg n d =>
      let v := Q2Qc (Z.of_N n # Z.to_pos (10 ^ Z.of_nat d)) in
      if neg then (- v)%Qc else v
  end.

#[export] Instance exact : Number := {|
  num := Qc;
  zero := 0%Qc;
  hundred := Qc_of_Z 100;
  add := Qcplus;
  mul := Qcmult;
  div := Qcdiv;
  of_nat := fun n => Qc_of_Z (Z.of_nat n);
  gtb := Qc_gtb;
  truthy := fun x => negb (Qc_eq_bool x 0%Qc);
  toFixed := Qc_toFixed;
  parseFloat := Qc_parseFloat
|}.

End Exact.

End JsNumber.

(* ================================================================= *)
(** ** Plain objects used as accumulators *)

Module JsObject.

Definition PropertyKey : Type := string.

(** The own enumerable properties of an object created by the literal
    [{}], in creation order. *)
Definition object (V : Type) : Type := list (PropertyKey * V).

(** The properties every such object inherits from [Object.prototype].  All
    of them hold a function, except ["__proto__"], an accessor whose getter
    returns [Object.prototype] itself: each reads as a truthy object. *)
Definition Object_prototype_keys : list PropertyKey :=
  [ "constructor"; "__defineGetter__"; "__defineSetter__"; "hasOwnProperty";
    "__lookupGetter__"; "__lookupSetter__"; "isPrototypeOf";
    "propertyIsEnumerable"; "toString"; "valueOf"; "__proto__";
    "toLocaleString" ].

Definition inherited (k : PropertyKey) : bool :=
  existsb (String.eqb k) Object_prototype_keys.

(** What reading [o[k]] finds. *)
Inductive property (V : Type) : Type :=
| Own (v : V)        (* an own property *)
| Inherited          (* a function or object found on the prototype *)
| Undefined.
Arguments Own {V} v.
Arguments Inherited {V}.
Arguments Undefined {V}.

Section Ops.
Variable V : Type.

Fixpoint own_get (k : PropertyKey) (o : object V) : option V :=
  match o with
  | [] => None
  | (k', v) :: o' => if String.eqb k k' then Some v else own_get k o'
  end.

(** Writing an own property: in place when it exists, else appended. *)
Fixpoint own_set (k : PropertyKey) (v : V) (o : object V) : object V :=
  match o with
  | [] => [(k, v)]
  | (k', v') :: o' =>
      if String.eqb k k' then (k, v) :: o' else (k', v') :: own_set k v o'
  end.

(** [o[k]] *)
Definition get (o : object V) (k : PropertyKey) : property V :=
  match own_get k o with
  | Some v => Own v
  | None => if inherited k then Inherited else Undefined
  end.

(** [!o[k]] when the own values are objects. *)
Definition absent (o : object V) (k : PropertyKey) : bool :=
  match get o k with
  | Undefined => true
  | _ => false
  end.

(** [o[k] = v].  The inherited ["__proto__"] is an accessor: assigning to it
    runs its setter and creates no own property (a primitive [v] is ignored
    by the setter; the source never assigns an object to it, as
    [!o["__proto__"]] is false).  The other inherited properties are
    writable data properties, which an assignment shadows. *)
Definition set (o : object V) (k : PropertyKey) (v : V) : object V :=
  if String.eqb k "__proto__" then o else own_set k v o.

(** [o[k].f = ...]: a write through [o[k]].  When [o[k]] is an own value the
    value is updated in place; when it is inherited the write lands on the
    inherited function or on [Object.prototype], and [o] keeps its own
    properties.  (What lands there is never read back as a truthy value:
    the source only stores NaN that way.)  The source writes through
    [o[k]] only after the guard [if (!o[k]) o[k] = ...], so [o[k]] is never
    undefined at that point. *)
Definition modify (o : object V) (k : PropertyKey) (f : V -> V) : object V :=
  match own_get k o with
  | Some v => own_set k (f v) o
  | None => o
  end.

(** An array index: the canonical decimal form of an integer below
    [2^32 - 1]. *)
Definition array_index (k : PropertyKey) : option N :=
  match NilZero.uint_of_string k with
  | Some d =>
      let n := N.of_uint d in
      if String.eqb (NilZero.string_of_uint (N.to_uint n)) k
         && (n <=? 4294967294)%N
      then Some n else None
  | None => None
  end.

Definition is_index (kv : PropertyKey * V) : bool :=
  match array_index (fst kv) with Some _ => true | None => false end.

Definition index_of (kv : PropertyKey * V) : N :=
  match array_index (fst kv) with Some n => n | None => 0%N end.

Fixpoint insert_index (kv : PropertyKey * V) (l : object V) : object V :=
  match l with
  | [] => [kv]
  | kv' :: l' =>
      if (index_of kv <? index_of kv')%N then kv :: l
      else kv' :: insert_index kv l'
  end.

Definition sort_index (l : object V) : object V :=
  fold_right insert_index [] l.

(** [Object.entries o]: the array indices in ascending numeric order, then
    the other keys in creation order. *)
Definition entries (o : object V) : list (PropertyKey * V) :=
  sort_index (filter is_index o)
  ++ filter (fun kv => negb (is_index kv)) o.

(** [Object.values o] *)
Definition values (o : object V) : list V := map snd (entries o).

Definition keys (o : object V) : list PropertyKey := map fst o.

End Ops.

(** [ToString n] for a non-negative integer [n], as a property key or in a
    template literal. *)
Definition decimal (n : nat) : string :=
  NilZero.string_of_uint (Nat.to_uint n).

(** The non-negative integer a string of digits denotes. *)
Definition parse_decimal (s : string) : option nat :=
  option_map Nat.of_uint (NilZero.uint_of_string s).

End JsObject.

(* ================================================================= *)
(** ** The dashboard: [analytics] and the insight reductions *)

Module Dashboard.
Import JsNumber JsObject.

(** How an evaluation ends: with a value, or with a thrown error. *)
Inductive completion (A : Type) : Type :=
| Normal (v : A)
| Throw (error : string).
Arguments Normal {A} v.
Arguments Throw {A} error.

(** [a.reduce(f)] without an initial value. *)
Definition reduce1 (A : Type) (f : A -> A -> A) (a : list A) : completion A :=
  match a with
  | [] => Throw "TypeError"
  | x :: a' => Normal (fold_left f a' x)
  end.

(** [a.reduce(f, init)] *)
Definition reduce (A B : Type) (f : B -> A -> B) (init : B) (a : list A) : B :=
  fold_left f a init.

(** The value of [acc[customer]] in [customerFrequency]: a number, or the
    string that [+ 1] makes of an inherited function. *)
Inductive frequency : Type :=
| Num (n : nat)
| Str.

Section Engine.
Context {NUM : Number}.

(** [hour] is [datetime.getHours()]: an integer, or NaN ([None]) for an
    invalid date. *)
Record SalesRecord : Type := {
  date : string;
  datetime : string;
  cash_type : string;
  card : string;
  money : num;
  coffee_name : string;
  hour : option nat
}.

(** [ToString hour], the key of [acc[hour]]. *)
Definition hour_key (h : option nat) : PropertyKey :=
  match h with
  | Some n => decimal n
  | None => "NaN"
  end.

(* ----------------------------------------------------------------- *)
(** *** Basic statistics *)

Definition totalRevenue (data : list SalesRecord) : num :=
  reduce (fun sum record => add sum (money record)) zero data.

Definition totalOrders (data : list SalesRecord) : nat := List.length data.

Definition avgOrderValue (data : list SalesRecord) : num :=
  div (totalRevenue data) (of_nat (totalOrders data)).

(** [new Set(data.map(record => record.card)).size] *)
Definition uniqueCustomers (data : list SalesRecord) : nat :=
  List.length (nodup string_dec (map card data)).

(* ----------------------------------------------------------------- *)
(** *** Coffee type analysis *)

Record CoffeeStat : Type := {
  cs_count : nat;
  cs_revenue : num;
  cs_avgPrice : num
}.

Definition coffeeStats_step (acc : object CoffeeStat) (record : SalesRecord)
  : object CoffeeStat :=
  let coffee := coffee_name record in
  let acc :=
    if absent acc coffee
    then set acc coffee {| cs_count := 0; cs_revenue := zero; cs_avgPrice := zero |}
    else acc in
  let acc := modify acc coffee (fun s =>
    {| cs_count := cs_count s + 1; cs_revenue := cs_revenue s;
       cs_avgPrice := cs_avgPrice s |}) in
  let acc := modify acc coffee (fun s =>
    {| cs_count := cs_count s; cs_revenue := add (cs_revenue s) (money record);
       cs_avgPrice := cs_avgPrice s |}) in
  modify acc coffee (fun s =>
    {| cs_count := cs_count s; cs_revenue := cs_revenue s;
       cs_avgPrice := div (cs_revenue s) (of_nat (cs_count s)) |}).

Definition coffeeStats (data : list SalesRecord) : object CoffeeStat :=
  reduce coffeeStats_step [] data.

Record CoffeeChart : Type := {
  cc_name : string;
  cc_count : nat;
  cc_revenue : num;
  cc_avgPrice : num
}.

Definition coffeeChartData (data : list SalesRecord) : list CoffeeChart :=
  map (fun '(name, stats) =>
         {| cc_name := name;
            cc_count := cs_count stats;
            cc_revenue := cs_revenue stats;
            cc_avgPrice := parseFloat (toFixed 2 (cs_avgPrice stats)) |})
      (entries (coffeeStats data)).

(* ----------------------------------------------------------------- *)
(** *** Hourly analysis *)

Record HourStat : Type := {
  hs_orders : nat;
  hs_revenue : num
}.

Definition hourlyStats_step (acc : object HourStat) (record : SalesRecord)
  : object HourStat :=
  let hour := hour_key (hour record) in
  let acc :=
    if absent acc hour
    then set acc hour {| hs_orders := 0; hs_revenue := zero |}
    else acc in
  let acc := modify acc hour (fun s =>
    {| hs_orders := hs_orders s + 1; hs_revenue := hs_revenue s |}) in
  modify acc hour (fun s =>
    {| hs_orders := hs_orders s;
       hs_revenue := add (hs_revenue s) (money record) |}).

Definition hourlyStats (data : list SalesRecord) : object HourStat :=
  reduce hourlyStats_step [] data.

Record HourChart : Type := {
  hc_hour : string;
  hc_orders : nat;
  hc_revenue : num
}.

(** [hourlyStats[hour]?.orders || 0] and [hourlyStats[hour]?.revenue || 0]:
    an inherited object has neither property. *)
Definition hourly_item (stats : object HourStat) (hour : nat) : HourChart :=
  {| hc_hour := decimal hour ++ ":00";
     hc_orders := match get stats (decimal hour) with
                  | Own s => hs_orders s
                  | _ => 0
                  end;
     hc_revenue := match get stats (decimal hour) with
                   | Own s => or_zero (hs_revenue s)
                   | _ => zero
                   end |}.

Definition hourlyChartData (data : list SalesRecord) : list HourChart :=
  filter (fun item => 0 <? hc_orders item)
         (map (hourly_item (hourlyStats data)) (seq 0 24)).

(* ----------------------------------------------------------------- *)
(** *** Payment method analysis *)

Record PaymentStat : Type := {
  ps_count : nat;
  ps_revenue : num
}.

Definition paymentStats_step (acc : object PaymentStat) (record : SalesRecord)
  : object PaymentStat :=
  let method := cash_type record in
  let acc :=
    if absent acc method
    then set acc method {| ps_count := 0; ps_revenue := zero |}
    else acc in
  let acc := modify acc method (fun s =>
    {| ps_count := ps_count s + 1; ps_revenue := ps_revenue s |}) in
  modify acc method (fun s =>
    {| ps_count := ps_count s;
       ps_revenue := add (ps_revenue s) (money record) |}).

Definition paymentStats (data : list SalesRecord) : object PaymentStat :=
  reduce paymentStats_step [] data.

Record PaymentChart : Type := {
  pc_method : string;
  pc_count : nat;
  pc_revenue : num;
  pc_percentage : numeric_string num
}.

Definition paymentChartData (data : list SalesRecord) : list PaymentChart :=
  map (fun '(method, stats) =>
         {| pc_method := method;
            pc_count := ps_count stats;
            pc_revenue := ps_revenue stats;
            pc_percentage :=
              toFixed 1 (mul (div (of_nat (ps_count stats))
                                  (of_nat (totalOrders data)))
                             hundred) |})
      (entries (paymentStats data)).

(* ----------------------------------------------------------------- *)
(** *** Customer frequency analysis *)

(** [(p || 0) + 1] for what [acc[k]] reads: a number is incremented
    ([undefined] and [0] both give [1]); a string, or an inherited function
    or object, is truthy and [+] concatenates ["1"] to its string form. *)
Definition or_zero_plus_one (p : property frequency) : frequency :=
  match p with
  | Undefined => Num 1
  | Own (Num n) => Num (n + 1)
  | Own Str => Str
  | Inherited => Str
  end.

(** [acc[k] = (acc[k] || 0) + 1] *)
Definition tally (acc : object frequency) (k : PropertyKey) : object frequency :=
  set acc k (or_zero_plus_one (get acc k)).

Definition customerFrequency (data : list SalesRecord) : object frequency :=
  reduce (fun acc record => tally acc (card record)) [] data.

(** [frequency === 1] and [frequency <= n]: a string of the kind [Str]
    stands for converts to NaN, and every comparison with NaN is false. *)
Definition is_one (f : frequency) : bool :=
  match f with Num 1 => true | _ => false end.

Definition at_most (f : frequency) (n : nat) : bool :=
  match f with Num m => m <=? n | Str => false end.

Definition bucket_of (f : frequency) : string :=
  if is_one f then "1 order"
  else if at_most f 3 then "2-3 orders"
  else if at_most f 5 then "4-5 orders"
  else "6+ orders".

Definition frequencyDistribution (data : list SalesRecord) : object frequency :=
  reduce (fun acc frequency => tally acc (bucket_of frequency)) []
         (values (customerFrequency data)).

Record FrequencyBucket : Type := {
  fb_bucket : string;
  fb_customers : frequency
}.

Definition customerFrequencyData (data : list SalesRecord) : list FrequencyBucket :=
  map (fun '(bucket, count) => {| fb_bucket := bucket; fb_customers := count |})
      (entries (frequencyDistribution data)).

(* ----------------------------------------------------------------- *)
(** *** Price vs volume *)

Record PriceVolume : Type := {
  pv_coffee : string;
  pv_price : num;
  pv_volume : nat
}.

Definition priceVolumeData (data : list SalesRecord) : list PriceVolume :=
  map (fun item => {| pv_coffee := cc_name item; pv_price := cc_avgPrice item;
                      pv_volume := cc_count item |})
      (coffeeChartData data).

(* ----------------------------------------------------------------- *)
(** *** The memoised result *)

Record AnalyticsResult : Type := {
  res_totalRevenue : num;
  res_totalOrders : nat;
  res_avgOrderValue : num;
  res_uniqueCustomers : nat;
  res_coffeeChartData : list CoffeeChart;
  res_hourlyChartData : list HourChart;
  res_paymentChartData : list PaymentChart;
  res_customerFrequencyData : list FrequencyBucket;
  res_priceVolumeData : list PriceVolume
}.

(** [null] is [None]. *)
Definition analytics (data : list SalesRecord)
  : completion (option AnalyticsResult) :=
  if List.length data =? 0 then Normal None
  else Normal (Some
    {| res_totalRevenue := totalRevenue data;
       res_totalOrders := totalOrders data;
       res_avgOrderValue := avgOrderValue data;
       res_uniqueCustomers := uniqueCustomers data;
       res_coffeeChartData := coffeeChartData data;
       res_hourlyChartData := hourlyChartData data;
       res_paymentChartData := paymentChartData data;
       res_customerFrequencyData := customerFrequencyData data;
       res_priceVolumeData := priceVolumeData data |}).

(* ----------------------------------------------------------------- *)
(** *** Key insights *)

(** [analytics.coffeeChartData.reduce((top, current) =>
      current.revenue > top.revenue ? current : top)] *)
Definition topCoffee (chart : list CoffeeChart) : completion CoffeeChart :=
  reduce1 (fun top current =>
             if gtb (cc_revenue current) (cc_revenue top) then current else top)
          chart.

(** [analytics.hourlyChartData.reduce((peak, current) =>
      current.orders > peak.orders ? current : peak)] *)
Definition peakHour (chart : list HourChart) : completion HourChart :=
  reduce1 (fun peak current =>
             if hc_orders peak <? hc_orders current then current else peak)
          chart.

End Engine.

Arguments SalesRecord : clear implicits.
Arguments CoffeeStat : clear implicits.
Arguments CoffeeChart : clear implicits.
Arguments HourStat : clear implicits.
Arguments HourChart : clear implicits.
Arguments PaymentStat : clear implicits.
Arguments PaymentChart : clear implicits.
Arguments PriceVolume : clear implicits.
Arguments AnalyticsResult : clear implicits.

End Dashboard.


(* ================================================================= *)
(** ** The page: upload processing and what the component returns *)

Module Page.
Import JsNumber JsObject Dashboard.

Section Page.
Context {NUM : Number}.

(* ----------------------------------------------------------------- *)
(** *** [handleFileUpload]: from parsed rows to records *)

(** A row of [results.data] as the [map] callback reads it: each field is
    the value of the library conversion the callback applies to the cell
    ([String(row.date || '')], ..., [parseFloat(String(row.money))],
    [new Date(String(row.datetime || '')).getHours()]).  The CSV parser,
    [String], [parseFloat] on text and [Date] are not part of the
    program. *)
Record ParsedRow : Type := {
  row_date : string;
  row_datetime : string;
  row_cash_type : string;
  row_card : string;
  row_money : num;               (* parseFloat(String(row.money)) *)
  row_coffee_name : string;
  row_hour : option nat          (* datetime.getHours(), NaN as None *)
}.

(** The object the [map] callback returns: [money] is
    [parseFloat(String(row.money)) || 0]. *)
Definition toRecord (row : ParsedRow) : SalesRecord NUM :=
  {| date := row_date row;
     datetime := row_datetime row;
     cash_type := row_cash_type row;
     card := row_card row;
     money := or_zero (row_money row);
     coffee_name := row_coffee_name row;
     hour := row_hour row |}.

(** [record.coffee_name && record.money > 0], as a filter reads it: the
    empty string is falsy. *)
Definition keeps (record : SalesRecord NUM) : bool :=
  negb (String.eqb (coffee_name record) "") && gtb (money record) zero.

Definition processedData (rows : list ParsedRow) : list (SalesRecord NUM) :=
  filter keeps (map toRecord rows).

(* ----------------------------------------------------------------- *)
(** *** What the component returns *)

(** The values the dashboard prints: the key metrics and the key insights.
    (The charts receive the sequences of the result unchanged.) *)
Record DashboardView : Type := {
  shown_totalRevenue : numeric_string num;     (* totalRevenue.toFixed(2) *)
  shown_totalOrders : nat;
  shown_avgOrderValue : numeric_string num;    (* avgOrderValue.toFixed(2) *)
  shown_uniqueCustomers : nat;
  top_name : string;                           (* reduce(...).name *)
  top_revenue : numeric_string num;            (* reduce(...).revenue.toFixed(2) *)
  peak_hour : string;                          (* reduce(...).hour *)
  peak_orders : nat                            (* reduce(...).orders *)
}.

Inductive screen : Type :=
| UploadScreen                      (* the file upload screen *)
| Blank                             (* [return null] *)
| DashboardScreen (view : DashboardView).

(** The dashboard JSX: evaluating it evaluates the two reductions. *)
Definition dashboard (a : AnalyticsResult NUM) : completion screen :=
  match topCoffee (res_coffeeChartData a) with
  | Throw error => Throw error
  | Normal top =>
      match peakHour (res_hourlyChartData a) with
      | Throw error => Throw error
      | Normal peak =>
          Normal (DashboardScreen
            {| shown_totalRevenue := toFixed 2 (res_totalRevenue a);
               shown_totalOrders := res_totalOrders a;
               shown_avgOrderValue := toFixed 2 (res_avgOrderValue a);
               shown_uniqueCustomers := res_uniqueCustomers a;
               top_name := cc_name top;
               top_revenue := toFixed 2 (cc_revenue top);
               peak_hour := hc_hour peak;
               peak_orders := hc_orders peak |})
      end
  end.

(** The component body for the state [data]: the memo, then
    [if (data.length === 0) return <upload screen>],
    [if (!analytics) return null], and the dashboard. *)
Definition SalesAnalyticsDashboard (data : list (SalesRecord NUM))
  : completion screen :=
  match analytics data with
  | Throw error => Throw error
  | Normal result =>
      if List.length data =? 0 then Normal UploadScreen
      else match result with
           | None => Normal Blank
           | Some a => dashboard a
           end
  end.

End Page.

Arguments ParsedRow : clear implicits.
Arguments DashboardView : clear implicits.
Arguments screen : clear implicits.

End Page.

(* ================================================================= *)
(** ** The common shape of the three grouping reducers *)

Module Grouping.
Import JsObject.

Section Group.
Variables R V : Type.
Variable key : R -> PropertyKey.
Variable init : V.
Variable upd : R -> V -> V.

(** [if (!acc[k]) acc[k] = init; acc[k] <- upd r acc[k]; return acc] *)
Definition group_step (acc : object V) (r : R) : object V :=
  let k := key r in
  modify (if absent acc k then set acc k init else acc) k (upd r).

Definition group (data : list R) : object V := fold_left group_step data [].

End Group.

(** What a measure of the groups (a count, a revenue) adds up to. *)
Definition total (V M : Type) (mzero : M) (madd : M -> M -> M) (meas : V -> M)
           (o : object V) : M :=
  fold_right madd mzero (map (fun kv => meas (snd kv)) o).

(** The same keys with the values mapped. *)
Definition map_values (V W : Type) (g : V -> W) (o : object V) : object W :=
  map (fun kv => (fst kv, g (snd kv))) o.

(** [k] is not yet an own key of [acc]. *)
Definition fresh (V : Type) (acc : object V) (k : PropertyKey) : bool :=
  match own_get k acc with Some _ => false | None => true end.

(** The measure of the group of key [k], [mzero] when there is none. *)
Definition at_key (V M : Type) (mzero : M) (meas : V -> M)
           (k : PropertyKey) (o : object V) : M :=
  match own_get k o with Some v => meas v | None => mzero end.

Section Reducers.
Import JsNumber Dashboard.
Context {NUM : Number}.

Definition coffee_init : CoffeeStat NUM :=
  {| cs_count := 0; cs_revenue := zero; cs_avgPrice := zero |}.

Definition coffee_upd (record : SalesRecord NUM) (s : CoffeeStat NUM)
  : CoffeeStat NUM :=
  {| cs_count := cs_count s + 1;
     cs_revenue := add (cs_revenue s) (money record);
     cs_avgPrice := div (add (cs_revenue s) (money record))
                        (of_nat (cs_count s + 1)) |}.

Definition hour_init : HourStat NUM := {| hs_orders := 0; hs_revenue := zero |}.

Definition hour_upd (record : SalesRecord NUM) (s : HourStat NUM) : HourStat NUM :=
  {| hs_orders := hs_orders s + 1;
     hs_revenue := add (hs_revenue s) (money record) |}.

Definition payment_init : PaymentStat NUM :=
  {| ps_count := 0; ps_revenue := zero |}.

Definition payment_upd (record : SalesRecord NUM) (s : PaymentStat NUM)
  : PaymentStat NUM :=
  {| ps_count := ps_count s + 1;
     ps_revenue := add (ps_revenue s) (money record) |}.

End Reducers.
End Grouping.

(* ================================================================= *)
(** ** Vocabulary of the specification *)

Module Spec.
Import JsNumber JsObject Dashboard.

(** The distinct elements of a list, each at its first occurrence. *)
Fixpoint first_seen (ks : list string) : list string :=
  match ks with
  | [] => []
  | k :: ks' => k :: filter (fun x => negb (String.eqb x k)) (first_seen ks')
  end.

Definition is_index_key (k : PropertyKey) : bool :=
  match array_index k with Some _ => true | None => false end.

Definition index_of_key (k : PropertyKey) : N :=
  match array_index k with Some n => n | None => 0%N end.

(** The order in which [Object.entries] lists the keys first seen in the
    order [seen]: the array indices by ascending value, then the other keys
    as first seen. *)
Definition entries_order (seen out : list PropertyKey) : Prop :=
  exists idx,
    out = idx ++ filter (fun k => negb (is_index_key k)) (first_seen seen)
    /\ Permutation idx (filter is_index_key (first_seen seen))
    /\ StronglySorted (fun a b => (index_of_key a < index_of_key b)%N) idx.

(** The doubles that are zero, positive or plus infinity: what sums of
    positive amounts are. *)
Definition nonneg (x : Binary64.b64) : bool :=
  match x with
  | S754_zero _ | S754_finite false _ _ | S754_infinity false => true
  | _ => false
  end.

Definition not_nan (x : Binary64.b64) : bool :=
  match x with S754_nan => false | _ => true end.

(** The double of value [p * 2^e], for [p] below [2^53]: the digits of
    [p], shifted to fill the 53 bits of the mantissa. *)
Definition normal_double (p : positive) (e : Z) : Binary64.b64 :=
  let d := Zpos (digits2_pos p) in
  S754_finite false (Z.to_pos (Zpos p * 2 ^ (53 - d))) (e + d - 53).

(** The double nearest to [k * 2^-u]: [k] units of [2^-u] (whole numbers
    for [u = 0], halves for [u = 1], quarters for [u = 2], ...). *)
Definition of_units (u : nat) (k : Z) : Binary64.b64 :=
  binary_normalize Binary64.prec Binary64.emax k (- Z.of_nat u) false.

(** How many units of [2^-u] a double above 0 holds, rounded down; 0 for
    the other doubles. *)
Definition units (u : nat) (x : Binary64.b64) : Z :=
  match x with
  | S754_finite false m e =>
      if (0 <=? e + Z.of_nat u)%Z then (Zpos m * 2 ^ (e + Z.of_nat u))%Z
      else (Zpos m / 2 ^ (- (e + Z.of_nat u)))%Z
  | _ => 0%Z
  end.

(** [2^1023] in units of [2^-1074]: a sum below it does not overflow. *)
Definition safe_range : Z := (2 ^ 2097)%Z.

(** A double that is zero, or above zero and finite (with an exponent of
    -1074 at least, as every double has): a whole number of units of
    [2^-1074], which [units 1074] counts. *)
Definition finite_nonneg (x : Binary64.b64) : bool :=
  match x with
  | S754_zero _ => true
  | S754_finite false m e => (-1074 <=? e)%Z
  | _ => false
  end.

(** A double that is a whole number of units of [2^-u], zero or more. *)
Definition in_units (u : nat) (x : Binary64.b64) : Prop :=
  x = of_units u (units u x).

Section WithNumbers.
Context {NUM : Number}.

(** The sum of a sequence of numbers, added left to right from 0. *)
Definition sum (l : list num) : num := fold_left add l zero.

(** The amounts of the records whose key is [k], in input order. *)
Definition amounts_of (key : SalesRecord NUM -> PropertyKey) (k : PropertyKey)
           (data : list (SalesRecord NUM)) : list num :=
  map (@money NUM) (filter (fun r => String.eqb (key r) k) data).

(** Addition is exact: associative and commutative, with 0 neutral. *)
Definition exact_addition : Prop :=
  (forall a b c : num, add a (add b c) = add (add a b) c)
  /\ (forall a b : num, add a b = add b a)
  /\ (forall a : num, add zero a = a).

(** The input contract of the specification on one record. *)
Definition input_contract (r : SalesRecord NUM) : bool :=
  gtb (money r) zero
  && negb (String.eqb (coffee_name r) "")
  && negb (String.eqb (card r) "")
  && match hour r with Some h => h <? 24 | None => false end.

Definition hour_is (h : nat) (r : SalesRecord NUM) : bool :=
  match hour r with Some n => n =? h | None => false end.

(** The number of records of hour [h]. *)
Definition orders_at (h : nat) (data : list (SalesRecord NUM)) : nat :=
  List.length (filter (hour_is h) data).

(** The number of records of customer [c]. *)
Definition orders_of (c : string) (data : list (SalesRecord NUM)) : nat :=
  List.length (filter (fun r => String.eqb (card r) c) data).

(** No key of the records is the name of an inherited property. *)
Definition plain_keys (key : SalesRecord NUM -> PropertyKey)
           (data : list (SalesRecord NUM)) : bool :=
  forallb (fun r => negb (inherited (key r))) data.

(** A comparison that is asymmetric and negatively transitive on the
    numbers of [l], as [>] is on numbers other than NaN. *)
Definition weakly_ordered (l : list num) : bool :=
  forallb (fun a =>
    forallb (fun b =>
      (negb (gtb a b) || negb (gtb b a))
      && forallb (fun c => implb (gtb a b && negb (gtb c b)) (gtb a c)) l) l) l.

(** An entry that no entry exceeds in revenue. *)
Definition is_maximum (chart : list (CoffeeChart NUM)) (p : CoffeeChart NUM)
  : bool :=
  forallb (fun q => negb (gtb (cc_revenue q) (cc_revenue p))) chart.

(** Of the products of maximum revenue, the one whose first record comes
    first in the input. *)
Definition first_in_input_of_maximum (data : list (SalesRecord NUM))
  : option string :=
  find (fun name =>
          existsb (fun p => String.eqb (cc_name p) name
                            && is_maximum (coffeeChartData data) p)
                  (coffeeChartData data))
       (map (@coffee_name NUM) data).

(** The name of the product the top-product insight shows. *)
Definition top_name (chart : list (CoffeeChart NUM)) : option string :=
  match topCoffee chart with
  | Normal top => Some (cc_name top)
  | Throw _ => None
  end.

(** The value of a percentage string in tenths of a percent. *)
Definition tenths (s : numeric_string num) : Z :=
  match s with
  | Decimal false n 1 => Z.of_N n
  | Decimal true n 1 => (- Z.of_N n)%Z
  | _ => 0%Z
  end.

(** A payment entry whose percentage shows [100 * count / total] to within
    half a tenth. *)
Definition share_rounded (total : nat) (p : PaymentChart NUM) : bool :=
  match pc_percentage p with
  | Decimal false n 1 =>
      (Z.abs (2 * Z.of_N n * Z.of_nat total - 2000 * Z.of_nat (pc_count p))
       <=? Z.of_nat total)%Z
  | _ => false
  end.

(** The sum of the percentages of the payments entries, in tenths of a
    percent. *)
Definition tenths_total (chart : list (PaymentChart NUM)) : Z :=
  fold_right Z.add 0%Z (map (fun p => tenths (pc_percentage p)) chart).

(** An own entry of a tally that holds a count of at least one. *)
Definition counted (kv : PropertyKey * frequency) : Prop :=
  exists n, snd kv = Num n /\ 1 <= n.

(** The count a frequency bucket shows. *)
Definition customers_shown (b : FrequencyBucket) : nat :=
  match fb_customers b with Num n => n | Str => 0 end.

(** Average price computed once, after the pass: the accumulation keeps
    the count and the revenue only. *)
Record CoffeeTotal : Type := {
  ct_count : nat;
  ct_revenue : num
}.

Definition coffeeTotals_step (acc : object CoffeeTotal) (record : SalesRecord NUM)
  : object CoffeeTotal :=
  let coffee := coffee_name record in
  let acc :=
    if absent acc coffee
    then set acc coffee {| ct_count := 0; ct_revenue := zero |}
    else acc in
  modify acc coffee (fun t =>
    {| ct_count := ct_count t + 1;
       ct_revenue := add (ct_revenue t) (money record) |}).

Definition coffeeTotals (data : list (SalesRecord NUM)) : object CoffeeTotal :=
  fold_left coffeeTotals_step data [].

Definition average_at_end (t : CoffeeTotal) : CoffeeStat NUM :=
  {| cs_count := ct_count t;
     cs_revenue := ct_revenue t;
     cs_avgPrice := div (ct_revenue t) (of_nat (ct_count t)) |}.

Definition coffeeStats_once (data : list (SalesRecord NUM)) : object (CoffeeStat NUM) :=
  map (fun '(name, t) => (name, average_at_end t)) (coffeeTotals data).

(** The products entries, materialised from the totals: the average is
    computed once and rounded to 2 decimals as it is written out. *)
Definition coffeeChartData_once (data : list (SalesRecord NUM)) : list (CoffeeChart NUM) :=
  map (fun '(name, t) =>
         {| cc_name := name;
            cc_count := ct_count t;
            cc_revenue := ct_revenue t;
            cc_avgPrice :=
              parseFloat (toFixed 2 (div (ct_revenue t) (of_nat (ct_count t)))) |})
      (entries (coffeeTotals data)).

End WithNumbers.

(** The amounts of the records, in units of [2^-u], added up. *)
Definition units_total (u : nat) (data : list (SalesRecord Binary64.binary64))
  : Z :=
  fold_right Z.add 0%Z
             (map (fun r => units u (@money Binary64.binary64 r)) data).

End Spec.

(* ================================================================= *)
(** ** Vocabulary for the views *)

Module Views.
Import JsNumber JsObject Dashboard Spec.

(** The four labels of the frequency view. *)
Definition bucket_labels : list string :=
  ["1 order"; "2-3 orders"; "4-5 orders"; "6+ orders"].

Section WithNumbers.
Context {NUM : Number}.

(** The records whose key is [k], in input order. *)
Definition records_of (key : SalesRecord NUM -> PropertyKey) (k : PropertyKey)
           (data : list (SalesRecord NUM)) : list (SalesRecord NUM) :=
  filter (fun r => String.eqb (key r) k) data.

(** The records of hour [h], in input order. *)
Definition records_at (h : nat) (data : list (SalesRecord NUM))
  : list (SalesRecord NUM) :=
  filter (hour_is h) data.

(** The entry of hour [h]: the label, the number of records of that hour
    and the sum of their amounts, 0 when that sum is falsy. *)
Definition hour_entry (data : list (SalesRecord NUM)) (h : nat) : HourChart NUM :=
  {| hc_hour := (decimal h ++ ":00")%string;
     hc_orders := orders_at h data;
     hc_revenue := or_zero (sum (map (@money NUM) (records_at h data))) |}.

(** The hour of the record is one of 0, ..., 23. *)
Definition valid_hour (r : SalesRecord NUM) : bool :=
  match hour r with Some h => h <? 24 | None => false end.

(** The key of the record is not the name of an inherited property. *)
Definition plain (key : SalesRecord NUM -> PropertyKey) (r : SalesRecord NUM)
  : bool :=
  negb (inherited (key r)).

(** The number of distinct customers whose order count falls in the
    bucket labelled [b]. *)
Definition customers_in (b : string) (data : list (SalesRecord NUM)) : nat :=
  List.length
    (filter (fun c => String.eqb (bucket_of (Num (orders_of c data))) b)
            (first_seen (map (@card NUM) data))).

(** A parsed row that has a product name and an amount above 0. *)
Definition row_kept (row : Page.ParsedRow NUM) : bool :=
  negb (String.eqb (Page.row_coffee_name row) "")
  && gtb (Page.row_money row) zero.

End WithNumbers.
End Views.

(* ================================================================= *)
(** ** Sample inputs *)

Module Examples.
Import JsNumber JsObject Dashboard.

Definition record (NUM : Number) (coffee : string) (amount : @num NUM)
           (method customer : string) (h : nat) : SalesRecord NUM :=
  {| date := "2024-03-01"; datetime := "2024-03-01 10:15:50";
     cash_type := method; card := customer; money := amount;
     coffee_name := coffee; hour := Some h |}.

Definition b64 : Number := Binary64.binary64.
Definition qc : Number := Exact.exact.

(** Scenario A of the specification, on doubles and on rationals. *)
Definition scenario_A : list (SalesRecord b64) :=
  [ record b64 "Latte" (Binary64.lit 300 2) "cash" "c1" 8;
    record b64 "Latte" (Binary64.lit 300 2) "card" "c2" 8;
    record b64 "Espresso" (Binary64.lit 200 2) "cash" "c1" 9 ].

Definition scenario_A_exact : list (SalesRecord qc) :=
  [ record qc "Latte" (Exact.Qc_of_Z 3) "cash" "c1" 8;
    record qc "Latte" (Exact.Qc_of_Z 3) "card" "c2" 8;
    record qc "Espresso" (Exact.Qc_of_Z 2) "cash" "c1" 9 ].

(** Amounts 0.1, 0.2 and 0.3: their sum depends on the order of the
    additions. *)
Definition tenths_of_a_dollar : list (SalesRecord b64) :=
  [ record b64 "Espresso" (Binary64.lit 1 1) "cash" "c1" 8;
    record b64 "Latte" (Binary64.lit 2 1) "card" "c2" 8;
    record b64 "Latte" (Binary64.lit 3 1) "card" "c2" 9 ].

(** A product and a customer named like properties that every object
    inherits. *)
Definition inherited_names : list (SalesRecord b64) :=
  [ record b64 "constructor" (Binary64.lit 350 2) "card" "__proto__" 10;
    record b64 "Latte" (Binary64.lit 300 2) "card" "toString" 11 ].

(** Products sold under their size in ounces. *)
Definition numeric_names : list (SalesRecord b64) :=
  [ record b64 "12" (Binary64.lit 450 2) "card" "c1" 9;
    record b64 "8" (Binary64.lit 350 2) "cash" "c2" 9;
    record b64 "12" (Binary64.lit 450 2) "cash" "c3" 10 ].

(** Two sizes that sell for the same amount: "12" comes first in the
    input, "8" first among the keys of an object. *)
Definition tied_sizes : list (SalesRecord b64) :=
  [ record b64 "12" (Binary64.lit 450 2) "card" "c1" 9;
    record b64 "8" (Binary64.lit 450 2) "cash" "c2" 9 ].

(** Scenario B: "Latte" and "Mocha" share the highest revenue, 6.00. *)
Definition tied_revenue : list (SalesRecord b64) :=
  [ record b64 "Espresso" (Binary64.lit 200 2) "cash" "c1" 8;
    record b64 "Latte" (Binary64.lit 300 2) "cash" "c1" 8;
    record b64 "Mocha" (Binary64.lit 600 2) "card" "c2" 9;
    record b64 "Latte" (Binary64.lit 300 2) "card" "c3" 9 ].

(** Six orders, each paid by another method. *)
Definition six_methods : list (SalesRecord b64) :=
  [ record b64 "Latte" (Binary64.lit 300 2) "cash" "c1" 8;
    record b64 "Latte" (Binary64.lit 300 2) "card" "c2" 8;
    record b64 "Latte" (Binary64.lit 300 2) "blik" "c3" 9;
    record b64 "Latte" (Binary64.lit 300 2) "voucher" "c4" 9;
    record b64 "Latte" (Binary64.lit 300 2) "transfer" "c5" 10;
    record b64 "Latte" (Binary64.lit 300 2) "gift card" "c6" 10 ].

(** Parsed rows: a sale, a row without product name, a row whose amount
    did not parse (NaN), a refund, and another sale. *)
Definition parsed_rows : list (Page.ParsedRow b64) :=
  [ @Page.Build_ParsedRow b64 "2024-03-01" "2024-03-01 10:15:50" "card" "c1"
      (Binary64.lit 387 1) "Latte" (Some 10);
    @Page.Build_ParsedRow b64 "2024-03-01" "2024-03-01 10:19:22" "card" "c2"
      (Binary64.lit 387 1) "" (Some 10);
    @Page.Build_ParsedRow b64 "2024-03-01" "2024-03-01 11:02:10" "cash" ""
      S754_nan "Americano" (Some 11);
    @Page.Build_ParsedRow b64 "2024-03-01" "2024-03-01 11:30:00" "card" "c1"
      (SFopp (Binary64.lit 289 1)) "Americano" (Some 11);
    @Page.Build_ParsedRow b64 "2024-03-01" "" "cash" ""
      (Binary64.lit 289 1) "Americano" None ].

End Examples.
(* ================================================================= *)
(** ** Properties *)

Import JsNumber JsObject Dashboard Grouping Spec Examples.

(* ----------------------------------------------------------------- *)
(** *** Empty input *)

(** C1, as stated, fails: on the empty collection [analytics] does not end
    by raising [EmptyInputError] (it ends normally). *)
Lemma analytics_empty_not_raised :
  ~ (analytics (@nil (SalesRecord Binary64.binary64)) = Throw "EmptyInputError").
Proof. discriminate. Qed.

(** C1, amended: on the empty collection [analytics] returns [null]: it
    builds no result, hence no zero or NaN aggregates, and throws nothing. *)
Theorem analytics_empty_returns_null :
  forall NUM : Number, analytics (@nil (SalesRecord NUM)) = Normal None.
Proof. intros NUM. reflexivity. Qed.

(* ----------------------------------------------------------------- *)
(** *** Own properties: reading after writing *)

Section ObjectFacts.
Variable V : Type.
Implicit Types (o : object V) (k : PropertyKey) (v : V).

Lemma own_get_own_set_same o k v : own_get k (own_set k v o) = Some v.
Proof.
  induction o as [|[k' v'] o IH]; simpl.
  - now rewrite String.eqb_refl.
  - destruct (String.eqb k k') eqn:E; simpl; rewrite ?String.eqb_refl, ?E; auto.
Qed.

Lemma own_get_own_set_other o k k' v :
  k <> k' -> own_get k' (own_set k v o) = own_get k' o.
Proof.
  intros Hne. induction o as [|[k0 v0] o IH]; simpl.
  - destruct (String.eqb_spec k' k); congruence.
  - destruct (String.eqb_spec k k0) as [->|]; simpl.
    + destruct (String.eqb_spec k' k0); congruence.
    + now rewrite IH.
Qed.

Lemma own_set_own_set o k v v' : own_set k v' (own_set k v o) = own_set k v' o.
Proof.
  induction o as [|[k0 v0] o IH]; simpl.
  - now rewrite String.eqb_refl.
  - destruct (String.eqb k k0) eqn:E; simpl; rewrite ?String.eqb_refl, ?E; congruence.
Qed.

Lemma own_get_In o k v : own_get k o = Some v -> In (k, v) o.
Proof.
  induction o as [|[k0 v0] o IH]; simpl; [discriminate|].
  destruct (String.eqb_spec k k0) as [->|]; intros H.
  - injection H as ->. now left.
  - right. auto.
Qed.

Lemma own_get_None_keys o k : own_get k o = None <-> ~ In k (keys o).
Proof.
  induction o as [|[k0 v0] o IH]; simpl.
  - tauto.
  - destruct (String.eqb_spec k k0) as [->|].
    + split; [discriminate | intros H; exfalso; apply H; now left].
    + rewrite IH. intuition congruence.
Qed.

Lemma keys_own_set o k v :
  keys (own_set k v o)
  = match own_get k o with Some _ => keys o | None => keys o ++ [k] end.
Proof.
  induction o as [|[k0 v0] o IH]; simpl; auto.
  destruct (String.eqb_spec k k0) as [->|]; simpl; auto.
  rewrite IH. now destruct (own_get k o).
Qed.

Lemma own_set_new o k v :
  own_get k o = None -> own_set k v o = o ++ [(k, v)].
Proof.
  induction o as [|[k0 v0] o IH]; simpl; auto.
  destruct (String.eqb_spec k k0); [discriminate|].
  intros H. now rewrite IH.
Qed.

Lemma modify_modify o k (f g : V -> V) :
  modify (modify o k f) k g = modify o k (fun x => g (f x)).
Proof.
  unfold modify. destruct (own_get k o) as [v|] eqn:E.
  - now rewrite own_get_own_set_same, own_set_own_set.
  - now rewrite E.
Qed.

Lemma absent_set_new o k v :
  absent o k = true -> set o k v = o ++ [(k, v)] /\ own_get k o = None
                       /\ inherited k = false.
Proof.
  unfold absent, get, set.
  destruct (own_get k o) eqn:E; [discriminate|].
  destruct (inherited k) eqn:I; [discriminate|]. intros _.
  destruct (String.eqb_spec k "__proto__") as [->|]; [discriminate|].
  now rewrite own_set_new.
Qed.

(* ----------------------------------------------------------------- *)
(** *** [Object.entries] lists the own properties, reordered *)

Lemma insert_index_perm (kv : PropertyKey * V) (l : object V) :
  Permutation (insert_index kv l) (kv :: l).
Proof.
  induction l as [|kv' l IH]; simpl; auto.
  destruct (index_of kv <? index_of kv')%N; auto.
  rewrite IH. apply perm_swap.
Qed.

Lemma sort_index_perm (l : object V) : Permutation (sort_index l) l.
Proof.
  induction l as [|kv l IH]; simpl; auto.
  rewrite insert_index_perm. now constructor.
Qed.

Lemma filter_split_perm (A : Type) (p : A -> bool) (l : list A) :
  Permutation (filter p l ++ filter (fun x => negb (p x)) l) l.
Proof.
  induction l as [|x l IH]; simpl; auto.
  destruct (p x); simpl.
  - now constructor.
  - rewrite <- Permutation_middle. now constructor.
Qed.

Lemma entries_perm o : Permutation (entries o) o.
Proof.
  unfold entries. rewrite sort_index_perm. apply filter_split_perm.
Qed.

End ObjectFacts.

(* ----------------------------------------------------------------- *)
(** *** One grouping step, by cases on what [acc[k]] reads *)


Section GroupFacts.
Variables R V : Type.
Variable key : R -> PropertyKey.
Variable init : V.
Variable upd : R -> V -> V.

#[local] Abbreviation step := (group_step key init upd).

Lemma group_step_own acc r v :
  own_get (key r) acc = Some v -> step acc r = own_set (key r) (upd r v) acc.
Proof.
  intros E. unfold group_step, absent, get, modify. now rewrite E, E.
Qed.

Lemma group_step_inherited acc r :
  own_get (key r) acc = None -> inherited (key r) = true -> step acc r = acc.
Proof.
  intros E I. unfold group_step, absent, get, modify. now rewrite E, I, E.
Qed.

Lemma group_step_new acc r :
  own_get (key r) acc = None -> inherited (key r) = false ->
  step acc r = acc ++ [(key r, upd r init)].
Proof.
  intros E I. unfold group_step.
  assert (A : absent acc (key r) = true) by (unfold absent, get; now rewrite E, I).
  rewrite A. destruct (absent_set_new acc (key r) init A) as (-> & _ & _).
  assert (G : own_get (key r) (acc ++ [(key r, init)]) = Some init).
  { rewrite <- (own_set_new _ _ init E). apply own_get_own_set_same. }
  unfold modify. rewrite G, <- (own_set_new _ _ init E), own_set_own_set.
  now apply own_set_new.
Qed.

Lemma group_invariant (P : object V -> Prop) :
  (forall acc r v, P acc -> own_get (key r) acc = Some v ->
                   P (own_set (key r) (upd r v) acc)) ->
  (forall acc r, P acc -> own_get (key r) acc = None ->
                 inherited (key r) = false -> P (acc ++ [(key r, upd r init)])) ->
  forall data acc, P acc -> P (fold_left step data acc).
Proof.
  intros Hown Hnew data. induction data as [|r data IH]; intros acc HP; simpl; auto.
  apply IH. destruct (own_get (key r) acc) as [v|] eqn:E.
  - rewrite (group_step_own _ _ E). eauto.
  - destruct (inherited (key r)) eqn:I.
    + now rewrite group_step_inherited.
    + rewrite group_step_new; auto.
Qed.

Lemma group_invariant_on (Q : R -> Prop) (P : object V -> Prop) :
  (forall acc r v, Q r -> P acc -> own_get (key r) acc = Some v ->
                   P (own_set (key r) (upd r v) acc)) ->
  (forall acc r, Q r -> P acc -> own_get (key r) acc = None ->
                 inherited (key r) = false -> P (acc ++ [(key r, upd r init)])) ->
  forall data acc, Forall Q data -> P acc -> P (fold_left step data acc).
Proof.
  intros Hown Hnew data. induction data as [|r data IH]; intros acc HQ HP; simpl; auto.
  inversion HQ; subst.
  apply IH; auto. destruct (own_get (key r) acc) as [v|] eqn:E.
  - rewrite (group_step_own _ _ E). eauto.
  - destruct (inherited (key r)) eqn:I.
    + now rewrite group_step_inherited.
    + rewrite group_step_new; auto.
Qed.

(** The own keys never repeat. *)
Lemma group_keys_NoDup data acc :
  NoDup (keys acc) -> NoDup (keys (fold_left step data acc)).
Proof.
  apply group_invariant with (P := fun o => NoDup (keys o)).
  - intros o r v H E. now rewrite keys_own_set, E.
  - intros o r H E I. unfold keys. rewrite map_app. simpl.
    apply NoDup_app; auto.
    + repeat constructor. simpl. tauto.
    + intros x Hx [<-|[]]. now apply own_get_None_keys in E.
Qed.

(** The own keys are the record keys that are not inherited names, each
    at its first occurrence. *)
Lemma filter_filter (A : Type) (p q : A -> bool) (l : list A) :
  filter p (filter q l) = filter (fun x => q x && p x) l.
Proof.
  induction l as [|x l IH]; simpl; auto.
  destruct (q x); simpl; [destruct (p x)|]; now rewrite IH.
Qed.

Lemma group_keys data : forall acc,
  keys (fold_left step data acc)
  = keys acc
    ++ filter (fresh acc)
         (first_seen (filter (fun k => negb (inherited k)) (map key data))).
Proof.
  induction data as [|r data IH]; intros acc; simpl.
  - now rewrite app_nil_r.
  - rewrite IH. set (rest := filter _ (map key data)).
    destruct (own_get (key r) acc) as [v|] eqn:E.
    + rewrite (group_step_own _ _ E), keys_own_set, E. f_equal.
      assert (F : forall k, fresh (own_set (key r) (upd r v) acc) k = fresh acc k).
      { intros k. unfold fresh. destruct (String.eqb_spec (key r) k) as [<-|Hne].
        - now rewrite own_get_own_set_same, E.
        - now rewrite own_get_own_set_other. }
      rewrite (filter_ext _ _ F).
      destruct (inherited (key r)); simpl; auto.
      unfold fresh at 2. rewrite E. rewrite filter_filter.
      apply filter_ext_in. intros k _.
      destruct (String.eqb_spec k (key r)) as [->|]; simpl; auto.
      unfold fresh. now rewrite E.
    + destruct (inherited (key r)) eqn:I; simpl.
      * now rewrite group_step_inherited.
      * rewrite group_step_new; auto. unfold keys at 1. rewrite map_app. simpl.
        rewrite <- app_assoc. simpl. f_equal.
        unfold fresh at 2. rewrite E. f_equal.
        rewrite filter_filter. apply filter_ext. intros k.
        unfold fresh. rewrite <- (own_set_new _ _ (upd r init) E).
        destruct (String.eqb_spec k (key r)) as [->|Hne]; simpl.
        -- now rewrite own_get_own_set_same.
        -- now rewrite own_get_own_set_other by congruence.
Qed.

Lemma group_keys_first_seen data :
  keys (group key init upd data)
  = first_seen (filter (fun k => negb (inherited k)) (map key data)).
Proof.
  unfold group. rewrite group_keys. simpl.
  rewrite (filter_ext (fresh []) (fun _ => true)) by reflexivity.
  generalize (first_seen (filter (fun k => negb (inherited k)) (map key data))).
  intros l. induction l as [|x l IH]; simpl; [reflexivity | now rewrite IH].
Qed.

End GroupFacts.

(* ----------------------------------------------------------------- *)
(** *** The three reducers are grouping steps *)

Section ReducerShape.
Context {NUM : Number}.

Lemma coffeeStats_step_group acc r :
  coffeeStats_step acc r = group_step (@coffee_name NUM) coffee_init coffee_upd acc r.
Proof.
  unfold coffeeStats_step, group_step. now rewrite !modify_modify.
Qed.

Lemma hourlyStats_step_group acc r :
  hourlyStats_step acc r
  = group_step (fun r : SalesRecord NUM => hour_key (hour r)) hour_init hour_upd acc r.
Proof.
  unfold hourlyStats_step, group_step. now rewrite !modify_modify.
Qed.

Lemma paymentStats_step_group acc r :
  paymentStats_step acc r = group_step (@cash_type NUM) payment_init payment_upd acc r.
Proof.
  unfold paymentStats_step, group_step. now rewrite !modify_modify.
Qed.

Lemma fold_left_ext (A B : Type) (f g : B -> A -> B) :
  (forall b a, f b a = g b a) ->
  forall l b, fold_left f l b = fold_left g l b.
Proof.
  intros H l. induction l as [|a l IH]; intros b; simpl; auto.
  now rewrite H, IH.
Qed.

Lemma coffeeStats_group data :
  coffeeStats data = group (@coffee_name NUM) coffee_init coffee_upd data.
Proof. apply fold_left_ext, coffeeStats_step_group. Qed.

Lemma hourlyStats_group data :
  hourlyStats data
  = group (fun r : SalesRecord NUM => hour_key (hour r)) hour_init hour_upd data.
Proof. apply fold_left_ext, hourlyStats_step_group. Qed.

Lemma paymentStats_group data :
  paymentStats data = group (@cash_type NUM) payment_init payment_upd data.
Proof. apply fold_left_ext, paymentStats_step_group. Qed.

End ReducerShape.

(* ----------------------------------------------------------------- *)
(** *** What the groups add up to, for a measure in a commutative monoid *)

Section Measure.
Variables R V M : Type.
Variable key : R -> PropertyKey.
Variable init : V.
Variable upd : R -> V -> V.
Variable mzero : M.
Variable madd : M -> M -> M.
Variable meas : V -> M.
Variable amount : R -> M.

Hypothesis madd_assoc : forall a b c, madd a (madd b c) = madd (madd a b) c.
Hypothesis madd_comm : forall a b, madd a b = madd b a.
Hypothesis madd_zero : forall a, madd mzero a = a.
Hypothesis meas_init : meas init = mzero.
Hypothesis meas_upd : forall r v, meas (upd r v) = madd (meas v) (amount r).

#[local] Abbreviation step := (group_step key init upd).
#[local] Abbreviation tot := (total mzero madd meas).
#[local] Abbreviation msum := (fold_right madd mzero).

Lemma total_app o o' : tot (o ++ o') = madd (tot o) (tot o').
Proof.
  unfold total. induction o as [|kv o IH]; simpl.
  - now rewrite madd_zero.
  - now rewrite IH, madd_assoc.
Qed.

Lemma total_own_set o k v v' m :
  own_get k o = Some v -> meas v' = madd (meas v) m ->
  tot (own_set k v' o) = madd (tot o) m.
Proof.
  unfold total. intros E Hm.
  induction o as [|[k0 v0] o IH]; simpl in *; [discriminate|].
  destruct (String.eqb k k0); simpl.
  - injection E as ->. rewrite Hm.
    rewrite <- !madd_assoc. f_equal. apply madd_comm.
  - rewrite IH by assumption. now rewrite madd_assoc.
Qed.

Lemma total_perm o o' : Permutation o o' -> tot o = tot o'.
Proof.
  unfold total. induction 1; simpl; try congruence.
  all: rewrite !madd_assoc; f_equal; apply madd_comm.
Qed.

Lemma total_step acc r :
  inherited (key r) = false -> tot (step acc r) = madd (tot acc) (amount r).
Proof.
  intros I. destruct (own_get (key r) acc) as [v|] eqn:E.
  - erewrite group_step_own by eassumption. eapply total_own_set; eauto.
  - rewrite group_step_new by assumption.
    rewrite total_app. f_equal. unfold total. simpl.
    now rewrite meas_upd, meas_init, madd_zero, madd_comm, madd_zero.
Qed.

Lemma total_fold data : forall acc,
  forallb (fun r => negb (inherited (key r))) data = true ->
  tot (fold_left step data acc) = madd (tot acc) (msum (map amount data)).
Proof.
  induction data as [|r data IH]; intros acc H; simpl in *.
  - now rewrite madd_comm, madd_zero.
  - apply andb_true_iff in H as [H1 H2]. apply negb_true_iff in H1.
    rewrite IH by assumption. rewrite total_step by assumption.
    now rewrite madd_assoc.
Qed.

(** Summing over [Object.entries] of the groups gives the sum over the
    records. *)
Lemma total_entries_group data :
  forallb (fun r => negb (inherited (key r))) data = true ->
  tot (entries (group key init upd data)) = msum (map amount data).
Proof.
  intros H. rewrite (total_perm (entries_perm _)).
  unfold group. rewrite total_fold by assumption.
  unfold total. simpl. apply madd_zero.
Qed.

(** Adding left to right from [mzero] is the same sum. *)
Lemma fold_left_msum l : forall a, fold_left madd l a = madd a (msum l).
Proof.
  induction l as [|x l IH]; intros a; simpl.
  - now rewrite madd_comm, madd_zero.
  - now rewrite IH, madd_assoc.
Qed.

End Measure.

(* ----------------------------------------------------------------- *)
(** *** Counting the records of one key *)

Section CountAtKey.
Variables R V : Type.
Variable key : R -> PropertyKey.
Variable init : V.
Variable upd : R -> V -> V.
Variable cnt : V -> nat.
Hypothesis cnt_init : cnt init = 0.
Hypothesis cnt_upd : forall r v, cnt (upd r v) = cnt v + 1.

#[local] Abbreviation step := (group_step key init upd).
#[local] Abbreviation at_k := (at_key 0 cnt).

Lemma at_key_step acc r k :
  inherited k = false ->
  at_k k (step acc r) = at_k k acc + (if String.eqb (key r) k then 1 else 0).
Proof.
  intros I. unfold at_key.
  destruct (String.eqb_spec (key r) k) as [<-|Hne].
  - destruct (own_get (key r) acc) as [v|] eqn:E.
    + erewrite group_step_own by eassumption.
      now rewrite own_get_own_set_same, cnt_upd.
    + rewrite group_step_new by assumption.
      rewrite <- own_set_new by assumption.
      now rewrite own_get_own_set_same, cnt_upd, cnt_init.
  - rewrite Nat.add_0_r.
    destruct (own_get (key r) acc) as [v|] eqn:E.
    + erewrite group_step_own by eassumption.
      now rewrite own_get_own_set_other.
    + destruct (inherited (key r)) eqn:I'.
      * now rewrite group_step_inherited.
      * rewrite group_step_new by assumption.
        rewrite <- own_set_new by assumption.
        now rewrite own_get_own_set_other.
Qed.

Lemma at_key_fold k data : forall acc,
  inherited k = false ->
  at_k k (fold_left step data acc)
  = at_k k acc + List.length (filter (fun r => String.eqb (key r) k) data).
Proof.
  induction data as [|r data IH]; intros acc I; simpl.
  - lia.
  - rewrite IH, at_key_step by assumption.
    destruct (String.eqb (key r) k); simpl; lia.
Qed.

(** Every group has counted at least one record. *)
Lemma group_counts_positive data : forall acc,
  Forall (fun kv => 1 <= cnt (snd kv)) acc ->
  Forall (fun kv => 1 <= cnt (snd kv)) (fold_left step data acc).
Proof.
  apply group_invariant with (P := Forall (fun kv => 1 <= cnt (snd kv))).
  - intros acc r v H E. clear E.
    induction acc as [|[k0 v0] acc IH]; simpl.
    + constructor; auto. simpl. rewrite cnt_upd. lia.
    + inversion H; subst. destruct (String.eqb (key r) k0).
      * constructor; auto. simpl. rewrite cnt_upd. lia.
      * constructor; auto.
  - intros acc r H E I. apply Forall_app. split; auto.
    constructor; auto. simpl. rewrite cnt_upd. lia.
Qed.

End CountAtKey.

(* ----------------------------------------------------------------- *)
(** *** Decimal keys *)

Lemma parse_decimal_decimal n : parse_decimal (decimal n) = Some n.
Proof.
  unfold parse_decimal, decimal.
  destruct (Nat.to_uint n) eqn:E;
    [ rewrite NilZero.usu_nil; simpl;
      rewrite <- (DecimalNat.Unsigned.of_to n), E; reflexivity
    | rewrite NilZero.usu by discriminate; simpl;
      now rewrite <- E, DecimalNat.Unsigned.of_to .. ].
Qed.

Lemma decimal_inj n m : decimal n = decimal m -> n = m.
Proof.
  intros H. apply (f_equal parse_decimal) in H.
  rewrite !parse_decimal_decimal in H. congruence.
Qed.

Lemma hour_key_decimal (h : option nat) (n : nat) :
  String.eqb (hour_key h) (decimal n)
  = match h with Some m => m =? n | None => false end.
Proof.
  destruct h as [m|]; unfold hour_key.
  - destruct (Nat.eqb_spec m n) as [->|Hne].
    + apply String.eqb_refl.
    + apply String.eqb_neq. intros H. apply decimal_inj in H. contradiction.
  - apply String.eqb_neq. intros H. apply (f_equal parse_decimal) in H.
    rewrite parse_decimal_decimal in H. discriminate.
Qed.

Lemma decimal_not_inherited n : inherited (decimal n) = false.
Proof.
  destruct (inherited (decimal n)) eqn:I; auto.
  unfold inherited in I. apply existsb_exists in I as (k & Hk & E).
  apply String.eqb_eq in E. subst k.
  assert (P : forall k, In k Object_prototype_keys -> parse_decimal k = None).
  { intros k Hin. simpl in Hin.
    repeat (destruct Hin as [<-|Hin]; [reflexivity|]). destruct Hin. }
  apply P in Hk. rewrite parse_decimal_decimal in Hk. discriminate.
Qed.

(* ----------------------------------------------------------------- *)
(** *** The hourly series *)

Lemma filter_map_swap (A B : Type) (p : B -> bool) (g : A -> B) (l : list A) :
  filter p (map g l) = map g (filter (fun x => p (g x)) l).
Proof.
  induction l as [|x l IH]; simpl; auto.
  destruct (p (g x)); simpl; now rewrite IH.
Qed.

Lemma StronglySorted_seq a n : StronglySorted lt (seq a n).
Proof.
  revert a. induction n as [|n IH]; intros a; simpl; constructor; auto.
  apply Forall_forall. intros x Hx. apply in_seq in Hx. lia.
Qed.

Lemma StronglySorted_filter (A : Type) (lt' : A -> A -> Prop) (p : A -> bool) l :
  StronglySorted lt' l -> StronglySorted lt' (filter p l).
Proof.
  induction 1 as [|x l Hs IH Hx]; simpl; [constructor|].
  destruct (p x); auto. constructor; auto.
  apply Forall_forall. intros y Hy. apply filter_In in Hy as [Hy _].
  revert y Hy. now apply Forall_forall.
Qed.

Section Hourly.
Context {NUM : Number}.
Implicit Types data : list (SalesRecord NUM).

Lemma hourly_item_orders data h :
  hc_orders (hourly_item (hourlyStats data) h) = orders_at h data.
Proof.
  transitivity (at_key 0 (@hs_orders NUM) (decimal h) (hourlyStats data)).
  - unfold hourly_item, get, at_key. simpl.
    destruct (own_get (decimal h) (hourlyStats data)); auto.
    now destruct (inherited (decimal h)).
  - rewrite hourlyStats_group. unfold group.
    rewrite at_key_fold with (cnt := @hs_orders NUM);
      auto using decimal_not_inherited.
    unfold at_key, orders_at. simpl. f_equal. apply filter_ext.
    intros r. apply hour_key_decimal.
Qed.

Lemma hourlyChartData_hours data :
  hourlyChartData data
  = map (hourly_item (hourlyStats data))
        (filter (fun h => 0 <? orders_at h data) (seq 0 24)).
Proof.
  unfold hourlyChartData. rewrite filter_map_swap. f_equal.
  apply filter_ext. intros h. now rewrite hourly_item_orders.
Qed.

Lemma orders_at_positive data h :
  0 < orders_at h data <-> exists r, In r data /\ hour r = Some h.
Proof.
  unfold orders_at. split.
  - intros H. destruct (filter (hour_is h) data) as [|r l] eqn:E; [simpl in H; lia|].
    assert (Hin : In r (filter (hour_is h) data)) by (rewrite E; now left).
    apply filter_In in Hin as [Hin Hh]. exists r. split; auto.
    unfold hour_is in Hh. destruct (hour r) as [n|]; [|discriminate].
    apply Nat.eqb_eq in Hh. now subst.
  - intros (r & Hin & Hh).
    assert (Hf : In r (filter (hour_is h) data)).
    { apply filter_In. split; auto. unfold hour_is. rewrite Hh. apply Nat.eqb_refl. }
    destruct (filter (hour_is h) data); [destruct Hf | simpl; lia].
Qed.

Lemma input_contract_hour (r : SalesRecord NUM) :
  input_contract r = true -> exists h, hour r = Some h /\ h < 24.
Proof.
  unfold input_contract. intros H. apply andb_true_iff in H as [_ H].
  destruct (hour r) as [h|]; [|discriminate].
  exists h. split; auto. now apply Nat.ltb_lt.
Qed.

(** Each record of a valid hour is counted in exactly one of the 24 slots. *)
Lemma one_slot n a len :
  list_sum (map (fun h => if n =? h then 1 else 0) (seq a len))
  = if (a <=? n) && (n <? a + len) then 1 else 0.
Proof.
  revert a. induction len as [|len IH]; intros a; simpl.
  - destruct (a <=? n) eqn:E1; simpl; auto.
    destruct (n <? a + 0) eqn:E2; auto.
    apply Nat.leb_le in E1. apply Nat.ltb_lt in E2. lia.
  - rewrite IH.
    destruct (Nat.eqb_spec n a); destruct (Nat.leb_spec (S a) n);
      destruct (Nat.leb_spec a n); destruct (Nat.ltb_spec n (S a + len));
      destruct (Nat.ltb_spec n (a + S len)); simpl; lia.
Qed.

Lemma list_sum_add (A : Type) (f g : A -> nat) (l : list A) :
  list_sum (map (fun x => f x + g x) l) = list_sum (map f l) + list_sum (map g l).
Proof. induction l; simpl; lia. Qed.

Lemma slots_total data :
  forallb (@input_contract NUM) data = true ->
  list_sum (map (fun h => orders_at h data) (seq 0 24)) = List.length data.
Proof.
  induction data as [|r data IH]; intros H.
  - reflexivity.
  - simpl in H. apply andb_true_iff in H as [Hr H].
    apply input_contract_hour in Hr as (n & Hn & Hlt).
    rewrite (map_ext _ (fun h => (if n =? h then 1 else 0) + orders_at h data)).
    + rewrite list_sum_add, one_slot, IH by assumption.
      destruct (Nat.leb_spec 0 n); destruct (Nat.ltb_spec n (0 + 24)); simpl; lia.
    + intros h. unfold orders_at. simpl. unfold hour_is at 1. rewrite Hn.
      now destruct (n =? h).
Qed.

Lemma list_sum_filter_positive (A : Type) (f : A -> nat) (l : list A) :
  list_sum (map f (filter (fun x => 0 <? f x) l)) = list_sum (map f l).
Proof.
  induction l as [|x l IH]; simpl; auto.
  destruct (Nat.ltb_spec 0 (f x)); simpl; lia.
Qed.

Lemma hourly_orders data :
  forallb (@input_contract NUM) data = true ->
  list_sum (map (@hc_orders NUM) (hourlyChartData data)) = totalOrders data.
Proof.
  intros H. rewrite hourlyChartData_hours, map_map.
  rewrite (map_ext _ (fun h => orders_at h data))
    by (intros; apply hourly_item_orders).
  rewrite list_sum_filter_positive. now apply slots_total.
Qed.

End Hourly.

(** C8: for an input that satisfies the contract, the hourly series has one
    entry for each hour that has an order and none for the others, in
    strictly increasing order of the hour, whatever the order of the
    records. *)
Theorem hourly_sparse_ascending (NUM : Number) (data : list (SalesRecord NUM))
  (Hvalid : forallb (@input_contract NUM) data = true) :
  exists hours : list nat,
    map (@hc_hour NUM) (hourlyChartData data)
      = map (fun h => (decimal h ++ ":00")%string) hours
    /\ map (@hc_orders NUM) (hourlyChartData data)
      = map (fun h => orders_at h data) hours
    /\ StronglySorted lt hours
    /\ forall h, In h hours <-> 0 < orders_at h data.
Proof.
  exists (filter (fun h => 0 <? orders_at h data) (seq 0 24)).
  rewrite hourlyChartData_hours, !map_map. repeat split.
  - apply map_ext. intros h. apply hourly_item_orders.
  - apply StronglySorted_filter, StronglySorted_seq.
  - intros Hin. apply filter_In in Hin as [_ Hin]. now apply Nat.ltb_lt.
  - intros Hpos. apply filter_In. split; [|now apply Nat.ltb_lt].
    apply orders_at_positive in Hpos as (r & Hin & Hh).
    rewrite forallb_forall in Hvalid.
    destruct (input_contract_hour _ (Hvalid r Hin)) as (n & Hn & Hlt).
    apply in_seq. assert (n = h) by congruence. lia.
Qed.

(** Scenario A on doubles. *)
Lemma hourly_sparse_ascending_witness :
  exists hours : list nat,
    map (@hc_hour b64) (hourlyChartData scenario_A)
      = map (fun h => (decimal h ++ ":00")%string) hours
    /\ map (@hc_orders b64) (hourlyChartData scenario_A)
      = map (fun h => orders_at h scenario_A) hours
    /\ StronglySorted lt hours
    /\ forall h, In h hours <-> 0 < orders_at h scenario_A.
Proof.
  apply (@hourly_sparse_ascending b64 scenario_A). reflexivity.
Defined.

(* ----------------------------------------------------------------- *)
(** *** The value of a group: its records, folded in input order *)

Section GroupValues.
Variables R V : Type.
Variable key : R -> PropertyKey.
Variable init : V.
Variable upd : R -> V -> V.

#[local] Abbreviation step := (group_step key init upd).
#[local] Abbreviation of_key := (fun k (r : R) => String.eqb (key r) k).
#[local] Abbreviation apply_all := (fold_left (fun v r => upd r v)).

Lemma own_get_group_step_other acc r k :
  key r <> k -> own_get k (step acc r) = own_get k acc.
Proof.
  intros Hne. destruct (own_get (key r) acc) as [v|] eqn:E.
  - erewrite group_step_own by eassumption. now apply own_get_own_set_other.
  - destruct (inherited (key r)) eqn:I.
    + now rewrite group_step_inherited.
    + rewrite group_step_new by assumption.
      rewrite <- own_set_new by assumption. now apply own_get_own_set_other.
Qed.

Lemma own_get_group k data : forall acc,
  inherited k = false ->
  own_get k (fold_left step data acc)
  = match own_get k acc, filter (of_key k) data with
    | Some v, l => Some (apply_all l v)
    | None, [] => None
    | None, r :: l => Some (apply_all l (upd r init))
    end.
Proof.
  induction data as [|r data IH]; intros acc I; simpl.
  - now destruct (own_get k acc).
  - rewrite IH by assumption.
    destruct (String.eqb_spec (key r) k) as [<-|Hne].
    + destruct (own_get (key r) acc) as [v|] eqn:E.
      * erewrite group_step_own by eassumption.
        now rewrite own_get_own_set_same.
      * rewrite group_step_new by assumption.
        rewrite <- own_set_new by assumption.
        now rewrite own_get_own_set_same.
    + now rewrite own_get_group_step_other.
Qed.

(** Own keys are never inherited names. *)
Lemma group_keys_plain data k :
  In k (keys (group key init upd data)) -> inherited k = false.
Proof.
  rewrite group_keys_first_seen. intros H.
  assert (G : forall l x, In x (first_seen l) -> In x l).
  { induction l as [|y l IHl]; simpl; [tauto|].
    intros x [->|Hx]; auto. apply filter_In in Hx as [Hx _]. auto. }
  apply G, filter_In in H as [_ H]. now apply negb_true_iff.
Qed.

Lemma group_entry data k v :
  In (k, v) (group key init upd data) ->
  exists r l, filter (of_key k) data = r :: l /\ v = apply_all l (upd r init).
Proof.
  intros Hin.
  assert (I : inherited k = false).
  { apply group_keys_plain with (data := data). unfold keys.
    change k with (fst (k, v)). now apply in_map. }
  assert (Hnd : NoDup (keys (group key init upd data))).
  { apply group_keys_NoDup. constructor. }
  assert (G : own_get k (group key init upd data) = Some v).
  { revert Hin Hnd. generalize (group key init upd data).
    induction o as [|[k0 v0] o IHo]; simpl; [tauto|].
    intros [E|Hin] Hnd; inversion Hnd; subst.
    - injection E as -> ->. now rewrite String.eqb_refl.
    - destruct (String.eqb_spec k k0) as [->|]; auto.
      exfalso. apply H1. change k0 with (fst (k0, v)). now apply in_map. }
  unfold group in G. rewrite own_get_group in G by assumption. simpl in G.
  destruct (filter (of_key k) data) as [|r l]; [discriminate|].
  injection G as <-. eauto.
Qed.

End GroupValues.
(* ----------------------------------------------------------------- *)
(** *** Rounding of doubles

    What the operations of binary64 keep of a value: sums of multiples of
    a power of two are exact while they stay below [2^53] units, and the
    quotient of two counts times 100 is off by less than what [toFixed]
    can see. *)

Section DoubleFacts.
Import Binary64.
#[local] Open Scope Z_scope.

Lemma pow2_pred (d : positive) : 2 ^ Zpos d = 2 * 2 ^ (Zpos d - 1).
Proof. rewrite <- Z.pow_succ_r by lia. f_equal. lia. Qed.

Lemma digits2_pos_bounds (p : positive) :
  2 ^ (Zpos (digits2_pos p) - 1) <= Zpos p < 2 ^ Zpos (digits2_pos p).
Proof.
  induction p as [p IH | p IH |]; cbn [digits2_pos].
  - rewrite Pos2Z.inj_succ, (Pos2Z.inj_xI p).
    replace (Z.succ (Zpos (digits2_pos p)) - 1) with (Zpos (digits2_pos p)) by lia.
    rewrite Z.pow_succ_r by lia. rewrite pow2_pred in *. lia.
  - rewrite Pos2Z.inj_succ, (Pos2Z.inj_xO p).
    replace (Z.succ (Zpos (digits2_pos p)) - 1) with (Zpos (digits2_pos p)) by lia.
    rewrite Z.pow_succ_r by lia. rewrite pow2_pred in *. lia.
  - cbn. lia.
Qed.

Lemma digits2_pos_le (p : positive) (j : Z) :
  Zpos p < 2 ^ j -> Zpos (digits2_pos p) <= j.
Proof.
  intros H. destruct (digits2_pos_bounds p) as [L _].
  destruct (Z.le_gt_cases (Zpos (digits2_pos p)) j) as [|G]; [assumption|].
  exfalso.
  assert (2 ^ j <= 2 ^ (Zpos (digits2_pos p) - 1)).
  { destruct (Z.le_gt_cases 0 j).
    - apply Z.pow_le_mono_r; lia.
    - rewrite (Z.pow_neg_r 2 j) by lia. apply Z.pow_nonneg. lia. }
  lia.
Qed.

Lemma digits2_pos_ge (p : positive) (j : Z) :
  2 ^ j <= Zpos p -> j < Zpos (digits2_pos p).
Proof.
  intros H. destruct (digits2_pos_bounds p) as [_ U].
  destruct (Z.le_gt_cases (Zpos (digits2_pos p)) j) as [G|]; [|assumption].
  exfalso.
  assert (2 ^ Zpos (digits2_pos p) <= 2 ^ j) by (apply Z.pow_le_mono_r; lia).
  lia.
Qed.

(** Shifting left. *)
Lemma iter_xO (p k : positive) :
  Zpos (Pos.iter xO p k) = Zpos p * 2 ^ Zpos k.
Proof.
  induction k as [|k IH] using Pos.peano_ind.
  - cbn [Pos.iter]. rewrite (Pos2Z.inj_xO p). change (2 ^ 1) with 2. lia.
  - rewrite Pos.iter_succ, (Pos2Z.inj_xO (Pos.iter xO p k)), IH, Pos2Z.inj_succ, Z.pow_succ_r by lia.
    lia.
Qed.

Lemma shr_1_even (m : Z) :
  0 <= m ->
  shr_1 {| shr_m := 2 * m; shr_r := false; shr_s := false |}
  = {| shr_m := m; shr_r := false; shr_s := false |}.
Proof. intros H. destruct m as [|q|q]; [reflexivity | reflexivity | lia]. Qed.

Lemma pow2_double (k : Z) : 0 <= k -> 2 ^ (2 * k) = 2 ^ k * 2 ^ k.
Proof. intros H. replace (2 * k) with (k + k) by lia. apply Z.pow_add_r; lia. Qed.

Lemma shr_exact (k : positive) : forall m : Z,
  0 <= m ->
  iter_pos shr_1 k {| shr_m := m * 2 ^ Zpos k; shr_r := false; shr_s := false |}
  = {| shr_m := m; shr_r := false; shr_s := false |}.
Proof.
  induction k as [k IH | k IH |]; intros m H; cbn [iter_pos];
    try assert (P : 0 < 2 ^ Zpos k) by (apply Z.pow_pos_nonneg; lia).
  - rewrite (Pos2Z.inj_xI k).
    replace (m * 2 ^ (2 * Zpos k + 1))
      with (2 * ((m * 2 ^ Zpos k) * 2 ^ Zpos k))
      by (rewrite Z.pow_add_r, pow2_double by lia; change (2 ^ 1) with 2; lia).
    rewrite shr_1_even by nia.
    rewrite IH by nia. apply IH; assumption.
  - rewrite (Pos2Z.inj_xO k).
    replace (m * 2 ^ (2 * Zpos k))
      with ((m * 2 ^ Zpos k) * 2 ^ Zpos k)
      by (rewrite pow2_double by lia; lia).
    rewrite IH by nia. apply IH; assumption.
  - replace (m * 2 ^ 1) with (2 * m) by (change (2 ^ 1) with 2; lia).
    apply shr_1_even; assumption.
Qed.

Lemma digits2_pos_shift (p q : positive) (k : Z) :
  0 <= k -> Zpos q = Zpos p * 2 ^ k ->
  Zpos (digits2_pos q) = Zpos (digits2_pos p) + k.
Proof.
  intros K E. destruct (digits2_pos_bounds p) as [L U].
  assert (P : 0 < 2 ^ k) by (apply Z.pow_pos_nonneg; lia).
  assert (Zpos (digits2_pos q) <= Zpos (digits2_pos p) + k).
  { apply digits2_pos_le. rewrite E, Z.pow_add_r by lia. nia. }
  assert (Zpos (digits2_pos p) - 1 + k < Zpos (digits2_pos q)).
  { apply digits2_pos_ge. rewrite E, Z.pow_add_r by lia. nia. }
  lia.
Qed.

Lemma shl_align_spec (mx : positive) (ex ex' : Z) :
  snd (shl_align mx ex ex') = Z.min ex ex'
  /\ Zpos (fst (shl_align mx ex ex')) = Zpos mx * 2 ^ (ex - Z.min ex ex').
Proof.
  unfold shl_align. destruct (ex' - ex) as [|j|j] eqn:E; cbn [fst snd].
  - replace (Z.min ex ex') with ex by lia. rewrite Z.sub_diag. cbn. lia.
  - replace (Z.min ex ex') with ex by lia. rewrite Z.sub_diag. cbn. lia.
  - replace (Z.min ex ex') with ex' by lia. rewrite iter_xO.
    replace (ex - ex') with (Zpos j) by lia. lia.
Qed.

(** Rounding a value that fits the 53 bits: the digits are kept. *)
Lemma binary_round_aux_exact (m : positive) (j e : Z) :
  Zpos (digits2_pos m) = 53 -> 0 <= j ->
  emin prec emax <= e + j <= emax - prec ->
  binary_round_aux prec emax false (Zpos m * 2 ^ j) e loc_Exact
  = S754_finite false m (e + j).
Proof.
  intros D J E.
  assert (P : 0 < 2 ^ j) by (apply Z.pow_pos_nonneg; lia).
  destruct (Zpos m * 2 ^ j) as [|q|q] eqn:Q; try lia.
  assert (Dq : Zpos (digits2_pos q) = 53 + j).
  { rewrite (@digits2_pos_shift m q j) by lia. lia. }
  unfold binary_round_aux, shr_fexp.
  cbn [Zdigits2 shr_record_of_loc]. rewrite Dq.
  unfold fexp. unfold emin, prec, emax in *.
  replace (Z.max (53 + j + e - 53) (3 - 1024 - 53) - e) with j by lia.
  assert (S1 : shr {| shr_m := Zpos q; shr_r := false; shr_s := false |} e j
               = ({| shr_m := Zpos m; shr_r := false; shr_s := false |}, e + j)).
  { unfold shr. destruct j as [|j|j]; try lia.
    - f_equal; [|lia]. f_equal. rewrite Z.pow_0_r in Q. lia.
    - rewrite <- Q, shr_exact by lia. reflexivity. }
  rewrite S1. cbn [shr_m loc_of_shr_record round_nearest_even Zdigits2].
  rewrite D.
  replace (Z.max (53 + (e + j) - 53) (3 - 1024 - 53) - (e + j)) with 0 by lia.
  cbn [shr shr_record_of_loc shr_m].
  destruct (Z.leb_spec (e + j) (1024 - 53)); [reflexivity | lia].
Qed.

Lemma binary_round_normal (p q : positive) (k e : Z) :
  Zpos (digits2_pos p) <= 53 -> 0 <= k -> -1022 <= e <= 0 ->
  Zpos q = Zpos p * 2 ^ k ->
  binary_round prec emax false q (e - k) = normal_double p e.
Proof.
  intros D K E0 Q. unfold binary_round.
  pose proof (@digits2_pos_shift p q k K Q) as Dq.
  destruct (shl_align_spec q (e - k) (fexp prec emax (Zpos (digits2_pos q) + (e - k))))
    as [E M].
  destruct (shl_align q (e - k) (fexp prec emax (Zpos (digits2_pos q) + (e - k))))
    as [mz ez]. cbn [fst snd] in E, M.
  rewrite Dq in E, M. unfold fexp, emin, prec, emax in E, M.
  set (d := Zpos (digits2_pos p)) in *.
  assert (1 <= d) by (unfold d; lia).
  set (w := Z.to_pos (Zpos p * 2 ^ (53 - d))).
  assert (Pw : 0 < 2 ^ (53 - d)) by (apply Z.pow_pos_nonneg; lia).
  assert (W : Zpos w = Zpos p * 2 ^ (53 - d)) by (unfold w; rewrite Z2Pos.id; nia).
  assert (Dw : Zpos (digits2_pos w) = 53).
  { rewrite (@digits2_pos_shift p w (53 - d)) by (lia || exact W). fold d. lia. }
  unfold normal_double. fold d. fold w.
  (* the aligned mantissa is [w] shifted by what exceeds 53 bits *)
  set (j := Z.max 0 (d + k - 53)).
  assert (Mz : Zpos mz = Zpos w * 2 ^ j).
  { rewrite M, W, Q, <- !Z.mul_assoc. f_equal.
    rewrite <- !Z.pow_add_r by lia. f_equal. lia. }
  rewrite Mz, binary_round_aux_exact by (unfold emin, prec, emax; lia).
  f_equal. lia.
Qed.

Lemma whole_digits (p : positive) :
  Zpos p < 2 ^ 53 -> Zpos (digits2_pos p) <= 53.
Proof. apply digits2_pos_le. Qed.

Lemma of_units_normal (u : nat) (p : positive) :
  (u <= 1022)%nat -> Zpos p < 2 ^ 53 ->
  of_units u (Zpos p) = normal_double p (- Z.of_nat u).
Proof.
  intros U D. unfold of_units, binary_normalize.
  replace (- Z.of_nat u) with (- Z.of_nat u - 0) at 1 by lia.
  apply (@binary_round_normal p p 0);
    [apply whole_digits; assumption | lia | lia |].
  rewrite Z.pow_0_r. lia.
Qed.

(** Adding two multiples of [2^-u] whose sum is below [2^53] units is
    exact. *)
Lemma SFadd_units (u : nat) (a b : Z) :
  (u <= 1022)%nat -> 0 <= a -> 0 <= b -> a + b < 2 ^ 53 ->
  SFadd prec emax (of_units u a) (of_units u b) = of_units u (a + b).
Proof.
  intros U A B S.
  destruct a as [|pa|pa]; [| |lia].
  { destruct b as [|pb|pb]; [reflexivity | | lia].
    rewrite Z.add_0_l, of_units_normal by lia. reflexivity. }
  destruct b as [|pb|pb]; [| |lia].
  { rewrite Z.add_0_r, of_units_normal by lia. reflexivity. }
  assert (Dc : Zpos (digits2_pos (pa + pb)) <= 53)
    by (apply whole_digits; rewrite Pos2Z.inj_add; lia).
  rewrite <- Pos2Z.inj_add, !of_units_normal
    by (try rewrite Pos2Z.inj_add; lia).
  unfold normal_double at 1 2.
  assert (Da : Zpos (digits2_pos pa) <= 53) by (apply whole_digits; lia).
  assert (Db : Zpos (digits2_pos pb) <= 53) by (apply whole_digits; lia).
  set (da := Zpos (digits2_pos pa)) in *. set (db := Zpos (digits2_pos pb)) in *.
  assert (1 <= da) by (unfold da; lia). assert (1 <= db) by (unfold db; lia).
  set (ma := Z.to_pos (Zpos pa * 2 ^ (53 - da))).
  set (mb := Z.to_pos (Zpos pb * 2 ^ (53 - db))).
  assert (Pa : 0 < 2 ^ (53 - da)) by (apply Z.pow_pos_nonneg; lia).
  assert (Pb : 0 < 2 ^ (53 - db)) by (apply Z.pow_pos_nonneg; lia).
  assert (Ma : Zpos ma = Zpos pa * 2 ^ (53 - da)) by (unfold ma; rewrite Z2Pos.id; nia).
  assert (Mb : Zpos mb = Zpos pb * 2 ^ (53 - db)) by (unfold mb; rewrite Z2Pos.id; nia).
  cbn [SFadd cond_Zopp].
  set (e := - Z.of_nat u) in *.
  set (ez := Z.min (e + da - 53) (e + db - 53)).
  destruct (shl_align_spec ma (e + da - 53) ez) as [_ Sa].
  destruct (shl_align_spec mb (e + db - 53) ez) as [_ Sb].
  rewrite <- Pos2Z.inj_add. cbn [binary_normalize].
  replace ez with (e - (e - ez)) at 3 by lia.
  apply binary_round_normal; [assumption | lia | lia |].
  rewrite Pos2Z.inj_add, Sa, Sb, Ma, Mb, Pos2Z.inj_add, <- !Z.mul_assoc,
    <- !Z.pow_add_r by lia.
  replace (53 - da + (e + da - 53 - Z.min (e + da - 53) ez)) with (e - ez) by lia.
  replace (53 - db + (e + db - 53 - Z.min (e + db - 53) ez)) with (e - ez) by lia.
  lia.
Qed.

Lemma shr_1_m (mrs : shr_record) :
  0 <= shr_m mrs -> shr_m (shr_1 mrs) = shr_m mrs / 2.
Proof.
  destruct mrs as [m r s]. cbn [shr_m]. intros H.
  destruct m as [|p|p]; [reflexivity | | lia].
  destruct p as [p|p|]; cbn [shr_1 shr_m].
  - rewrite (Pos2Z.inj_xI p). apply Z.div_unique with (r := 1); lia.
  - rewrite (Pos2Z.inj_xO p). apply Z.div_unique with (r := 0); lia.
  - reflexivity.
Qed.

Lemma shr_iter_m (k : positive) : forall mrs : shr_record,
  0 <= shr_m mrs ->
  shr_m (iter_pos shr_1 k mrs) = shr_m mrs / 2 ^ Zpos k.
Proof.
  induction k as [k IH | k IH |]; intros mrs H; cbn [iter_pos];
    try assert (P : 0 < 2 ^ Zpos k) by (apply Z.pow_pos_nonneg; lia).
  - assert (H1 : 0 <= shr_m (shr_1 mrs)).
    { rewrite shr_1_m by assumption. apply Z.div_pos; lia. }
    assert (H2 : 0 <= shr_m (iter_pos shr_1 k (shr_1 mrs))).
    { rewrite IH by assumption. apply Z.div_pos; lia. }
    rewrite IH, IH, shr_1_m by assumption.
    rewrite !Z.div_div by lia. f_equal.
    rewrite (Pos2Z.inj_xI k), Z.pow_add_r, pow2_double by lia.
    change (2 ^ 1) with 2. lia.
  - assert (H2 : 0 <= shr_m (iter_pos shr_1 k mrs)).
    { rewrite IH by assumption. apply Z.div_pos; lia. }
    rewrite IH, IH by assumption.
    rewrite !Z.div_div by lia. f_equal.
    rewrite (Pos2Z.inj_xO k), pow2_double by lia. lia.
  - rewrite shr_1_m by assumption. reflexivity.
Qed.

Lemma shr_fexp_m (m e : Z) (l : location) :
  0 <= m ->
  snd (shr_fexp prec emax m e l) = Z.max e (fexp prec emax (Zdigits2 m + e))
  /\ shr_m (fst (shr_fexp prec emax m e l))
     = m / 2 ^ (snd (shr_fexp prec emax m e l) - e).
Proof.
  intros H. unfold shr_fexp.
  assert (R : shr_m (shr_record_of_loc m l) = m) by (now destruct l as [|[| |]]).
  set (t := fexp prec emax (Zdigits2 m + e)).
  unfold shr. destruct (t - e) as [|k|k] eqn:E; cbn [fst snd].
  - split; [lia|]. rewrite R, Z.sub_diag. cbn. now rewrite Z.div_1_r.
  - split; [lia|]. rewrite shr_iter_m by (rewrite R; assumption).
    rewrite R. do 2 f_equal. lia.
  - split; [lia|]. rewrite R, Z.sub_diag. cbn. now rewrite Z.div_1_r.
Qed.

Lemma round_nearest_even_bounds (m : Z) (l : location) :
  m <= round_nearest_even m l <= m + 1.
Proof.
  destruct l as [|[| |]]; cbn [round_nearest_even]; try lia.
  destruct (Z.even m); lia.
Qed.

Lemma Zdigits2_le (m j : Z) : 0 <= m < 2 ^ j -> 0 <= j -> Zdigits2 m <= j.
Proof.
  intros [H U] J. destruct m as [|p|p]; cbn [Zdigits2]; try lia.
  now apply digits2_pos_le.
Qed.

(** What rounding to nearest keeps of a non-negative value below [2^B]:
    a mantissa within one unit of the value, at an exponent of at most
    [B - 52]. *)
Lemma binary_round_aux_bounds (mx ex : Z) (lx : location) (B : Z) :
  0 <= mx < 2 ^ (B - ex) -> ex <= B - 53 -> -1021 <= B <= 1023 ->
  exists m e,
    binary_round_aux prec emax false mx ex lx
    = match m with
      | Z0 => S754_zero false
      | Zpos p => S754_finite false p e
      | Zneg _ => S754_nan
      end
    /\ 0 <= m /\ ex <= e <= B - 52
    /\ (m - 1) * 2 ^ (e - ex) <= mx
    /\ mx + 1 <= (m + 1) * 2 ^ (e - ex).
Proof.
  intros [M0 MB] EX BB.
  unfold binary_round_aux.
  destruct (@shr_fexp_m mx ex lx M0) as [E1 M1].
  destruct (shr_fexp prec emax mx ex lx) as [mrs1 e1]. cbn [fst snd] in E1, M1.
  set (m1 := shr_m mrs1) in *.
  set (r := round_nearest_even m1 (loc_of_shr_record mrs1)).
  pose proof (round_nearest_even_bounds m1 (loc_of_shr_record mrs1)) as R.
  fold r in R.
  assert (D1 : Zdigits2 mx <= B - ex) by (apply Zdigits2_le; lia).
  unfold fexp, emin, prec, emax in E1.
  assert (E1b : ex <= e1 <= B - 53) by lia.
  assert (K1 : 0 < 2 ^ (e1 - ex)) by (apply Z.pow_pos_nonneg; lia).
  assert (M1a : 0 <= m1) by (rewrite M1; apply Z.div_pos; lia).
  assert (M1b : m1 * 2 ^ (e1 - ex) <= mx < (m1 + 1) * 2 ^ (e1 - ex)).
  { rewrite M1. pose proof (Z.mul_div_le mx _ K1).
    pose proof (Z.mul_succ_div_gt mx _ K1). lia. }
  assert (M1c : m1 < 2 ^ (B - e1)).
  { rewrite M1. apply Z.div_lt_upper_bound; [assumption|].
    rewrite <- Z.pow_add_r by lia. replace (e1 - ex + (B - e1)) with (B - ex) by lia.
    assumption. }
  assert (R0 : 0 <= r) by lia.
  destruct (@shr_fexp_m r e1 loc_Exact R0) as [E2 M2].
  destruct (shr_fexp prec emax r e1 loc_Exact) as [mrs2 e2]. cbn [fst snd] in E2, M2.
  set (m2 := shr_m mrs2) in *.
  assert (D2 : Zdigits2 r <= B - e1 + 1).
  { apply Zdigits2_le; [|lia]. split; [assumption|].
    rewrite Z.pow_add_r by lia. change (2 ^ 1) with 2. lia. }
  unfold fexp, emin, prec, emax in E2.
  assert (E2b : e1 <= e2 <= B - 52) by lia.
  assert (K2 : 0 < 2 ^ (e2 - e1)) by (apply Z.pow_pos_nonneg; lia).
  assert (M2a : 0 <= m2) by (rewrite M2; apply Z.div_pos; lia).
  assert (M2b : m2 * 2 ^ (e2 - e1) <= r < (m2 + 1) * 2 ^ (e2 - e1)).
  { rewrite M2. pose proof (Z.mul_div_le r _ K2).
    pose proof (Z.mul_succ_div_gt r _ K2). lia. }
  assert (K : 2 ^ (e2 - ex) = 2 ^ (e1 - ex) * 2 ^ (e2 - e1)).
  { rewrite <- Z.pow_add_r by lia. f_equal. lia. }
  exists m2, e2. split; [|split; [assumption|split; [lia|]]].
  - destruct m2 as [|p|p]; [reflexivity | | lia].
    unfold emax, prec. destruct (Z.leb_spec e2 (1024 - 53)); [reflexivity|lia].
  - rewrite K. clear - K1 K2 M1b M2b R M1a M2a. nia.
Qed.

Lemma of_Z_normal (p : positive) :
  Zpos p < 2 ^ 53 -> of_Z (Zpos p) = normal_double p 0.
Proof. intros H. apply (@of_units_normal 0 p); [lia | assumption]. Qed.

Lemma normal_double_parts (p : positive) (e : Z) :
  Zpos p < 2 ^ 53 ->
  exists m, normal_double p e
            = S754_finite false m (e + Zpos (digits2_pos p) - 53)
            /\ Zpos m = Zpos p * 2 ^ (53 - Zpos (digits2_pos p))
            /\ Zpos (digits2_pos m) = 53.
Proof.
  intros H. pose proof (whole_digits H) as D.
  assert (P : 0 < 2 ^ (53 - Zpos (digits2_pos p))) by (apply Z.pow_pos_nonneg; lia).
  exists (Z.to_pos (Zpos p * 2 ^ (53 - Zpos (digits2_pos p)))).
  assert (W : Zpos (Z.to_pos (Zpos p * 2 ^ (53 - Zpos (digits2_pos p))))
              = Zpos p * 2 ^ (53 - Zpos (digits2_pos p)))
    by (rewrite Z2Pos.id; nia).
  split; [reflexivity | split; [exact W|]].
  rewrite (@digits2_pos_shift p _ (53 - Zpos (digits2_pos p))) by (lia || exact W).
  lia.
Qed.

(** The quotient of two counts [c <= t]: a double within one unit in the
    last place of [c / t]. *)
Lemma SFdiv_counts (pc pt : positive) :
  Zpos pc <= Zpos pt -> Zpos pt < 2 ^ 53 ->
  exists m e,
    SFdiv prec emax (of_Z (Zpos pc)) (of_Z (Zpos pt))
    = match m with
      | Z0 => S754_zero false
      | Zpos p => S754_finite false p e
      | Zneg _ => S754_nan
      end
    /\ 0 <= m /\ e <= -51
    /\ (m - 1) * Zpos pt <= Zpos pc * 2 ^ (- e)
    /\ Zpos pc * 2 ^ (- e) <= (m + 1) * Zpos pt.
Proof.
  intros CT TB.
  assert (CB : Zpos pc < 2 ^ 53) by lia.
  rewrite !of_Z_normal by assumption.
  destruct (@normal_double_parts pc 0 CB) as (m1 & -> & M1 & D1).
  destruct (@normal_double_parts pt 0 TB) as (m2 & -> & M2 & D2).
  set (dc := Zpos (digits2_pos pc)) in *. set (dt := Zpos (digits2_pos pt)) in *.
  assert (1 <= dc) by (unfold dc; lia).
  assert (dc <= dt).
  { apply digits2_pos_le. destruct (digits2_pos_bounds pt) as [_ U]. fold dt in U. lia. }
  assert (dt <= 53) by (apply whole_digits; assumption).
  cbn [SFdiv xorb]. unfold SFdiv_core_binary. cbn [Zdigits2].
  rewrite D1, D2. unfold fexp, emin, prec, emax.
  replace (Z.min (Z.max (53 + (0 + dc - 53) - (53 + (0 + dt - 53)) - 53) (3 - 1024 - 53))
                 (0 + dc - 53 - (0 + dt - 53)))
    with (dc - dt - 53) by lia.
  replace (0 + dc - 53 - (0 + dt - 53) - (dc - dt - 53)) with 53 by lia.
  rewrite Z.shiftl_mul_pow2 by lia.
  destruct (Z.div_eucl (Zpos m1 * 2 ^ 53) (Zpos m2)) as [q r] eqn:DE.
  assert (Q : q = Zpos m1 * 2 ^ 53 / Zpos m2) by (unfold Z.div; now rewrite DE).
  destruct (digits2_pos_bounds m1) as [L1 U1]. destruct (digits2_pos_bounds m2) as [L2 U2].
  rewrite D1 in L1, U1. rewrite D2 in L2, U2.
  change (2 ^ (53 - 1)) with 4503599627370496 in *.
  change (2 ^ 53) with 9007199254740992 in *.
  assert (Q0 : 0 <= q) by (rewrite Q; apply Z.div_pos; lia).
  assert (Q1 : q * Zpos m2 <= Zpos m1 * 9007199254740992)
    by (rewrite Q, Z.mul_comm; apply Z.mul_div_le; lia).
  assert (Q2 : Zpos m1 * 9007199254740992 < (q + 1) * Zpos m2).
  { rewrite Q, (Z.mul_comm _ (Zpos m2)).
    replace (Zpos m1 * 9007199254740992 / Zpos m2 + 1)
      with (Z.succ (Zpos m1 * 9007199254740992 / Zpos m2)) by lia.
    apply Z.mul_succ_div_gt; lia. }
  assert (QB : q < 2 ^ (1 - (dc - dt - 53))).
  { assert (q < 2 ^ 54) by (change (2 ^ 54) with 18014398509481984; nia).
    assert (2 ^ 54 <= 2 ^ (1 - (dc - dt - 53))) by (apply Z.pow_le_mono_r; lia).
    lia. }
  destruct (@binary_round_aux_bounds q (dc - dt - 53) (new_location (Zpos m2) r) 1)
    as (m & e & R & M0 & EB & B1 & B2); [lia | lia | lia |].
  exists m, e. split; [exact R|]. split; [assumption|]. split; [lia|].
  (* back to the counts *)
  set (A := 2 ^ (53 - dc)) in *. set (Bt := 2 ^ (53 - dt)) in *.
  set (K := 2 ^ (e - (dc - dt - 53))) in *.
  assert (PP : 0 < 2 ^ (e + 106 - dc)) by (apply Z.pow_pos_nonneg; lia).
  assert (I1 : K * Bt = 2 ^ (e + 106 - dc)).
  { unfold K, Bt. rewrite <- Z.pow_add_r by lia. f_equal. lia. }
  assert (I2 : A * 9007199254740992 = 2 ^ (e + 106 - dc) * 2 ^ (- e)).
  { unfold A. change 9007199254740992 with (2 ^ 53).
    rewrite <- !Z.pow_add_r by lia. f_equal. lia. }
  assert (KP : 0 < K) by (apply Z.pow_pos_nonneg; lia).
  assert (BP : 0 < Bt) by (apply Z.pow_pos_nonneg; lia).
  set (P := 2 ^ (e + 106 - dc)) in *. set (N := 2 ^ (- e)) in *.
  rewrite M1 in Q1, Q2. rewrite M2 in Q1, Q2.
  split.
  - apply Z.mul_le_mono_pos_r with (p := P); [assumption|].
    assert ((m - 1) * K * (Zpos pt * Bt) <= q * (Zpos pt * Bt))
      by (apply Z.mul_le_mono_nonneg_r; nia).
    nia.
  - apply Z.lt_le_incl, Z.mul_lt_mono_pos_r with (p := P); [assumption|].
    assert ((q + 1) * (Zpos pt * Bt) <= (m + 1) * K * (Zpos pt * Bt))
      by (apply Z.mul_le_mono_nonneg_r; nia).
    nia.
Qed.

Lemma hundred_parts :
  @hundred binary64 = S754_finite false 7036874417766400 (-46).
Proof. reflexivity. Qed.

(** A double of at most about 1, times 100: within one unit in the last
    place of the product. *)
Lemma SFmul_hundred (m : positive) (e : Z) :
  e <= -51 -> Zpos m <= 2 ^ (- e) + 1 ->
  exists m' e',
    SFmul prec emax (S754_finite false m e) (@hundred binary64)
    = match m' with
      | Z0 => S754_zero false
      | Zpos p => S754_finite false p e'
      | Zneg _ => S754_nan
      end
    /\ 0 <= m' /\ e - 46 <= e' <= -45
    /\ (m' - 1) * 2 ^ (e' - e + 46) <= 100 * 2 ^ 46 * Zpos m
    /\ 100 * 2 ^ 46 * Zpos m + 1 <= (m' + 1) * 2 ^ (e' - e + 46).
Proof.
  intros E M. rewrite hundred_parts. cbn [SFmul xorb].
  assert (N : 2 ^ 51 <= 2 ^ (- e)) by (apply Z.pow_le_mono_r; lia).
  assert (B : Zpos (m * 7036874417766400) < 2 ^ (7 - (e + -46))).
  { rewrite Pos2Z.inj_mul.
    replace (7 - (e + -46)) with (53 + - e) by lia.
    rewrite Z.pow_add_r by lia.
    change (2 ^ 53) with 9007199254740992. change (2 ^ 51) with 2251799813685248 in N.
    lia. }
  destruct (@binary_round_aux_bounds (Zpos (m * 7036874417766400)) (e + -46)
              loc_Exact 7) as (m' & e' & R & M0 & EB & B1 & B2); [lia | lia | lia |].
  exists m', e'. split; [exact R|]. split; [assumption|]. split; [lia|].
  replace (e' - (e + -46)) with (e' - e + 46) in B1, B2 by lia.
  rewrite Pos2Z.inj_mul in B1, B2.
  change (100 * 2 ^ 46) with 7036874417766400. lia.
Qed.

Lemma mul_lt_cancel (P X : Z) : 0 < P -> P * X < P -> X <= 0.
Proof. intros HP H. nia. Qed.

Lemma rounding_chain (c T mq mx n N A K : Z) :
  1 <= c <= T -> T < 2 ^ 32 ->
  2 ^ 51 <= N -> 2 ^ 45 <= A -> 0 < K ->
  A * K = 2 ^ 46 * N ->
  (mq - 1) * T <= c * N -> c * N <= (mq + 1) * T ->
  (mx - 1) * K <= 100 * 2 ^ 46 * mq -> 100 * 2 ^ 46 * mq + 1 <= (mx + 1) * K ->
  2 * A * n <= 20 * mx + A -> 20 * mx + A < 2 * A * (n + 1) ->
  Z.abs (2 * n * T - 2000 * c) <= T.
Proof.
  intros C TB NB AB KP AK Q1 Q2 X1 X2 R1 R2.
  change (2 ^ 32) with 4294967296 in *.
  change (2 ^ 51) with 2251799813685248 in *.
  change (2 ^ 45) with 35184372088832 in *.
  change (2 ^ 46) with 70368744177664 in *.
  assert (TP : 0 < T) by lia.
  (* upper *)
  assert (U : (A * K) * (2 * n * T - 2000 * c - T) < A * K).
  { assert (S1 : 2 * A * n * (K * T) <= (20 * mx + A) * (K * T))
      by (apply Z.mul_le_mono_nonneg_r; nia).
    assert (S2 : mx * K * T <= (100 * 70368744177664 * mq + K) * T)
      by (apply Z.mul_le_mono_nonneg_r; lia).
    assert (S3 : mq * T * (100 * 70368744177664) <= (c * N + T) * (100 * 70368744177664))
      by (apply Z.mul_le_mono_nonneg_r; lia).
    assert (S4 : 20 * K * T < A * K).
    { assert (20 * T < A) by lia. nia. }
    nia. }
  assert (L : (A * K) * (2000 * c - T - 2 * n * T) < A * K).
  { assert (S1 : (20 * mx + A) * (K * T) < 2 * A * (n + 1) * (K * T))
      by (apply Z.mul_lt_mono_pos_r; nia).
    assert (S2 : (100 * 70368744177664 * mq + 1 - K) * T <= mx * K * T)
      by (apply Z.mul_le_mono_nonneg_r; lia).
    assert (S3 : (c * N - T) * (100 * 70368744177664) <= mq * T * (100 * 70368744177664))
      by (apply Z.mul_le_mono_nonneg_r; lia).
    nia. }
  assert (AKP : 0 < A * K) by nia.
  apply mul_lt_cancel in U; [|assumption].
  apply mul_lt_cancel in L; [|assumption].
  lia.
Qed.

(** The percentage shown for [c] orders out of [t]: within half a tenth
    of [100 * c / t]. *)
Lemma share_percent_rounded (c t : nat) :
  (1 <= c <= t)%nat -> Z.of_nat t < 2 ^ 32 ->
  exists n : N,
    @toFixed binary64 1
      (@mul binary64 (@div binary64 (@of_nat binary64 c) (@of_nat binary64 t))
                     (@hundred binary64))
    = Decimal false n 1
    /\ Z.abs (2 * Z.of_N n * Z.of_nat t - 2000 * Z.of_nat c) <= Z.of_nat t.
Proof.
  intros CT TB.
  change (@of_nat binary64) with (fun n => of_Z (Z.of_nat n)).
  change (@div binary64) with (SFdiv prec emax).
  change (@mul binary64) with (SFmul prec emax).
  change (@toFixed binary64) with b64_toFixed. cbv beta.
  destruct (Z.of_nat c) as [|pc|pc] eqn:EC; try lia.
  destruct (Z.of_nat t) as [|pt|pt] eqn:ET; try lia.
  assert (CT' : Zpos pc <= Zpos pt) by lia.
  assert (TB' : Zpos pt < 2 ^ 53)
    by (change (2 ^ 32) with 4294967296 in TB;
        change (2 ^ 53) with 9007199254740992; lia).
  destruct (@SFdiv_counts pc pt CT' TB') as (mq & eq & -> & Q0 & QE & Q1 & Q2).
  assert (NB : 2 ^ 51 <= 2 ^ (- eq)) by (apply Z.pow_le_mono_r; lia).
  set (N := 2 ^ (- eq)) in *.
  change (2 ^ 32) with 4294967296 in TB.
  change (2 ^ 51) with 2251799813685248 in NB.
  destruct mq as [|pq|pq]; [exfalso; nia | | lia].
  assert (QM : Zpos pq <= 2 ^ (- eq) + 1) by (fold N; nia).
  destruct (@SFmul_hundred pq eq QE QM) as (mx & ex & -> & X0 & XE & X1 & X2).
  assert (KB : 2 ^ (ex - eq + 46) <= 2 ^ (1 - eq)) by (apply Z.pow_le_mono_r; lia).
  assert (KN : 2 ^ (1 - eq) = 2 * N).
  { unfold N. replace (1 - eq) with (1 + - eq) by lia.
    rewrite Z.pow_add_r by lia. reflexivity. }
  assert (KP : 0 < 2 ^ (ex - eq + 46)) by (apply Z.pow_pos_nonneg; lia).
  assert (AB : 2 ^ 45 <= 2 ^ (- ex)) by (apply Z.pow_le_mono_r; lia).
  assert (AK : 2 ^ (- ex) * 2 ^ (ex - eq + 46) = 2 ^ 46 * N).
  { unfold N. rewrite <- !Z.pow_add_r by lia. f_equal. lia. }
  set (K := 2 ^ (ex - eq + 46)) in *. set (A := 2 ^ (- ex)) in *.
  change (2 ^ 45) with 35184372088832 in AB.
  change (2 ^ 46) with 70368744177664 in *.
  change (100 * 70368744177664) with 7036874417766400 in *.
  assert (Q32 : N <= (Zpos pq + 1) * 4294967296) by nia.
  destruct mx as [|px|px]; [exfalso; lia | | lia].
  unfold b64_toFixed. cbn [finite_parts].
  assert (G : at_least_1e21 (Zpos px) ex = false).
  { unfold at_least_1e21. destruct (Z.leb_spec 0 ex); [lia|].
    fold A. apply Z.leb_gt.
    assert (Zpos px * K <= 7036874417766400 * (N + 1) + K) by nia.
    assert (10 ^ 21 * A * K = 10 ^ 21 * (70368744177664 * N)) by (rewrite <- AK; ring).
    change (10 ^ 21) with 1000000000000000000000 in *.
    nia. }
  rewrite G. eexists. split; [reflexivity|].
  unfold round_scaled. destruct (Z.leb_spec 0 ex); [lia|].
  change (10 ^ Z.of_nat 1) with 10. fold A.
  replace (2 ^ (1 - ex)) with (2 * A)
    by (unfold A; replace (1 - ex) with (1 + - ex) by lia;
        rewrite Z.pow_add_r by lia; reflexivity).
  assert (AP : 0 < 2 * A) by lia.
  pose proof (Z.mul_div_le (2 * Zpos px * 10 + A) (2 * A) AP) as R1.
  pose proof (Z.mul_succ_div_gt (2 * Zpos px * 10 + A) (2 * A) AP) as R2.
  assert (R0 : 0 <= (2 * Zpos px * 10 + A) / (2 * A)) by (apply Z.div_pos; lia).
  rewrite Z2N.id by assumption.
  set (n := (2 * Zpos px * 10 + A) / (2 * A)) in *.
  apply (@rounding_chain (Zpos pc) (Zpos pt) (Zpos pq) (Zpos px) n N A K);
    try assumption; try lia.
Qed.

(* Sums of doubles that may round *)

Lemma units_nonneg (u : nat) (x : b64) : 0 <= units u x.
Proof.
  destruct x as [s|s| |[|] m e]; cbn [units]; try lia.
  destruct (Z.leb_spec 0 (e + Z.of_nat u)).
  - assert (0 <= 2 ^ (e + Z.of_nat u)) by (apply Z.pow_nonneg; lia). nia.
  - apply Z.div_pos; [lia|]. apply Z.pow_pos_nonneg; lia.
Qed.

(** Rounding a mantissa that is already at its exponent changes
    nothing. *)
Lemma binary_round_aux_canonical (m : positive) (e : Z) :
  fexp prec emax (Zpos (digits2_pos m) + e) = e -> e <= emax - prec ->
  binary_round_aux prec emax false (Zpos m) e loc_Exact = S754_finite false m e.
Proof.
  intros C E. unfold binary_round_aux, shr_fexp.
  cbn [Zdigits2 shr_record_of_loc]. rewrite C, Z.sub_diag.
  cbn [shr shr_m loc_of_shr_record round_nearest_even Zdigits2].
  rewrite C, Z.sub_diag. cbn [shr shr_m].
  destruct (Z.leb_spec e (emax - prec)); [reflexivity | lia].
Qed.

(** Rounding a positive value [M * 2^ez] below [2^1023]: a double within
    [2^-51] of it, relatively.  Values are in units of [2^-1074]. *)
Lemma binary_round_error (M : positive) (ez : Z) :
  -1074 <= ez -> Zpos M * 2 ^ (ez + 1074) < safe_range ->
  exists m e,
    binary_round prec emax false M ez = S754_finite false m e
    /\ -1074 <= e
    /\ 2 ^ 51 * Z.abs (Zpos m * 2 ^ (e + 1074) - Zpos M * 2 ^ (ez + 1074))
       <= Zpos M * 2 ^ (ez + 1074).
Proof.
  intros EZ R. unfold binary_round.
  set (d := Zpos (digits2_pos M)).
  destruct (digits2_pos_bounds M) as [L U]. fold d in L, U.
  assert (D1 : 1 <= d) by (unfold d; lia).
  assert (DB : d + ez <= 1023).
  { assert (H : d - 1 + (ez + 1074) < 2097).
    { apply (Z.pow_lt_mono_r_iff 2); [lia | lia |].
      rewrite Z.pow_add_r by lia. fold safe_range.
      assert (0 < 2 ^ (ez + 1074)) by (apply Z.pow_pos_nonneg; lia). nia. }
    lia. }
  clear R.
  destruct (shl_align_spec M ez (fexp prec emax (d + ez))) as [E1 M1].
  destruct (shl_align M ez (fexp prec emax (d + ez))) as [mz ez'].
  cbn [fst snd] in E1, M1.
  set (t := fexp prec emax (d + ez)) in *.
  assert (T : t = Z.max (d + ez - 53) (-1074)) by reflexivity.
  destruct (Z.le_gt_cases t ez) as [C|C].
  - (* the value fits: nothing is lost *)
    subst ez'. replace (Z.min ez t) with t in * by lia.
    assert (Dz : Zpos (digits2_pos mz) = d + (ez - t)).
    { apply digits2_pos_shift; [lia | exact M1]. }
    rewrite binary_round_aux_canonical.
    + exists mz, t. split; [reflexivity|]. split; [lia|].
      rewrite M1, <- Z.mul_assoc, <- Z.pow_add_r by lia.
      replace (ez - t + (t + 1074)) with (ez + 1074) by lia.
      rewrite Z.sub_diag. cbn [Z.abs]. rewrite Z.mul_0_r.
      assert (0 < 2 ^ (ez + 1074)) by (apply Z.pow_pos_nonneg; lia). nia.
    + rewrite Dz. replace (d + (ez - t) + t) with (d + ez) by lia. reflexivity.
    + unfold emax, prec. lia.
  - (* more than 53 digits: rounded *)
    subst ez'. replace (Z.min ez t) with ez in * by lia.
    rewrite Z.sub_diag, Z.pow_0_r, Z.mul_1_r in M1. injection M1 as ->.
    destruct (@binary_round_aux_bounds (Zpos M) ez loc_Exact (d + ez))
      as (m & e & Hr & M0 & EB & B1 & B2).
    { replace (d + ez - ez) with d by lia. lia. }
    { lia. }
    { lia. }
    assert (KP : 0 < 2 ^ (e - ez)) by (apply Z.pow_pos_nonneg; lia).
    assert (KB : 2 ^ (e - ez) <= 2 ^ (d - 52)) by (apply Z.pow_le_mono_r; lia).
    assert (DK : 2 ^ (d - 1) = 2 ^ 51 * 2 ^ (d - 52)).
    { rewrite <- Z.pow_add_r by lia. f_equal. lia. }
    assert (DP : 0 < 2 ^ (d - 52)) by (apply Z.pow_pos_nonneg; lia).
    set (K := 2 ^ (e - ez)) in *. set (K0 := 2 ^ (d - 52)) in *.
    change (2 ^ 51) with 2251799813685248 in *.
    assert (M1 : 1 <= m) by nia.
    destruct m as [|m|m]; try lia.
    exists m, e. split; [exact Hr|]. split; [lia|].
    assert (PS : 0 < 2 ^ (ez + 1074)) by (apply Z.pow_pos_nonneg; lia).
    replace (2 ^ (e + 1074)) with (K * 2 ^ (ez + 1074))
      by (unfold K; rewrite <- Z.pow_add_r by lia; f_equal; lia).
    set (P := 2 ^ (ez + 1074)) in *.
    replace (Zpos m * (K * P) - Zpos M * P) with ((Zpos m * K - Zpos M) * P) by ring.
    rewrite Z.abs_mul, (Z.abs_eq P) by lia.
    assert (2251799813685248 * Z.abs (Zpos m * K - Zpos M) <= Zpos M) by lia.
    nia.
Qed.

Lemma units_finite (m : positive) (e : Z) :
  -1074 <= e -> units 1074 (S754_finite false m e) = Zpos m * 2 ^ (e + 1074).
Proof.
  intros E. cbn [units]. change (Z.of_nat 1074) with 1074.
  destruct (Z.leb_spec 0 (e + 1074)); [reflexivity | lia].
Qed.

Lemma units_zero (s : bool) : units 1074 (S754_zero s) = 0.
Proof. reflexivity. Qed.

(** Adding two doubles that are zero or more: the result is within
    [2^-51], relatively, of the sum. *)
Lemma SFadd_error (x y : b64) :
  finite_nonneg x = true -> finite_nonneg y = true ->
  units 1074 x + units 1074 y < safe_range ->
  finite_nonneg (SFadd prec emax x y) = true
  /\ 2 ^ 51 * Z.abs (units 1074 (SFadd prec emax x y)
                     - (units 1074 x + units 1074 y))
     <= units 1074 x + units 1074 y.
Proof.
  intros Mx My R.
  destruct x as [sx|sx| |[|] mx ex]; try discriminate;
    destruct y as [sy|sy| |[|] my ey]; try discriminate.
  - (* 0 + 0 *)
    assert (Z : exists s, SFadd prec emax (S754_zero sx) (S754_zero sy) = S754_zero s)
      by (destruct sx, sy; eexists; reflexivity).
    destruct Z as [s ->]. rewrite !units_zero. cbn. split; [reflexivity|lia].
  - (* 0 + y *)
    cbn [SFadd]. rewrite units_zero, Z.add_0_l, Z.sub_diag.
    split; [assumption|]. cbn [Z.abs]. rewrite Z.mul_0_r.
    cbn [finite_nonneg] in My. apply Z.leb_le in My. rewrite units_finite by assumption.
    assert (0 < 2 ^ (ey + 1074)) by (apply Z.pow_pos_nonneg; lia). nia.
  - (* x + 0 *)
    cbn [SFadd]. rewrite units_zero, Z.add_0_r, Z.sub_diag.
    split; [assumption|]. cbn [Z.abs]. rewrite Z.mul_0_r.
    cbn [finite_nonneg] in Mx. apply Z.leb_le in Mx. rewrite units_finite by assumption.
    assert (0 < 2 ^ (ex + 1074)) by (apply Z.pow_pos_nonneg; lia). nia.
  - cbn [finite_nonneg] in Mx, My. apply Z.leb_le in Mx. apply Z.leb_le in My.
    rewrite !units_finite in * by assumption.
    cbn [SFadd cond_Zopp].
    set (ez := Z.min ex ey).
    destruct (shl_align_spec mx ex ez) as [_ Sx].
    destruct (shl_align_spec my ey ez) as [_ Sy].
    replace (Z.min ex ez) with ez in Sx by lia.
    replace (Z.min ey ez) with ez in Sy by lia.
    rewrite <- Pos2Z.inj_add. cbn [binary_normalize].
    set (M := (fst (shl_align mx ex ez) + fst (shl_align my ey ez))%positive).
    assert (V : Zpos M * 2 ^ (ez + 1074)
                = Zpos mx * 2 ^ (ex + 1074) + Zpos my * 2 ^ (ey + 1074)).
    { unfold M. rewrite Pos2Z.inj_add, Sx, Sy, Z.mul_add_distr_r.
      rewrite <- !Z.mul_assoc, <- !Z.pow_add_r by lia.
      replace (ex - ez + (ez + 1074)) with (ex + 1074) by lia.
      replace (ey - ez + (ez + 1074)) with (ey + 1074) by lia. reflexivity. }
    destruct (@binary_round_error M ez) as (m & e & -> & E & B);
      [lia | rewrite V; exact R |].
    cbn [finite_nonneg]. split; [now apply Z.leb_le|].
    rewrite units_finite by assumption. rewrite <- V. exact B.
Qed.

(** Adding a list of such doubles to an accumulator that is within
    [2k * 2^-51] of the exact amount [A]: the result is within
    [2(k + n) * 2^-51] of the exact total. *)
Lemma fold_add_error (l : list b64) : forall (F : b64) (A k : Z),
  finite_nonneg F = true -> forallb finite_nonneg l = true ->
  0 <= A -> 0 <= k ->
  2 ^ 51 * Z.abs (units 1074 F - A) <= 2 * k * A ->
  2 * (k + Z.of_nat (List.length l)) <= 2 ^ 51 ->
  2 * (A + fold_right Z.add 0 (map (units 1074) l)) < safe_range ->
  finite_nonneg (fold_left (SFadd prec emax) l F) = true
  /\ 2 ^ 51 * Z.abs (units 1074 (fold_left (SFadd prec emax) l F)
                     - (A + fold_right Z.add 0 (map (units 1074) l)))
     <= 2 * (k + Z.of_nat (List.length l))
        * (A + fold_right Z.add 0 (map (units 1074) l)).
Proof.
  induction l as [|x l IH]; intros F A k MF Ml A0 K0 HF HK HR.
  - cbn [fold_left map fold_right List.length] in *.
    change (Z.of_nat 0) with 0 in *. rewrite !Z.add_0_r in *.
    split; [assumption|]. exact HF.
  - cbn [fold_left map fold_right List.length forallb] in *.
    apply andb_true_iff in Ml as [Mx Ml].
    rewrite Nat2Z.inj_succ in *.
    set (S := fold_right Z.add 0 (map (units 1074) l)) in *.
    assert (S0 : 0 <= S).
    { unfold S. clear. induction l as [|y l IH]; cbn [map fold_right]; [lia|].
      pose proof (units_nonneg 1074 y). lia. }
    pose proof (units_nonneg 1074 x) as X0.
    pose proof (units_nonneg 1074 F) as F0.
    change (2 ^ 51) with 2251799813685248 in *.
    assert (KA : 0 <= k * A) by nia.
    assert (KA' : 2 * (k * A) <= 2251799813685248 * A) by nia.
    assert (FA : units 1074 F <= 2 * A) by lia.
    destruct (@SFadd_error F x MF Mx) as [MF' HF']; [lia|].
    change (2 ^ 51) with 2251799813685248 in HF'.
    assert (KX : 0 <= k * units 1074 x) by nia.
    destruct (IH (SFadd prec emax F x) (A + units 1074 x) (k + 1)) as [MR HRes];
      try assumption; try lia.
    split; [assumption|].
    replace (A + units 1074 x + S) with (A + (units 1074 x + S)) in HRes by lia.
    replace (k + 1 + Z.of_nat (List.length l))
      with (k + Z.succ (Z.of_nat (List.length l))) in HRes by lia.
    exact HRes.
Qed.

End DoubleFacts.


(* ----------------------------------------------------------------- *)
(** *** Revenue conservation *)


Section GroupRevenue.
Context {NUM : Number}.
Implicit Types data : list (SalesRecord NUM).

Lemma totalRevenue_sum data : totalRevenue data = sum (map (@money NUM) data).
Proof.
  unfold totalRevenue, reduce, sum. generalize (@zero NUM).
  induction data as [|r data IH]; intros a; simpl; auto.
Qed.

Lemma coffee_upd_revenue (l : list (SalesRecord NUM)) : forall v,
  cs_revenue (fold_left (fun v r => coffee_upd r v) l v)
  = fold_left add (map (@money NUM) l) (cs_revenue v).
Proof. induction l as [|r l IH]; intros v; simpl; auto. Qed.

Lemma payment_upd_revenue (l : list (SalesRecord NUM)) : forall v,
  ps_revenue (fold_left (fun v r => payment_upd r v) l v)
  = fold_left add (map (@money NUM) l) (ps_revenue v).
Proof. induction l as [|r l IH]; intros v; simpl; auto. Qed.

Lemma products_entry_revenue data :
  Forall (fun p => cc_revenue p
                   = sum (amounts_of (@coffee_name NUM) (cc_name p) data))
         (coffeeChartData data).
Proof.
  unfold coffeeChartData. apply Forall_map, Forall_forall.
  intros [k s] Hin. simpl.
  apply (Permutation_in _ (entries_perm _)) in Hin.
  rewrite coffeeStats_group in Hin.
  apply group_entry in Hin as (r & l & E & ->).
  unfold amounts_of. rewrite E, coffee_upd_revenue. reflexivity.
Qed.

Lemma payments_entry_revenue data :
  Forall (fun p => pc_revenue p
                   = sum (amounts_of (@cash_type NUM) (pc_method p) data))
         (paymentChartData data).
Proof.
  unfold paymentChartData. apply Forall_map, Forall_forall.
  intros [k s] Hin. simpl.
  apply (Permutation_in _ (entries_perm _)) in Hin.
  rewrite paymentStats_group in Hin.
  apply group_entry in Hin as (r & l & E & ->).
  unfold amounts_of. rewrite E, payment_upd_revenue. reflexivity.
Qed.

End GroupRevenue.

Section SumFacts.
Context {NUM : Number}.
Hypothesis add_assoc : forall a b c : num, add a (add b c) = add (add a b) c.
Hypothesis add_comm : forall a b : num, add a b = add b a.
Hypothesis add_zero : forall a : num, add zero a = a.

Lemma sum_fold_right (l : list num) : sum l = fold_right add zero l.
Proof.
  unfold sum. rewrite fold_left_msum with (mzero := zero); auto.
Qed.

Lemma totalRevenue_fold_right (data : list (SalesRecord NUM)) :
  totalRevenue data = fold_right add zero (map (@money NUM) data).
Proof. rewrite totalRevenue_sum. apply sum_fold_right. Qed.

Lemma products_revenue (data : list (SalesRecord NUM)) :
  plain_keys (@coffee_name NUM) data = true ->
  sum (map (@cc_revenue NUM) (coffeeChartData data)) = totalRevenue data.
Proof.
  intros H. rewrite sum_fold_right, totalRevenue_fold_right.
  unfold coffeeChartData. rewrite coffeeStats_group, map_map.
  rewrite <- total_entries_group
    with (key := @coffee_name NUM) (init := coffee_init) (upd := coffee_upd)
         (meas := @cs_revenue NUM); auto.
  unfold total. f_equal. apply map_ext. now intros [k s].
Qed.

Lemma payments_revenue (data : list (SalesRecord NUM)) :
  plain_keys (@cash_type NUM) data = true ->
  sum (map (@pc_revenue NUM) (paymentChartData data)) = totalRevenue data.
Proof.
  intros H. rewrite sum_fold_right, totalRevenue_fold_right.
  unfold paymentChartData. rewrite paymentStats_group, map_map.
  rewrite <- total_entries_group
    with (key := @cash_type NUM) (init := payment_init) (upd := payment_upd)
         (meas := @ps_revenue NUM); auto.
  unfold total. f_equal. apply map_ext. now intros [k s].
Qed.

End SumFacts.

(** On rationals the three sums agree for every input that has no
    inherited name among its keys. *)
Lemma revenue_conservation_rationals (data : list (SalesRecord qc)) :
  plain_keys (@coffee_name qc) data = true ->
  plain_keys (@cash_type qc) data = true ->
  totalRevenue data = sum (map (@cc_revenue qc) (coffeeChartData data))
  /\ totalRevenue data = sum (map (@pc_revenue qc) (paymentChartData data)).
Proof.
  intros Hc Hp. split; symmetry.
  - apply products_revenue; auto.
    + exact Qcplus_assoc.
    + exact Qcplus_comm.
    + exact Qcplus_0_l.
  - apply payments_revenue; auto.
    + exact Qcplus_assoc.
    + exact Qcplus_comm.
    + exact Qcplus_0_l.
Qed.


(* ----------------------------------------------------------------- *)
(** *** Order conservation *)

Section OrderFacts.
Context {NUM : Number}.
Implicit Types data : list (SalesRecord NUM).

Lemma ones_length (A : Type) (l : list A) :
  fold_right Nat.add 0 (map (fun _ => 1) l) = List.length l.
Proof. induction l; simpl; auto. Qed.

Lemma products_orders data :
  plain_keys (@coffee_name NUM) data = true ->
  list_sum (map (@cc_count NUM) (coffeeChartData data)) = totalOrders data.
Proof.
  intros H. unfold coffeeChartData, totalOrders.
  rewrite coffeeStats_group, map_map, <- ones_length.
  rewrite <- total_entries_group
    with (key := @coffee_name NUM) (init := coffee_init) (upd := coffee_upd)
         (meas := @cs_count NUM); auto; try (intros; simpl; lia).
  unfold total, list_sum. f_equal. apply map_ext. now intros [k s].
Qed.

Lemma payments_orders data :
  plain_keys (@cash_type NUM) data = true ->
  list_sum (map (@pc_count NUM) (paymentChartData data)) = totalOrders data.
Proof.
  intros H. unfold paymentChartData, totalOrders.
  rewrite paymentStats_group, map_map, <- ones_length.
  rewrite <- total_entries_group
    with (key := @cash_type NUM) (init := payment_init) (upd := payment_upd)
         (meas := @ps_count NUM); auto; try (intros; simpl; lia).
  unfold total, list_sum. f_equal. apply map_ext. now intros [k s].
Qed.

(** Where no product name or payment method is the name of an inherited
    property, the three groupings count every order once. *)
Lemma order_conservation_plain_keys data :
  forallb (@input_contract NUM) data = true ->
  plain_keys (@coffee_name NUM) data = true ->
  plain_keys (@cash_type NUM) data = true ->
  totalOrders data = list_sum (map (@cc_count NUM) (coffeeChartData data))
  /\ totalOrders data = list_sum (map (@pc_count NUM) (paymentChartData data))
  /\ totalOrders data = list_sum (map (@hc_orders NUM) (hourlyChartData data)).
Proof.
  intros Hv Hp Hm. repeat split; symmetry.
  - now apply products_orders.
  - now apply payments_orders.
  - now apply hourly_orders.
Qed.

End OrderFacts.

(** C3 fails on the code: a record whose product is named "constructor"
    satisfies the input contract, yet [!acc["constructor"]] is false on the
    fresh accumulator (it reads the inherited function), no own entry is
    made, and the products entries count one order fewer than there are. *)
Theorem order_conservation_breaks_on_inherited_name :
  forallb (@input_contract b64) inherited_names = true
  /\ totalOrders inherited_names = 2
  /\ list_sum (map (@cc_count b64) (coffeeChartData inherited_names)) = 1
  /\ map (@cc_name b64) (coffeeChartData inherited_names) = ["Latte"].
Proof. vm_compute. repeat split. Qed.

(* ----------------------------------------------------------------- *)
(** *** Groups are non-empty and keys do not repeat *)

Section Tally.

Lemma Forall_own_set (V : Type) (Q : PropertyKey * V -> Prop) o k v :
  Forall Q o -> Q (k, v) -> Forall Q (own_set k v o).
Proof.
  intros H Hq. induction o as [|[k0 v0] o IH]; simpl.
  - constructor; auto.
  - inversion H; subst. destruct (String.eqb k k0); constructor; auto.
Qed.

Lemma own_set_keys_NoDup (V : Type) (o : object V) k v :
  NoDup (keys o) -> NoDup (keys (own_set k v o)).
Proof.
  intros H. rewrite keys_own_set. destruct (own_get k o) eqn:E; auto.
  apply NoDup_app; auto.
  - repeat constructor. simpl. tauto.
  - intros x Hx [<-|[]]. now apply own_get_None_keys in E.
Qed.

Lemma tally_keys_NoDup acc k : NoDup (keys acc) -> NoDup (keys (tally acc k)).
Proof.
  intros H. unfold tally, set. destruct (String.eqb k "__proto__"); auto.
  now apply own_set_keys_NoDup.
Qed.

Lemma tally_counted acc k :
  inherited k = false -> Forall counted acc -> Forall counted (tally acc k).
Proof.
  intros I H. unfold tally, set.
  destruct (String.eqb_spec k "__proto__") as [->|_]; [discriminate|].
  apply Forall_own_set; auto. unfold get, counted. simpl.
  destruct (own_get k acc) as [f|] eqn:E.
  - apply own_get_In in E. rewrite Forall_forall in H.
    destruct (H _ E) as (n & Hn & Hle). simpl in Hn. subst f.
    exists (n + 1). split; auto. lia.
  - rewrite I. exists 1. auto.
Qed.

Lemma bucket_of_labels f :
  In (bucket_of f) ["1 order"; "2-3 orders"; "4-5 orders"; "6+ orders"].
Proof.
  destruct f as [n|]; [|simpl; tauto].
  do 6 (destruct n as [|n]; [simpl; tauto|]). simpl. tauto.
Qed.

Lemma bucket_of_not_inherited f : inherited (bucket_of f) = false.
Proof.
  destruct (bucket_of_labels f) as [<-|[<-|[<-|[<-|[]]]]]; reflexivity.
Qed.

Lemma fold_tally_invariant (A : Type) (key : A -> PropertyKey) (l : list A) :
  (forall x, In x l -> inherited (key x) = false) ->
  forall acc, Forall counted acc /\ NoDup (keys acc) ->
  Forall counted (fold_left (fun acc x => tally acc (key x)) l acc)
  /\ NoDup (keys (fold_left (fun acc x => tally acc (key x)) l acc)).
Proof.
  induction l as [|x l IH]; intros Hk acc [H1 H2]; simpl; auto.
  apply IH.
  - intros y Hy. apply Hk. now right.
  - split.
    + apply tally_counted; auto. apply Hk. now left.
    + now apply tally_keys_NoDup.
Qed.

End Tally.

Lemma hour_labels_NoDup :
  NoDup (map (fun h => (decimal h ++ ":00")%string) (seq 0 24)).
Proof.
  replace (map (fun h => (decimal h ++ ":00")%string) (seq 0 24))
    with (nodup string_dec (map (fun h => (decimal h ++ ":00")%string) (seq 0 24)))
    by (vm_compute; reflexivity).
  apply NoDup_nodup.
Qed.

Lemma NoDup_map_filter (A B : Type) (g : A -> B) (p : A -> bool) (l : list A) :
  NoDup (map g l) -> NoDup (map g (filter p l)).
Proof.
  induction l as [|x l IH]; simpl; intros H; auto.
  inversion H; subst. destruct (p x); simpl; auto.
  constructor; auto. intros Hin. apply H2.
  apply in_map_iff in Hin as (y & Hy & Hin). apply filter_In in Hin as [Hin _].
  apply in_map_iff. eauto.
Qed.

Section NonEmptyGroups.
Context {NUM : Number}.
Implicit Types data : list (SalesRecord NUM).

Lemma entries_keys_NoDup (V : Type) (o : object V) :
  NoDup (keys o) -> NoDup (map fst (entries o)).
Proof.
  intros H. eapply Permutation_NoDup; [|exact H].
  symmetry. apply Permutation_map, entries_perm.
Qed.

Lemma entries_Forall (V : Type) (Q : PropertyKey * V -> Prop) (o : object V) :
  Forall Q o -> Forall Q (entries o).
Proof.
  intros H. eapply Permutation_Forall; [|exact H].
  symmetry. apply entries_perm.
Qed.

Lemma products_nonempty_distinct data :
  Forall (fun p => 1 <= cc_count p) (coffeeChartData data)
  /\ NoDup (map (@cc_name NUM) (coffeeChartData data)).
Proof.
  unfold coffeeChartData. rewrite coffeeStats_group. unfold group. split.
  - apply Forall_map.
    eapply Forall_impl;
      [| apply entries_Forall,
           (group_counts_positive (@coffee_name NUM) coffee_init coffee_upd
              (@cs_count NUM)); auto; constructor].
    now intros [k s].
  - rewrite map_map. rewrite (map_ext _ fst) by (now intros [k s]).
    apply entries_keys_NoDup, group_keys_NoDup. constructor.
Qed.

Lemma payments_nonempty_distinct data :
  Forall (fun p => 1 <= pc_count p) (paymentChartData data)
  /\ NoDup (map (@pc_method NUM) (paymentChartData data)).
Proof.
  unfold paymentChartData. rewrite paymentStats_group. unfold group. split.
  - apply Forall_map.
    eapply Forall_impl;
      [| apply entries_Forall,
           (group_counts_positive (@cash_type NUM) payment_init payment_upd
              (@ps_count NUM)); auto; constructor].
    now intros [k s].
  - rewrite map_map. rewrite (map_ext _ fst) by (now intros [k s]).
    apply entries_keys_NoDup, group_keys_NoDup. constructor.
Qed.

Lemma hourly_nonempty_distinct data :
  Forall (fun p => 1 <= hc_orders p) (hourlyChartData data)
  /\ NoDup (map (@hc_hour NUM) (hourlyChartData data)).
Proof.
  split.
  - unfold hourlyChartData. apply Forall_forall. intros p Hp.
    apply filter_In in Hp as [_ Hp]. apply Nat.ltb_lt in Hp. lia.
  - rewrite hourlyChartData_hours, map_map.
    rewrite (map_ext _ (fun h => (decimal h ++ ":00")%string)) by reflexivity.
    apply NoDup_map_filter, hour_labels_NoDup.
Qed.

Lemma frequency_nonempty_distinct data :
  Forall (fun b => exists n, fb_customers b = Num n /\ 1 <= n)
         (customerFrequencyData data)
  /\ NoDup (map fb_bucket (customerFrequencyData data)).
Proof.
  unfold customerFrequencyData, frequencyDistribution, reduce.
  destruct (fold_tally_invariant bucket_of (values (customerFrequency data))
              (fun f _ => bucket_of_not_inherited f) (acc := []))
    as [H1 H2]; [split; constructor|].
  split.
  - apply Forall_map. eapply Forall_impl; [|apply entries_Forall, H1].
    now intros [k f].
  - rewrite map_map. rewrite (map_ext _ fst) by (now intros [k f]).
    now apply entries_keys_NoDup.
Qed.

End NonEmptyGroups.

(** C10: every entry of products, payments and hourly counts at least one
    order, every frequency bucket at least one customer, and within each of
    the four sequences no key occurs twice. *)
Theorem groups_nonempty_keys_distinct (NUM : Number) (data : list (SalesRecord NUM)) :
  (Forall (fun p => 1 <= cc_count p) (coffeeChartData data)
   /\ NoDup (map (@cc_name NUM) (coffeeChartData data)))
  /\ (Forall (fun p => 1 <= pc_count p) (paymentChartData data)
      /\ NoDup (map (@pc_method NUM) (paymentChartData data)))
  /\ (Forall (fun p => 1 <= hc_orders p) (hourlyChartData data)
      /\ NoDup (map (@hc_hour NUM) (hourlyChartData data)))
  /\ (Forall (fun b => exists n, fb_customers b = Num n /\ 1 <= n)
             (customerFrequencyData data)
      /\ NoDup (map fb_bucket (customerFrequencyData data))).
Proof.
  repeat apply conj.
  - apply products_nonempty_distinct.
  - apply products_nonempty_distinct.
  - apply payments_nonempty_distinct.
  - apply payments_nonempty_distinct.
  - apply hourly_nonempty_distinct.
  - apply hourly_nonempty_distinct.
  - apply frequency_nonempty_distinct.
  - apply frequency_nonempty_distinct.
Qed.

(* ----------------------------------------------------------------- *)
(** *** The order of the products and payments entries *)

Section EntriesOrder.
Variable V : Type.
Implicit Types (o l : object V) (kv : PropertyKey * V).

Lemma array_index_key k n :
  array_index k = Some n -> NilZero.string_of_uint (N.to_uint n) = k.
Proof.
  unfold array_index. destruct (NilZero.uint_of_string k) as [d|]; [|discriminate].
  destruct (_ && _) eqn:E; [|discriminate].
  intros [= <-]. apply andb_true_iff in E as [E _]. now apply String.eqb_eq.
Qed.

Lemma index_of_inj kv kv' :
  is_index kv = true -> is_index kv' = true ->
  index_of kv = index_of kv' -> fst kv = fst kv'.
Proof.
  unfold is_index, index_of.
  destruct (array_index (fst kv)) as [n|] eqn:E; [|discriminate].
  destruct (array_index (fst kv')) as [n'|] eqn:E'; [|discriminate].
  intros _ _ ->. apply array_index_key in E, E'. congruence.
Qed.

Lemma insert_index_sorted kv l :
  StronglySorted (fun a b => (index_of a <= index_of b)%N) l ->
  StronglySorted (fun a b => (index_of a <= index_of b)%N) (insert_index kv l).
Proof.
  induction 1 as [|kv' l Hs IH Hall]; simpl.
  - repeat constructor.
  - destruct (N.ltb_spec (index_of kv) (index_of kv')).
    + constructor; [constructor; auto|].
      constructor; [lia|].
      eapply Forall_impl; [|exact Hall]. simpl. intros; lia.
    + constructor; auto.
      eapply Permutation_Forall; [symmetry; apply insert_index_perm|].
      constructor; auto.
Qed.

Lemma sort_index_sorted l :
  StronglySorted (fun a b => (index_of a <= index_of b)%N) (sort_index l).
Proof.
  induction l as [|kv l IH]; simpl; [constructor|].
  now apply insert_index_sorted.
Qed.

Lemma sorted_strict l :
  Forall (fun kv => is_index kv = true) l -> NoDup (map fst l) ->
  StronglySorted (fun a b => (index_of a <= index_of b)%N) l ->
  StronglySorted (fun a b => (index_of_key (fst a) < index_of_key (fst b))%N) l.
Proof.
  intros Hidx Hnd Hs. induction Hs as [|kv l Hs IH Hall]; [constructor|].
  inversion Hidx; subst. inversion Hnd; subst.
  constructor; auto.
  apply Forall_forall. intros kv' Hin.
  rewrite Forall_forall in Hall. specialize (Hall _ Hin).
  assert (Hi' : is_index kv' = true)
    by (rewrite Forall_forall in H2; auto).
  change (index_of kv < index_of kv')%N.
  destruct (N.eq_dec (index_of kv) (index_of kv')) as [E|]; [|lia].
  apply index_of_inj in E; auto.
  exfalso. apply H3. rewrite E. now apply in_map.
Qed.

Lemma StronglySorted_map (A B : Type) (f : A -> B) (r : B -> B -> Prop) (l : list A) :
  StronglySorted (fun a b => r (f a) (f b)) l -> StronglySorted r (map f l).
Proof.
  induction 1 as [|x l Hs IH Hall]; simpl; constructor; auto.
  apply Forall_map. exact Hall.
Qed.

Lemma map_fst_filter (p : PropertyKey -> bool) o :
  map fst (filter (fun kv => p (fst kv)) o) = filter p (keys o).
Proof.
  unfold keys. induction o as [|[k v] o IH]; simpl; auto.
  destruct (p k); simpl; now rewrite IH.
Qed.

Lemma NoDup_filter (A : Type) (p : A -> bool) (l : list A) :
  NoDup l -> NoDup (filter p l).
Proof.
  intros H. rewrite <- (map_id (filter p l)).
  apply NoDup_map_filter. now rewrite map_id.
Qed.

Lemma entries_key_order o seen :
  keys o = first_seen seen -> NoDup (keys o) ->
  entries_order seen (map fst (entries o)).
Proof.
  intros Hk Hnd. unfold entries.
  exists (map fst (sort_index (filter (@is_index V) o))).
  rewrite map_app. repeat split.
  - f_equal. rewrite <- Hk.
    apply (map_fst_filter (fun k => negb (is_index_key k))).
  - rewrite <- Hk, <- (map_fst_filter is_index_key).
    apply Permutation_map, sort_index_perm.
  - apply StronglySorted_map, sorted_strict.
    + eapply Permutation_Forall; [symmetry; apply sort_index_perm|].
      apply Forall_forall. intros kv Hin. now apply filter_In in Hin.
    + eapply Permutation_NoDup;
        [symmetry; apply Permutation_map, sort_index_perm|].
      rewrite (map_fst_filter is_index_key). now apply NoDup_filter.
    + apply sort_index_sorted.
Qed.

End EntriesOrder.

Lemma plain_keys_filter (A : Type) (key : A -> PropertyKey) (data : list A) :
  forallb (fun r => negb (inherited (key r))) data = true ->
  filter (fun k => negb (inherited k)) (map key data) = map key data.
Proof.
  induction data as [|r data IH]; simpl; auto.
  intros H. apply andb_true_iff in H as [H1 H2]. rewrite H1. now rewrite IH.
Qed.

Lemma filter_none (A : Type) (p : A -> bool) (l : list A) :
  (forall x, In x l -> p x = false) -> filter p l = [].
Proof.
  induction l as [|x l IH]; simpl; intros H; auto.
  rewrite (H x) by now left. apply IH. intros; apply H. now right.
Qed.

Lemma filter_all (A : Type) (p : A -> bool) (l : list A) :
  (forall x, In x l -> p x = true) -> filter p l = l.
Proof.
  induction l as [|x l IH]; simpl; intros H; auto.
  rewrite (H x) by now left. f_equal. apply IH. intros; apply H. now right.
Qed.

Section KeyOrder.
Context {NUM : Number}.
Implicit Types data : list (SalesRecord NUM).

Lemma products_order data :
  plain_keys (@coffee_name NUM) data = true ->
  entries_order (map (@coffee_name NUM) data)
                (map (@cc_name NUM) (coffeeChartData data)).
Proof.
  intros H. unfold coffeeChartData. rewrite map_map.
  rewrite (map_ext _ fst) by (now intros [k s]).
  rewrite coffeeStats_group. apply entries_key_order.
  - now rewrite group_keys_first_seen, plain_keys_filter.
  - apply group_keys_NoDup. constructor.
Qed.

Lemma payments_order data :
  plain_keys (@cash_type NUM) data = true ->
  entries_order (map (@cash_type NUM) data)
                (map (@pc_method NUM) (paymentChartData data)).
Proof.
  intros H. unfold paymentChartData. rewrite map_map.
  rewrite (map_ext _ fst) by (now intros [k s]).
  rewrite paymentStats_group. apply entries_key_order.
  - now rewrite group_keys_first_seen, plain_keys_filter.
  - apply group_keys_NoDup. constructor.
Qed.

(** Without array indices among the keys the order is the first-seen
    order. *)
Lemma entries_order_no_index seen out :
  forallb (fun k => negb (is_index_key k)) seen = true ->
  entries_order seen out -> out = first_seen seen.
Proof.
  intros H (idx & -> & Hperm & _).
  assert (Hall : forall k, In k (first_seen seen) -> is_index_key k = false).
  { intros k Hin. rewrite forallb_forall in H. apply negb_true_iff, H.
    clear - Hin. induction seen as [|x seen IH]; simpl in *; [tauto|].
    destruct Hin as [->|Hin]; auto.
    apply filter_In in Hin as [Hin _]. auto. }
  assert (E1 : filter is_index_key (first_seen seen) = []).
  { apply filter_none. exact Hall. }
  assert (E2 : filter (fun k => negb (is_index_key k)) (first_seen seen)
               = first_seen seen).
  { apply filter_all. intros k Hk. now rewrite (Hall k Hk). }
  rewrite E1 in Hperm. apply Permutation_sym, Permutation_nil in Hperm.
  now rewrite Hperm, E2.
Qed.

End KeyOrder.

(** C4, as stated, fails: the products "12" and "8", first seen in that
    order, are listed as "8", "12". *)
Lemma first_seen_order_fails_on_index_names :
  ~ (map (@cc_name b64) (coffeeChartData numeric_names)
       = first_seen (map (@coffee_name b64) numeric_names)
     /\ map (@pc_method b64) (paymentChartData numeric_names)
       = first_seen (map (@cash_type b64) numeric_names)).
Proof. vm_compute. intros [H _]. discriminate H. Qed.

(** C4, amended: where no product name or payment method is the name of a
    property inherited from [Object.prototype], the products and the
    payments sequences list their distinct keys in the order of
    [Object.entries]: the keys that are array indices (canonical decimal
    integers below 2^32 - 1) first, by ascending value, then the other keys
    in first-seen order.  Nothing is sorted alphabetically. *)
Theorem products_payments_entries_order (NUM : Number)
  (data : list (SalesRecord NUM))
  (Hproducts : plain_keys (@coffee_name NUM) data = true)
  (Hpayments : plain_keys (@cash_type NUM) data = true) :
  entries_order (map (@coffee_name NUM) data)
                (map (@cc_name NUM) (coffeeChartData data))
  /\ entries_order (map (@cash_type NUM) data)
                   (map (@pc_method NUM) (paymentChartData data)).
Proof.
  split.
  - now apply products_order.
  - now apply payments_order.
Qed.

(** The products "12" and "8" on doubles. *)
Lemma products_payments_entries_order_witness :
  entries_order (map (@coffee_name b64) numeric_names)
                (map (@cc_name b64) (coffeeChartData numeric_names))
  /\ entries_order (map (@cash_type b64) numeric_names)
                   (map (@pc_method b64) (paymentChartData numeric_names)).
Proof.
  apply (@products_payments_entries_order b64 numeric_names); reflexivity.
Defined.

(* ----------------------------------------------------------------- *)
(** *** The running average and the average computed once *)

Section MapValues.
Variables V W : Type.
Variable g : V -> W.
Implicit Types o : object V.

Lemma own_get_map_values k o :
  own_get k (map_values g o) = option_map g (own_get k o).
Proof.
  induction o as [|[k0 v0] o IH]; simpl; auto.
  now destruct (String.eqb k k0).
Qed.

Lemma own_set_map_values k v o :
  own_set k (g v) (map_values g o) = map_values g (own_set k v o).
Proof.
  induction o as [|[k0 v0] o IH]; simpl; auto.
  destruct (String.eqb k k0); simpl; auto. now rewrite IH.
Qed.

Lemma insert_index_map_values kv (l : object V) :
  insert_index (fst kv, g (snd kv)) (map_values g l)
  = map_values g (insert_index kv l).
Proof.
  induction l as [|kv' l IH]; simpl; auto.
  change (index_of (fst kv, g (snd kv))) with (index_of kv).
  change (index_of (fst kv', g (snd kv'))) with (index_of kv').
  destruct (index_of kv <? index_of kv')%N; simpl; auto. now rewrite IH.
Qed.

Lemma entries_map_values o :
  entries (map_values g o) = map_values g (entries o).
Proof.
  unfold entries, map_values. rewrite map_app. f_equal.
  - rewrite filter_map_swap.
    rewrite (filter_ext _ (@is_index V)) by reflexivity.
    induction (filter (@is_index V) o) as [|kv l IH]; simpl; auto.
    fold (map_values g l) in *. rewrite IH. apply insert_index_map_values.
  - rewrite filter_map_swap. f_equal.
Qed.

Variables (R : Type) (key : R -> PropertyKey).
Variables (init : V) (upd : R -> V -> V) (init' : W) (upd' : R -> W -> W).
Hypothesis upd_g : forall r v, upd' r (g v) = g (upd r v).
Hypothesis init_g : forall r, upd' r init' = g (upd r init).

Lemma group_step_map_values o r :
  group_step key init' upd' (map_values g o) r
  = map_values g (group_step key init upd o r).
Proof.
  destruct (own_get (key r) o) as [v|] eqn:E.
  - rewrite (group_step_own key init upd o r E).
    rewrite group_step_own with (v := g v)
      by (now rewrite own_get_map_values, E).
    now rewrite upd_g, own_set_map_values.
  - destruct (inherited (key r)) eqn:I.
    + rewrite !group_step_inherited; auto.
      now rewrite own_get_map_values, E.
    + rewrite !group_step_new; auto.
      * unfold map_values. rewrite map_app. simpl. now rewrite init_g.
      * now rewrite own_get_map_values, E.
Qed.

Lemma group_map_values data : forall o,
  fold_left (group_step key init' upd') data (map_values g o)
  = map_values g (fold_left (group_step key init upd) data o).
Proof.
  induction data as [|r data IH]; intros o; simpl; auto.
  now rewrite group_step_map_values, IH.
Qed.

End MapValues.

(** C9: the average price that the pass recomputes after each increment
    is, at the end of the pass, the revenue divided by the count, as if it
    had been computed once after the pass; it is rounded to 2 decimals once,
    when the products entries are written out. *)
Theorem running_average_is_average_at_end (NUM : Number)
  (data : list (SalesRecord NUM)) :
  coffeeStats data = coffeeStats_once data
  /\ coffeeChartData data = coffeeChartData_once data.
Proof.
  assert (E : coffeeStats data = map_values average_at_end (coffeeTotals data)).
  { rewrite coffeeStats_group. unfold group.
    change (coffeeTotals data)
      with (fold_left
              (group_step (@coffee_name NUM)
                 {| ct_count := 0; ct_revenue := zero |}
                 (fun record t =>
                    {| ct_count := ct_count t + 1;
                       ct_revenue := add (ct_revenue t) (money record) |}))
              data []).
    rewrite <- group_map_values
      with (init' := coffee_init) (upd' := coffee_upd); auto. }
  split.
  - rewrite E. unfold coffeeStats_once, map_values.
    apply map_ext. now intros [k t].
  - unfold coffeeChartData, coffeeChartData_once.
    rewrite E, entries_map_values. unfold map_values. rewrite map_map.
    apply map_ext. now intros [k t].
Qed.

(* ----------------------------------------------------------------- *)
(** *** The top product *)

Section TopCoffee.
Context {NUM : Number}.
Implicit Types (chart : list (CoffeeChart NUM)) (p top : CoffeeChart NUM).

#[local] Abbreviation pick :=
  (fun top current : CoffeeChart NUM =>
     if gtb (cc_revenue current) (cc_revenue top) then current else top).

Lemma weakly_ordered_asym (l : list num) :
  weakly_ordered l = true ->
  forall a b, In a l -> In b l -> gtb a b = true -> gtb b a = false.
Proof.
  unfold weakly_ordered. intros H a b Ha Hb E.
  rewrite forallb_forall in H. specialize (H a Ha).
  rewrite forallb_forall in H. specialize (H b Hb).
  apply andb_true_iff in H as [H1 _].
  rewrite E in H1. simpl in H1. now apply negb_true_iff.
Qed.

Lemma weakly_ordered_neg (l : list num) :
  weakly_ordered l = true ->
  forall a b c, In a l -> In b l -> In c l ->
    gtb a b = true -> gtb c b = false -> gtb a c = true.
Proof.
  unfold weakly_ordered. intros H a b c Ha Hb Hc E1 E2.
  rewrite forallb_forall in H. specialize (H a Ha).
  rewrite forallb_forall in H. specialize (H b Hb).
  apply andb_true_iff in H as [_ H2].
  rewrite forallb_forall in H2. specialize (H2 c Hc).
  now rewrite E1, E2 in H2.
Qed.

Lemma scan_keeps_first_maximum (l : list num) :
  weakly_ordered l = true ->
  forall rest before top after,
    (forall p, In p (before ++ top :: after ++ rest) -> In (cc_revenue p) l) ->
    Forall (fun p => gtb (cc_revenue top) (cc_revenue p) = true) before ->
    Forall (fun p => gtb (cc_revenue p) (cc_revenue top) = false) after ->
    exists before' after',
      before ++ top :: after ++ rest
        = before' ++ fold_left pick rest top :: after'
      /\ Forall (fun p => gtb (cc_revenue (fold_left pick rest top))
                              (cc_revenue p) = true) before'
      /\ Forall (fun p => gtb (cc_revenue p)
                              (cc_revenue (fold_left pick rest top)) = false)
                after'.
Proof.
  intros Hord.
  pose proof (weakly_ordered_asym l Hord) as Wa.
  pose proof (weakly_ordered_neg l Hord) as Wn.
  induction rest as [|c rest IH]; intros before top after Hin Hb Ha.
  - exists before, after. simpl. rewrite app_nil_r. auto.
  - simpl fold_left.
    assert (Htop : In (cc_revenue top) l).
    { apply Hin. rewrite in_app_iff. simpl. auto. }
    assert (Hc : In (cc_revenue c) l).
    { apply Hin. rewrite in_app_iff. simpl. rewrite in_app_iff. simpl. auto. }
    destruct (gtb (cc_revenue c) (cc_revenue top)) eqn:E.
    + destruct (IH (before ++ top :: after) c []) as (b' & a' & Heq & Hb' & Ha').
      * intros p Hp. apply Hin. simpl in Hp. rewrite <- app_assoc in Hp.
        exact Hp.
      * apply Forall_forall. intros p Hp.
        assert (Hpl : In (cc_revenue p) l).
        { apply Hin. rewrite in_app_iff in Hp. simpl in Hp.
          rewrite in_app_iff. simpl. rewrite in_app_iff. tauto. }
        rewrite in_app_iff in Hp. simpl in Hp. destruct Hp as [Hp|[<-|Hp]].
        -- rewrite Forall_forall in Hb.
           apply (Wn _ (cc_revenue top)); auto.
        -- exact E.
        -- rewrite Forall_forall in Ha.
           apply (Wn _ (cc_revenue top)); auto.
      * constructor.
      * exists b', a'. split; auto.
        rewrite <- Heq. simpl. now rewrite <- app_assoc.
    + destruct (IH before top (after ++ [c])) as (b' & a' & Heq & Hb' & Ha').
      * intros p Hp. apply Hin. rewrite <- app_assoc in Hp. exact Hp.
      * assumption.
      * apply Forall_app. split; auto.
      * exists b', a'. split; auto.
        rewrite <- Heq. now rewrite <- app_assoc.
Qed.

End TopCoffee.

Lemma first_maximum (NUM : Number) (chart : list (CoffeeChart NUM))
  (Hnonempty : chart <> [])
  (Hcomparable : weakly_ordered (map (@cc_revenue NUM) chart) = true) :
  exists top before after,
    topCoffee chart = Normal top
    /\ chart = before ++ top :: after
    /\ Forall (fun p => gtb (cc_revenue top) (cc_revenue p) = true) before
    /\ Forall (fun p => gtb (cc_revenue p) (cc_revenue top) = false) chart.
Proof.
  destruct chart as [|x rest]; [contradiction|].
  destruct (@scan_keeps_first_maximum NUM _ Hcomparable rest [] x [])
    as (before & after & Heq & Hb & Ha).
  - intros p Hp. now apply in_map.
  - constructor.
  - constructor.
  - simpl in Heq. set (top := fold_left _ rest x) in *.
    exists top, before, after. repeat split; auto.
    pose proof (weakly_ordered_asym _ Hcomparable) as Wa.
    assert (Hin : forall q, In q (x :: rest) ->
              In (cc_revenue q) (map (@cc_revenue NUM) (x :: rest)))
      by (intros; now apply in_map).
    assert (Ht : In top (x :: rest))
      by (rewrite Heq; apply in_or_app; right; now left).
    rewrite Heq at 1. apply Forall_app. split; [|constructor; auto].
    + apply Forall_forall. intros p Hp. rewrite Forall_forall in Hb.
      assert (Hp' : In p (x :: rest))
        by (rewrite Heq; apply in_or_app; now left).
      apply Wa; auto.
    + destruct (gtb (cc_revenue top) (cc_revenue top)) eqn:E; auto.
      rewrite <- E. apply Wa; auto.
Qed.


(** The order of doubles other than NaN. *)

Ltac order_cases :=
  repeat match goal with
  | |- context [PosDef.Pos.compare_cont Eq ?a ?b] =>
      change (PosDef.Pos.compare_cont Eq a b) with (Pos.compare a b)
  | H : context [PosDef.Pos.compare_cont Eq ?a ?b] |- _ =>
      change (PosDef.Pos.compare_cont Eq a b) with (Pos.compare a b) in H
  | |- context [IntDef.Z.compare ?a ?b] =>
      change (IntDef.Z.compare a b) with (Z.compare a b)
  | H : context [IntDef.Z.compare ?a ?b] |- _ =>
      change (IntDef.Z.compare a b) with (Z.compare a b) in H
  end;
  repeat match goal with
  | |- context [Z.compare ?a ?b] =>
      destruct (Z.compare_spec a b); subst; try lia
  | |- context [Pos.compare ?a ?b] =>
      destruct (Pos.compare_spec a b); subst; try lia
  | H : context [Z.compare ?a ?b] |- _ =>
      destruct (Z.compare_spec a b); subst; try lia
  | H : context [Pos.compare ?a ?b] |- _ =>
      destruct (Pos.compare_spec a b); subst; try lia
  end.

Lemma SFltb_asym a b : SFltb a b = true -> SFltb b a = false.
Proof.
  unfold SFltb, SFcompare.
  destruct a as [sa|sa| |sa ma ea], b as [sb|sb| |sb mb eb];
    try destruct sa; try destruct sb; simpl; try congruence;
    intros H; order_cases; simpl in *; try congruence.
Qed.

Lemma SFltb_neg_trans a b c :
  not_nan a = true -> not_nan b = true -> not_nan c = true ->
  SFltb b a = true -> SFltb b c = false -> SFltb c a = true.
Proof.
  unfold SFltb, SFcompare.
  destruct a as [sa|sa| |sa ma ea], b as [sb|sb| |sb mb eb],
           c as [sc|sc| |sc mc ec];
    try destruct sa; try destruct sb; try destruct sc; simpl; try congruence;
    intros _ _ _ H1 H2; order_cases; simpl in *; try congruence.
Qed.

Lemma shr_1_nonneg mrs : (0 <= shr_m mrs)%Z -> (0 <= shr_m (shr_1 mrs))%Z.
Proof.
  destruct mrs as [m r s]. simpl.
  destruct m as [|[p|p|]|[p|p|]]; simpl; lia.
Qed.

Lemma iter_shr_1_nonneg p : forall mrs,
  (0 <= shr_m mrs)%Z -> (0 <= shr_m (iter_pos shr_1 p mrs))%Z.
Proof.
  induction p as [p IH|p IH|]; intros mrs H; simpl.
  - apply IH, IH. now apply shr_1_nonneg.
  - apply IH, IH. exact H.
  - now apply shr_1_nonneg.
Qed.

Lemma shr_fexp_nonneg m e l :
  (0 <= m)%Z -> (0 <= shr_m (fst (shr_fexp Binary64.prec Binary64.emax m e l)))%Z.
Proof.
  intros H. unfold shr_fexp, shr.
  assert (H0 : (0 <= shr_m (shr_record_of_loc m l))%Z)
    by (destruct l as [|[| |]]; exact H).
  destruct (_ - e)%Z; simpl; auto. now apply iter_shr_1_nonneg.
Qed.

Lemma round_nearest_even_nonneg m l :
  (0 <= m)%Z -> (0 <= round_nearest_even m l)%Z.
Proof.
  intros H. destruct l as [|[| |]]; simpl; try lia.
  destruct (Z.even m); lia.
Qed.

Lemma binary_round_aux_nonneg m e l :
  (0 <= m)%Z -> nonneg (binary_round_aux Binary64.prec Binary64.emax false m e l) = true.
Proof.
  intros H. unfold binary_round_aux.
  pose proof (shr_fexp_nonneg e l H) as H1.
  destruct (shr_fexp Binary64.prec Binary64.emax m e l) as [mrs' e'] eqn:E1. simpl in H1.
  pose proof (shr_fexp_nonneg e' loc_Exact
                (round_nearest_even_nonneg (loc_of_shr_record mrs') H1)) as H2.
  destruct (shr_fexp Binary64.prec Binary64.emax _ e' loc_Exact) as [mrs'' e''] eqn:E2.
  simpl in H2. destruct (shr_m mrs''); try lia; auto.
  now destruct (e'' <=? Binary64.emax - Binary64.prec)%Z.
Qed.

Lemma SFadd_nonneg x y :
  nonneg x = true -> nonneg y = true -> nonneg (SFadd Binary64.prec Binary64.emax x y) = true.
Proof.
  destruct x as [sx|[|]| |[|] mx ex], y as [sy|[|]| |[|] my ey];
    try discriminate; intros _ _; try reflexivity;
    try (destruct sx, sy; reflexivity).
  unfold SFadd, binary_normalize, cond_Zopp.
  rewrite <- Pos2Z.inj_add. unfold binary_round.
  destruct (shl_align _ _ _) as [mz ez].
  apply binary_round_aux_nonneg. lia.
Qed.

Lemma nonneg_not_nan x : nonneg x = true -> not_nan x = true.
Proof. now destruct x. Qed.

Lemma b64_weakly_ordered (l : list Binary64.b64) :
  forallb nonneg l = true -> @weakly_ordered b64 l = true.
Proof.
  intros H. rewrite forallb_forall in H.
  unfold weakly_ordered. apply forallb_forall. intros a Ha.
  apply forallb_forall. intros b Hb. apply andb_true_iff. split.
  - change (negb (SFltb b a) || negb (SFltb a b) = true).
    destruct (SFltb b a) eqn:E; auto.
    now rewrite (SFltb_asym _ _ E).
  - apply forallb_forall. intros c Hc.
    change (implb (SFltb b a && negb (SFltb b c)) (SFltb c a) = true).
    destruct (SFltb b a) eqn:E1; auto.
    destruct (SFltb b c) eqn:E2; auto. simpl.
    apply SFltb_neg_trans with (b := b); auto using nonneg_not_nan.
Qed.

Lemma contract_amount_nonneg (r : SalesRecord b64) :
  input_contract r = true -> nonneg (money r) = true.
Proof.
  unfold input_contract. intros H.
  apply andb_true_iff in H as [H _]. apply andb_true_iff in H as [H _].
  apply andb_true_iff in H as [H _].
  change (SFltb (S754_zero false) (money r) = true) in H.
  now destruct (money r) as [s|[|]| |[|] m e].
Qed.

Lemma products_revenue_nonneg (data : list (SalesRecord b64)) :
  forallb (@input_contract b64) data = true ->
  forallb nonneg (map (@cc_revenue b64) (coffeeChartData data)) = true.
Proof.
  intros H. apply forallb_forall. intros x Hx.
  unfold coffeeChartData in Hx. rewrite map_map in Hx.
  apply in_map_iff in Hx as ([k s] & <- & Hin). simpl.
  apply (Permutation_in _ (entries_perm _)) in Hin.
  rewrite coffeeStats_group in Hin. unfold group in Hin.
  assert (F : Forall (fun kv : PropertyKey * CoffeeStat b64 =>
                        nonneg (cs_revenue (snd kv)) = true)
                     (fold_left (group_step (@coffee_name b64) coffee_init coffee_upd)
                                data [])).
  { apply group_invariant_on
      with (Q := fun r : SalesRecord b64 => input_contract r = true).
    - intros acc r v Hr Hacc E. apply Forall_own_set; auto.
      unfold coffee_upd. cbn [snd cs_revenue].
      change (@add b64) with (SFadd Binary64.prec Binary64.emax).
      apply SFadd_nonneg; [|now apply contract_amount_nonneg].
      apply own_get_In in E. rewrite Forall_forall in Hacc. exact (Hacc _ E).
    - intros acc r Hr Hacc _ _. apply Forall_app. split; auto.
      constructor; auto.
      unfold coffee_upd. cbn [snd cs_revenue].
      change (@add b64) with (SFadd Binary64.prec Binary64.emax).
      apply SFadd_nonneg; [reflexivity|now apply contract_amount_nonneg].
    - apply Forall_forall. intros r Hr. rewrite forallb_forall in H. auto.
    - constructor. }
  rewrite Forall_forall in F. exact (F _ Hin).
Qed.

(** On doubles: for an input that satisfies the contract the revenues are
    never NaN, and the top product is the first one of maximum revenue as
    soon as there is a product. *)
Lemma first_maximum_doubles (data : list (SalesRecord b64)) :
  forallb (@input_contract b64) data = true ->
  coffeeChartData data <> [] ->
  exists top before after,
    topCoffee (coffeeChartData data) = Normal top
    /\ coffeeChartData data = before ++ top :: after
    /\ Forall (fun p => gtb (cc_revenue top) (cc_revenue p) = true) before
    /\ Forall (fun p => gtb (cc_revenue p) (cc_revenue top) = false)
              (coffeeChartData data).
Proof.
  intros Hvalid Hne. apply first_maximum; auto.
  now apply b64_weakly_ordered, products_revenue_nonneg.
Qed.

(** The first element that satisfies [f] is the same in a list and in
    the list of its distinct elements. *)
Lemma find_filter_neq (f : string -> bool) (x : string) (l : list string) :
  f x = false ->
  find f (filter (fun y => negb (String.eqb y x)) l) = find f l.
Proof.
  intros Hx. induction l as [|a l IH]; [reflexivity|]. cbn [filter find].
  destruct (String.eqb_spec a x) as [->|D]; cbn [negb].
  - now rewrite Hx.
  - cbn [find]. now rewrite IH.
Qed.

Lemma find_first_seen (f : string -> bool) (l : list string) :
  find f (first_seen l) = find f l.
Proof.
  induction l as [|a l IH]; [reflexivity|]. cbn [first_seen find].
  destruct (f a) eqn:Fa; [reflexivity|].
  now rewrite find_filter_neq.
Qed.

Lemma find_after (A : Type) (f : A -> bool) (before after : list A) (x : A) :
  (forall b, In b before -> f b = false) -> f x = true ->
  find f (before ++ x :: after) = Some x.
Proof.
  intros Hb Hx. induction before as [|b before IH]; cbn [app find].
  - now rewrite Hx.
  - rewrite (Hb b) by now left. apply IH. intros; apply Hb. now right.
Qed.

Lemma NoDup_map_same (A B : Type) (g : A -> B) (l : list A) (x y : A) :
  NoDup (map g l) -> In x l -> In y l -> g x = g y -> x = y.
Proof.
  induction l as [|a l IH]; intros N Hx Hy E; [contradiction|].
  cbn [map] in N. inversion N as [|? ? Ha Hl]; subst.
  destruct Hx as [->|Hx], Hy as [->|Hy]; auto.
  - exfalso. apply Ha. rewrite E. now apply in_map.
  - exfalso. apply Ha. rewrite <- E. now apply in_map.
Qed.

(** Where the products come in first-seen order, the first entry of
    maximum revenue is the product of maximum revenue that comes first in
    the input. *)
Lemma first_maximum_first_in_input (NUM : Number) (data : list (SalesRecord NUM))
      (top : CoffeeChart NUM) (before after : list (CoffeeChart NUM)) :
  coffeeChartData data = before ++ top :: after ->
  Forall (fun p => gtb (cc_revenue top) (cc_revenue p) = true) before ->
  Forall (fun p => gtb (cc_revenue p) (cc_revenue top) = false)
         (coffeeChartData data) ->
  map (@cc_name NUM) (coffeeChartData data)
  = first_seen (map (@coffee_name NUM) data) ->
  first_in_input_of_maximum data = Some (cc_name top).
Proof.
  intros Heq Hb Ha Hfs. unfold first_in_input_of_maximum.
  rewrite <- find_first_seen, <- Hfs.
  destruct (products_nonempty_distinct data) as [_ Hnd].
  assert (Htop : In top (coffeeChartData data)).
  { rewrite Heq. apply in_or_app. right. now left. }
  set (chart := coffeeChartData data) in *.
  set (f := fun name => existsb _ chart).
  rewrite Heq at 1. rewrite map_app. cbn [map].
  apply find_after.
  - intros n Hn. apply in_map_iff in Hn as (b & <- & Hin).
    destruct (f (cc_name b)) eqn:F; [exfalso|reflexivity].
    unfold f in F. apply existsb_exists in F as (p & Hp & F).
    apply andb_true_iff in F as [F1 F2]. apply String.eqb_eq in F1.
    assert (Hbin : In b chart) by (rewrite Heq; apply in_or_app; now left).
    assert (p = b) by (apply (@NoDup_map_same _ _ (@cc_name NUM) chart); auto).
    subst p.
    unfold is_maximum in F2. rewrite forallb_forall in F2.
    specialize (F2 top Htop). rewrite Forall_forall in Hb.
    rewrite (Hb b Hin) in F2. discriminate.
  - unfold f. apply existsb_exists. exists top. split; [assumption|].
    rewrite String.eqb_refl. cbn [andb]. unfold is_maximum.
    apply forallb_forall. intros q Hq. rewrite Forall_forall in Ha.
    now rewrite (Ha q Hq).
Qed.

Lemma products_nonempty (NUM : Number) (data : list (SalesRecord NUM)) :
  data <> [] -> plain_keys (@coffee_name NUM) data = true ->
  coffeeChartData data <> [].
Proof.
  intros Hne Hp E. pose proof (products_orders data Hp) as S.
  rewrite E in S. unfold totalOrders in S. cbn [map list_sum] in S.
  destruct data; [contradiction|discriminate].
Qed.

(** What the products, their revenues and the two names are for the two
    sizes that sell for the same amount. *)
Lemma tied_sizes_evaluates :
  map (@coffee_name b64) tied_sizes = ["12"; "8"]
  /\ map (@cc_name b64) (coffeeChartData tied_sizes) = ["8"; "12"]
  /\ map (@cc_revenue b64) (coffeeChartData tied_sizes)
     = [Binary64.lit 45 1; Binary64.lit 45 1]
  /\ top_name (coffeeChartData tied_sizes) = Some "8"
  /\ first_in_input_of_maximum tied_sizes = Some "12".
Proof. vm_compute. repeat split. Qed.

(** C5, as stated, fails: "12" and "8" have the same revenue, the maximum,
    and "12" comes first in the input, but the top product is "8": an
    object lists the keys that are array indices first, in ascending
    order. *)
Lemma top_coffee_not_first_in_input :
  ~ (top_name (coffeeChartData tied_sizes) = first_in_input_of_maximum tied_sizes).
Proof. vm_compute. intros H. discriminate H. Qed.

(** C5, amended: for a non-empty input that meets the input contract and
    has no product named like a property inherited from
    [Object.prototype], the top-product reduction returns a products entry
    that no entry exceeds in revenue, and every entry before it in
    products order has a strictly smaller revenue: of several entries of
    maximum revenue it is the first in products order.  Products order is
    the order of [Object.entries] on the product names of the input: the
    names that are array indices by ascending value, then the others as
    first seen.  Hence, when no product name is an array index, the
    product returned is, of those of maximum revenue, the one that appears
    first in the input. *)
Theorem top_coffee_first_maximum (data : list (SalesRecord b64))
  (Hnonempty : data <> [])
  (Hvalid : forallb (@input_contract b64) data = true)
  (Hplain : plain_keys (@coffee_name b64) data = true) :
  exists top before after,
    topCoffee (coffeeChartData data) = Normal top
    /\ coffeeChartData data = before ++ top :: after
    /\ Forall (fun p => gtb (cc_revenue top) (cc_revenue p) = true) before
    /\ Forall (fun p => gtb (cc_revenue p) (cc_revenue top) = false)
              (coffeeChartData data)
    /\ entries_order (map (@coffee_name b64) data)
                     (map (@cc_name b64) (coffeeChartData data))
    /\ (forallb (fun k => negb (is_index_key k)) (map (@coffee_name b64) data)
        = true ->
        first_in_input_of_maximum data = Some (cc_name top)).
Proof.
  destruct (first_maximum_doubles data Hvalid (products_nonempty Hnonempty Hplain))
    as (top & before & after & Ht & Heq & Hb & Ha).
  pose proof (products_order data Hplain) as Ho.
  exists top, before, after. repeat split; auto.
  intros Hidx. eapply first_maximum_first_in_input; eauto.
  now apply entries_order_no_index.
Qed.

(** Scenario B on doubles: "Latte" and "Mocha" share the maximum, "Latte"
    comes first. *)
Lemma top_coffee_first_maximum_witness :
  exists top before after,
    topCoffee (coffeeChartData tied_revenue) = Normal top
    /\ coffeeChartData tied_revenue = before ++ top :: after
    /\ Forall (fun p => gtb (cc_revenue top) (cc_revenue p) = true) before
    /\ Forall (fun p => gtb (cc_revenue p) (cc_revenue top) = false)
              (coffeeChartData tied_revenue)
    /\ entries_order (map (@coffee_name b64) tied_revenue)
                     (map (@cc_name b64) (coffeeChartData tied_revenue))
    /\ (forallb (fun k => negb (is_index_key k))
                (map (@coffee_name b64) tied_revenue) = true ->
        first_in_input_of_maximum tied_revenue = Some (cc_name top)).
Proof.
  apply (@top_coffee_first_maximum tied_revenue).
  - discriminate.
  - vm_compute. reflexivity.
  - vm_compute. reflexivity.
Defined.

(** Scenario B: of the two products whose revenue is the maximum, the one
    that comes first in the input is returned. *)
Lemma top_coffee_scenario_B :
  map (@cc_name b64) (coffeeChartData tied_revenue) = ["Espresso"; "Latte"; "Mocha"]
  /\ map (@cc_revenue b64) (coffeeChartData tied_revenue)
     = [Binary64.lit 2 0; Binary64.lit 6 0; Binary64.lit 6 0]
  /\ match topCoffee (coffeeChartData tied_revenue) with
     | Normal top => cc_name top
     | Throw error => error
     end = "Latte".
Proof. vm_compute. repeat split. Qed.

(* ----------------------------------------------------------------- *)
(** *** Payment shares *)

Section Shares.
Context {NUM : Number}.
Implicit Types (chart : list (PaymentChart NUM)) (data : list (SalesRecord NUM)).

Lemma percentage_formula data :
  Forall (fun p => pc_percentage p
                   = toFixed 1 (mul (div (of_nat (pc_count p))
                                         (of_nat (totalOrders data)))
                                    hundred))
         (paymentChartData data).
Proof.
  unfold paymentChartData. apply Forall_map, Forall_forall.
  now intros [method stats] _.
Qed.

Lemma share_rounded_spec total p :
  share_rounded total p = true ->
  (Z.abs (2 * tenths (pc_percentage p) * Z.of_nat total
          - 2000 * Z.of_nat (pc_count p)) <= Z.of_nat total)%Z.
Proof.
  unfold share_rounded, tenths.
  destruct (pc_percentage p) as [[|] n [|[|d]]|x]; try discriminate.
  intros H. now apply Z.leb_le.
Qed.

Lemma shares_deviation total chart :
  forallb (share_rounded total) chart = true ->
  (Z.abs (2 * tenths_total chart * Z.of_nat total
          - 2000 * Z.of_nat (list_sum (map (@pc_count NUM) chart)))
   <= Z.of_nat (List.length chart) * Z.of_nat total)%Z.
Proof.
  induction chart as [|p chart IH]; intros H.
  - simpl. lia.
  - simpl in H. apply andb_true_iff in H as [Hp H].
    apply share_rounded_spec in Hp. specialize (IH H).
    unfold tenths_total in *. simpl fold_right. simpl map. simpl list_sum.
    simpl List.length. rewrite Nat2Z.inj_add, Nat2Z.inj_succ.
    set (t := Z.of_nat total) in *.
    set (s := fold_right Z.add 0%Z _) in *.
    set (c := Z.of_nat (list_sum _)) in *.
    set (n := tenths (pc_percentage p)) in *.
    set (cp := Z.of_nat (pc_count p)) in *.
    set (len := Z.of_nat (List.length chart)) in *.
    lia.
Qed.

Lemma shares_total_deviation data :
  data <> [] ->
  plain_keys (@cash_type NUM) data = true ->
  forallb (share_rounded (totalOrders data)) (paymentChartData data) = true ->
  (Z.abs (2 * tenths_total (paymentChartData data) - 2000)
   <= Z.of_nat (List.length (paymentChartData data)))%Z.
Proof.
  intros Hne Hp Hr.
  pose proof (shares_deviation _ _ Hr) as D.
  rewrite payments_orders in D by assumption.
  assert (T : (0 < Z.of_nat (totalOrders data))%Z).
  { unfold totalOrders. destruct data; [contradiction|simpl; lia]. }
  set (t := Z.of_nat (totalOrders data)) in *.
  set (s := tenths_total _) in *.
  set (len := Z.of_nat _) in *.
  nia.
Qed.

End Shares.

(** In exact arithmetic every shown percentage is a correct rounding. *)
Lemma exact_share_value (c t : nat) :
  0 < t ->
  (this (Qcmult (Qcdiv (Exact.Qc_of_Z (Z.of_nat c)) (Exact.Qc_of_Z (Z.of_nat t)))
                (Exact.Qc_of_Z 100))
   == (100 * Z.of_nat c) # Z.to_pos (Z.of_nat t))%Q.
Proof.
  intros Ht. unfold Qcdiv, Qcmult, Qcinv, Exact.Qc_of_Z, Q2Qc. cbn [this].
  rewrite !Qred_correct.
  destruct (Z.of_nat t) as [|p|p] eqn:E; try lia.
  unfold Qeq, Qmult, Qinv, inject_Z. cbn [Qnum Qden Z.to_pos].
  rewrite !Pos2Z.inj_mul. lia.
Qed.

Lemma exact_share_rounded (c t : nat) :
  0 < t ->
  exists n : N,
    Exact.Qc_toFixed 1
      (Qcmult (Qcdiv (Exact.Qc_of_Z (Z.of_nat c)) (Exact.Qc_of_Z (Z.of_nat t)))
              (Exact.Qc_of_Z 100))
    = Decimal false n 1
    /\ (Z.abs (2 * Z.of_N n * Z.of_nat t - 2000 * Z.of_nat c) <= Z.of_nat t)%Z.
Proof.
  intros Ht. pose proof (@exact_share_value c t Ht) as E.
  set (x := Qcmult _ _) in *.
  assert (Hx : (0 <= this x)%Q).
  { rewrite E. unfold Qle. cbn [Qnum Qden]. lia. }
  unfold Exact.Qc_toFixed.
  assert (G : Exact.Qc_gtb 0%Qc x = false).
  { unfold Exact.Qc_gtb, Qccompare. 
    destruct (Qcompare (this x) (this 0%Qc)) eqn:C; auto.
    rewrite <- Qlt_alt in C. apply Qlt_not_le in C. now destruct C. }
  rewrite G. eexists. split; [reflexivity|].
  rewrite Qabs_pos by assumption. rewrite E.
  set (T := Z.of_nat t) in *. set (C := Z.of_nat c) in *.
  assert (F : (((100 * C # Z.to_pos T) * inject_Z (10 ^ Z.of_nat 1) + (1 # 2))
               == (2000 * C + T) # (2 * Z.to_pos T))%Q).
  { unfold Qeq, Qplus, Qmult, inject_Z. cbn [Qnum Qden].
    change (10 ^ Z.of_nat 1)%Z with 10%Z.
    rewrite !Pos2Z.inj_mul. rewrite !Z2Pos.id by lia. lia. }
  rewrite F. unfold Qfloor.
  rewrite Pos2Z.inj_mul, Z2Pos.id by lia.
  assert (P : (0 <= (2000 * C + T) / (2 * T))%Z) by (apply Z.div_pos; lia).
  rewrite Z2N.id by assumption.
  pose proof (Z.mul_div_le (2000 * C + T) (2 * T) ltac:(lia)).
  pose proof (Z.mul_succ_div_gt (2000 * C + T) (2 * T) ltac:(lia)).
  set (q := ((2000 * C + T) / (2 * T))%Z) in *.
  lia.
Qed.

Lemma exact_shares_rounded (data : list (SalesRecord qc)) :
  data <> [] ->
  forallb (share_rounded (totalOrders data)) (paymentChartData data) = true.
Proof.
  intros Hne. apply forallb_forall. intros p Hp.
  pose proof (percentage_formula data) as F.
  rewrite Forall_forall in F. specialize (F p Hp).
  assert (T : 0 < totalOrders data).
  { unfold totalOrders. destruct data; [contradiction|simpl; lia]. }
  destruct (@exact_share_rounded (pc_count p) (totalOrders data) T)
    as (n & Hn & Hle).
  unfold share_rounded. rewrite F.
  change (@toFixed qc) with Exact.Qc_toFixed.
  change (@mul qc) with Qcmult. change (@div qc) with Qcdiv.
  change (@hundred qc) with (Exact.Qc_of_Z 100).
  change (@of_nat qc) with (fun n => Exact.Qc_of_Z (Z.of_nat n)).
  cbv beta. rewrite Hn. now apply Z.leb_le.
Qed.

(** Hence, in exact arithmetic, the shares of [N] payment methods add up
    to 100.0 within [0.05 * N]. *)
Lemma percentage_closure_exact (data : list (SalesRecord qc)) :
  data <> [] ->
  plain_keys (@cash_type qc) data = true ->
  (Z.abs (2 * tenths_total (paymentChartData data) - 2000)
   <= Z.of_nat (List.length (paymentChartData data)))%Z.
Proof.
  intros Hne Hp. apply shares_total_deviation; auto.
  now apply exact_shares_rounded.
Qed.


(* ----------------------------------------------------------------- *)
(** *** Customer frequency *)

Lemma bucket_thresholds n :
  (n = 1 -> bucket_of (Num n) = "1 order")
  /\ (n = 2 \/ n = 3 -> bucket_of (Num n) = "2-3 orders")
  /\ (n = 4 \/ n = 5 -> bucket_of (Num n) = "4-5 orders")
  /\ (6 <= n -> bucket_of (Num n) = "6+ orders").
Proof.
  repeat split.
  - now intros ->.
  - now intros [->| ->].
  - now intros [->| ->].
  - intros H. do 6 (destruct n as [|n]; [lia|]). reflexivity.
Qed.

Lemma first_seen_In (l : list string) x : In x (first_seen l) <-> In x l.
Proof.
  induction l as [|k l IH]; simpl; [tauto|].
  rewrite filter_In, IH, negb_true_iff, String.eqb_neq.
  destruct (string_dec x k); intuition congruence.
Qed.

Lemma first_seen_NoDup (l : list string) : NoDup (first_seen l).
Proof.
  induction l as [|k l IH]; simpl; constructor.
  - rewrite filter_In, negb_true_iff, String.eqb_neq. tauto.
  - now apply NoDup_filter.
Qed.

Lemma first_seen_length (l : list string) :
  List.length (first_seen l) = List.length (nodup string_dec l).
Proof.
  apply Permutation_length, NoDup_Permutation.
  - apply first_seen_NoDup.
  - apply NoDup_nodup.
  - intros x. now rewrite first_seen_In, nodup_In.
Qed.

(** On keys that are not inherited names a tally is a grouping that
    counts. *)
Lemma tally_counts (A : Type) (key : A -> PropertyKey) (l : list A) :
  forallb (fun x => negb (inherited (key x))) l = true ->
  forall o : object nat,
    fold_left (fun acc x => tally acc (key x)) l (map_values Num o)
    = map_values Num (fold_left (group_step key 0 (fun _ n => n + 1)) l o).
Proof.
  induction l as [|x l IH]; intros H o; simpl; auto.
  simpl in H. apply andb_true_iff in H as [Hx H]. apply negb_true_iff in Hx.
  rewrite <- IH by assumption. f_equal.
  unfold tally, set, get.
  destruct (String.eqb_spec (key x) "__proto__") as [E|_];
    [rewrite E in Hx; discriminate|].
  rewrite own_get_map_values.
  destruct (own_get (key x) o) as [n|] eqn:E; simpl.
  - erewrite group_step_own by eassumption. apply own_set_map_values.
  - rewrite Hx, group_step_new by assumption.
    rewrite own_set_new by (now rewrite own_get_map_values, E).
    unfold map_values. now rewrite map_app.
Qed.

Section FrequencyFacts.
Context {NUM : Number}.
Implicit Types data : list (SalesRecord NUM).

Lemma customerFrequency_counts data :
  plain_keys (@card NUM) data = true ->
  customerFrequency data
  = map_values Num (group (@card NUM) 0 (fun _ n => n + 1) data).
Proof.
  intros H. unfold customerFrequency, reduce, group.
  now rewrite <- tally_counts.
Qed.

Lemma frequencyDistribution_counts data :
  frequencyDistribution data
  = map_values Num (group bucket_of 0 (fun _ n => n + 1)
                          (values (customerFrequency data))).
Proof.
  unfold frequencyDistribution, reduce, group.
  rewrite <- tally_counts; auto.
  apply forallb_forall. intros f _. now rewrite bucket_of_not_inherited.
Qed.

(** Where no customer id is the name of an inherited property: the
    customers are tallied with their own totals, and the buckets hold
    every distinct customer once. *)
Lemma frequency_view_plain_keys data :
  plain_keys (@card NUM) data = true ->
  keys (customerFrequency data) = first_seen (map (@card NUM) data)
  /\ (forall c, In c (map (@card NUM) data) ->
        own_get c (customerFrequency data) = Some (Num (orders_of c data)))
  /\ list_sum (map customers_shown (customerFrequencyData data))
     = uniqueCustomers data.
Proof.
  intros H. pose proof (customerFrequency_counts data H) as E.
  assert (K : keys (customerFrequency data) = first_seen (map (@card NUM) data)).
  { rewrite E. unfold keys, map_values. rewrite map_map. simpl.
    change (map (fun x => fst x) ?o) with (keys o).
    now rewrite group_keys_first_seen, plain_keys_filter. }
  repeat split.
  - exact K.
  - intros c Hc. rewrite E, own_get_map_values. unfold group.
    pose proof (at_key_fold (@card NUM) 0 (fun _ n => n + 1) (fun n => n)
                  eq_refl (fun _ _ => eq_refl) c data []) as A.
    assert (I : inherited c = false).
    { apply in_map_iff in Hc as (r & <- & Hr). unfold plain_keys in H.
      rewrite forallb_forall in H. now apply negb_true_iff, H. }
    specialize (A I). unfold at_key in A. simpl in A.
    fold (orders_of c data) in A.
    match type of A with
    | context [own_get c ?o] => destruct (own_get c o) as [n|] eqn:G
    end.
    + simpl. now rewrite A.
    + exfalso. apply own_get_None_keys in G.
      apply G. fold (group (@card NUM) 0 (fun _ n => n + 1) data).
      rewrite group_keys_first_seen, plain_keys_filter by assumption.
      now apply first_seen_In.
  - unfold customerFrequencyData. rewrite frequencyDistribution_counts.
    rewrite entries_map_values. unfold map_values. rewrite !map_map.
    unfold customers_shown. simpl.
    transitivity (total 0 Nat.add (fun n : nat => n)
                    (entries (group bucket_of 0 (fun _ n => n + 1)
                                (values (customerFrequency data))))).
    { unfold total, list_sum. f_equal. }
    rewrite total_entries_group with (amount := fun _ => 1);
      auto; try (intros; lia).
    + rewrite ones_length. unfold values. rewrite length_map.
      rewrite (Permutation_length (entries_perm _)).
      unfold uniqueCustomers. rewrite <- first_seen_length, <- K.
      unfold keys. now rewrite length_map.
    + apply forallb_forall. intros f _. now rewrite bucket_of_not_inherited.
Qed.

End FrequencyFacts.

(** C7 fails on the code.  The customer "__proto__" is counted by the set
    of customers but gets no entry in [customerFrequency]: the assignment
    runs the inherited setter.  The customer "toString", with one order,
    reads the inherited function, which [+ 1] turns into a string; the
    string compares false with 1, 3 and 5 and lands in "6+ orders".  The
    buckets then hold one customer, of two.  (On ids that are not inherited
    names the view is as specified: [frequency_view_plain_keys].) *)
Theorem frequency_breaks_on_inherited_names :
  uniqueCustomers inherited_names = 2
  /\ orders_of "__proto__" inherited_names = 1
  /\ orders_of "toString" inherited_names = 1
  /\ customerFrequencyData inherited_names
     = [ {| fb_bucket := "6+ orders"; fb_customers := Num 1 |} ]
  /\ list_sum (map customers_shown (customerFrequencyData inherited_names)) = 1.
Proof. vm_compute. repeat split. Qed.

(* ----------------------------------------------------------------- *)
(** *** Scenario A *)

(** The result for Scenario A, evaluated on doubles: revenue 8.00 over 3
    orders of 2 customers; Latte then Espresso; hours 8 and 9; cash 66.7%
    and card 33.3%; one customer with 2 orders and one with 1. *)
Lemma scenario_A_evaluates :
  totalRevenue scenario_A = Binary64.lit 8 0
  /\ totalOrders scenario_A = 3
  /\ uniqueCustomers scenario_A = 2
  /\ map (fun p : CoffeeChart b64 => (cc_name p, cc_count p))
         (coffeeChartData scenario_A) = [("Latte", 2); ("Espresso", 1)]
  /\ map (fun p : CoffeeChart b64 => (cc_revenue p, cc_avgPrice p))
         (coffeeChartData scenario_A)
     = [(Binary64.lit 6 0, Binary64.lit 3 0); (Binary64.lit 2 0, Binary64.lit 2 0)]
  /\ map (fun p : HourChart b64 => (hc_hour p, hc_orders p, hc_revenue p))
         (hourlyChartData scenario_A)
     = [("8:00", 2, Binary64.lit 6 0); ("9:00", 1, Binary64.lit 2 0)]
  /\ map (fun p : PaymentChart b64 => (pc_method p, pc_count p, pc_revenue p))
         (paymentChartData scenario_A)
     = [("cash", 2, Binary64.lit 5 0); ("card", 1, Binary64.lit 3 0)]
  /\ map (fun p : PaymentChart b64 => tenths (pc_percentage p))
         (paymentChartData scenario_A) = [667%Z; 333%Z]
  /\ customerFrequencyData scenario_A
     = [ {| fb_bucket := "2-3 orders"; fb_customers := Num 1 |};
         {| fb_bucket := "1 order"; fb_customers := Num 1 |} ].
Proof. vm_compute. repeat split. Qed.
(* ----------------------------------------------------------------- *)
(** *** Revenue conservation on doubles *)

Section UnitSums.
#[local] Open Scope Z_scope.
Variable u : nat.

#[local] Abbreviation zsum := (fold_right Z.add 0).

Lemma units_total_nonneg (data : list (SalesRecord b64)) : 0 <= units_total u data.
Proof.
  unfold units_total. induction data as [|r data IH]; cbn [map fold_right]; [lia|].
  pose proof (units_nonneg u (@money Binary64.binary64 r)). lia.
Qed.

Lemma units_total_filter (p : SalesRecord b64 -> bool) (data : list (SalesRecord b64)) :
  units_total u (filter p data) <= units_total u data.
Proof.
  unfold units_total. induction data as [|r data IH]; cbn [filter map fold_right]; [lia|].
  pose proof (units_nonneg u (@money Binary64.binary64 r)).
  destruct (p r); cbn [map fold_right]; lia.
Qed.

Lemma zsum_add (A : Type) (f g : A -> Z) (l : list A) :
  zsum (map (fun x => f x + g x) l) = zsum (map f l) + zsum (map g l).
Proof. induction l as [|x l IH]; cbn [map fold_right]; lia. Qed.

Lemma zsum_one (k : string) (w : Z) (names : list string) :
  NoDup names -> In k names ->
  zsum (map (fun n => if String.eqb k n then w else 0) names) = w.
Proof.
  induction names as [|n names IH]; intros N I; [contradiction|].
  inversion N as [|? ? Hn Hns]; subst. cbn [map fold_right].
  destruct (String.eqb_spec k n) as [->|D].
  - rewrite (map_ext_in _ (fun _ => 0)).
    + assert (Z : forall l : list string, zsum (map (fun _ => 0) l) = 0)
        by (induction l; cbn [map fold_right]; lia).
      rewrite Z. lia.
    + intros x Hx. destruct (String.eqb_spec n x) as [->|]; [contradiction|reflexivity].
  - destruct I as [->|I]; [contradiction|]. rewrite IH by assumption. lia.
Qed.

(** The amounts of the groups add up to the amount of all records. *)
Lemma units_by_key (key : SalesRecord b64 -> PropertyKey) (names : list string)
      (data : list (SalesRecord b64)) :
  NoDup names -> (forall r, In r data -> In (key r) names) ->
  zsum (map (fun n => units_total u (filter (fun r => String.eqb (key r) n) data))
            names)
  = units_total u data.
Proof.
  intros N. induction data as [|r data IH]; intros C.
  - cbn [filter]. unfold units_total. cbn [map fold_right]. clear.
    induction names as [|n names IH]; cbn [map fold_right]; [reflexivity|].
    rewrite IH. reflexivity.
  - rewrite (map_ext _ (fun n => (if String.eqb (key r) n
                                  then units u (@money Binary64.binary64 r) else 0)
                                 + units_total u (filter (fun r => String.eqb (key r) n)
                                                         data))).
    + rewrite zsum_add, zsum_one, IH; auto.
      * intros x Hx. apply C. now right.
      * apply C. now left.
    + intros n. cbn [filter]. destruct (String.eqb (key r) n); [reflexivity|lia].
Qed.

End UnitSums.

Section ExactSums.
#[local] Open Scope Z_scope.
Variable u : nat.
Hypothesis unit_in_range : (u <= 1022)%nat.

#[local] Abbreviation zsum := (fold_right Z.add 0).

Lemma fold_add_units (zs : list Z) : forall a,
  0 <= a -> Forall (fun z => 0 <= z) zs -> a + zsum zs < 2 ^ 53 ->
  fold_left (SFadd Binary64.prec Binary64.emax) (map (of_units u) zs) (of_units u a)
  = of_units u (a + zsum zs).
Proof.
  induction zs as [|z zs IH]; intros a A F B; cbn [map fold_left fold_right] in *.
  - now rewrite Z.add_0_r.
  - inversion F as [|? ? Hz Hzs]; subst.
    assert (0 <= zsum zs).
    { clear - Hzs. induction Hzs; cbn [fold_right]; lia. }
    rewrite SFadd_units by (assumption || lia).
    rewrite IH by (assumption || lia). f_equal. lia.
Qed.

Lemma sum_of_units (zs : list Z) :
  Forall (fun z => 0 <= z) zs -> zsum zs < 2 ^ 53 ->
  @sum b64 (map (of_units u) zs) = of_units u (zsum zs).
Proof.
  intros F B. unfold sum.
  change (@add b64) with (SFadd Binary64.prec Binary64.emax).
  change (@zero b64) with (of_units u 0).
  now rewrite fold_add_units by (assumption || lia).
Qed.

Lemma sum_amounts (l : list (SalesRecord b64)) :
  Forall (fun r : SalesRecord b64 => in_units u (money r)) l -> units_total u l < 2 ^ 53 ->
  @sum b64 (map (@money b64) l) = of_units u (units_total u l).
Proof.
  intros F B.
  assert (E : map (@money b64) l
              = map (of_units u) (map (fun r : SalesRecord b64 => units u (money r)) l)).
  { rewrite map_map. clear B. induction F as [|r l Hr F IH]; cbn [map]; [reflexivity|].
    rewrite <- IH. f_equal. exact Hr. }
  rewrite E. apply sum_of_units; [|exact B].
  apply Forall_map, Forall_forall. intros r _. apply units_nonneg.
Qed.

(** Entries that hold, for each key, the sum of the amounts of its
    records: their revenues add up, exactly, to the amount of all
    records. *)
Lemma grouped_revenue (A : Type) (name : A -> string) (revenue : A -> Binary64.b64)
      (key : SalesRecord b64 -> PropertyKey) (chart : list A)
      (data : list (SalesRecord b64)) :
  Forall (fun p => revenue p = @sum b64 (amounts_of key (name p) data)) chart ->
  NoDup (map name chart) ->
  (forall r, In r data -> In (key r) (map name chart)) ->
  Forall (fun r : SalesRecord b64 => in_units u (money r)) data ->
  units_total u data < 2 ^ 53 ->
  @sum b64 (map revenue chart) = of_units u (units_total u data).
Proof.
  intros R N C F B.
  assert (E : map revenue chart
              = map (of_units u)
                    (map (fun n => units_total u
                                     (filter (fun r => String.eqb (key r) n) data))
                         (map name chart))).
  { rewrite !map_map. apply map_ext_in. intros p Hp.
    rewrite Forall_forall in R. rewrite (R p Hp). unfold amounts_of.
    apply sum_amounts.
    - apply Forall_forall. intros r Hr. apply filter_In in Hr as [Hr _].
      rewrite Forall_forall in F. now apply F.
    - pose proof (units_total_filter u (fun r => String.eqb (key r) (name p)) data).
      lia. }
  rewrite E, sum_of_units.
  - now rewrite units_by_key.
  - apply Forall_map, Forall_forall. intros n _. apply units_total_nonneg.
  - now rewrite units_by_key.
Qed.

End ExactSums.

Lemma products_names_cover (NUM : Number) (data : list (SalesRecord NUM)) :
  plain_keys (@coffee_name NUM) data = true ->
  forall r, In r data ->
            In (coffee_name r) (map (@cc_name NUM) (coffeeChartData data)).
Proof.
  intros H r Hr. unfold coffeeChartData. rewrite map_map.
  rewrite (map_ext _ fst) by (now intros [k s]).
  apply (Permutation_in _ (Permutation_sym (Permutation_map fst (entries_perm _)))).
  rewrite coffeeStats_group.
  change (map fst ?o) with (keys o).
  rewrite group_keys_first_seen, plain_keys_filter by exact H.
  apply first_seen_In. now apply in_map.
Qed.

Lemma payments_names_cover (NUM : Number) (data : list (SalesRecord NUM)) :
  plain_keys (@cash_type NUM) data = true ->
  forall r, In r data ->
            In (cash_type r) (map (@pc_method NUM) (paymentChartData data)).
Proof.
  intros H r Hr. unfold paymentChartData. rewrite map_map.
  rewrite (map_ext _ fst) by (now intros [k s]).
  apply (Permutation_in _ (Permutation_sym (Permutation_map fst (entries_perm _)))).
  rewrite paymentStats_group.
  change (map fst ?o) with (keys o).
  rewrite group_keys_first_seen, plain_keys_filter by exact H.
  apply first_seen_In. now apply in_map.
Qed.

(** On doubles the three sums are exact, and equal, for amounts that are
    whole multiples of one power of two with a total below [2^53] such
    units. *)
Lemma revenue_conservation_units (u : nat) (data : list (SalesRecord b64)) :
  u <= 1022 ->
  Forall (fun r : SalesRecord b64 => in_units u (money r)) data ->
  (units_total u data < 2 ^ 53)%Z ->
  plain_keys (@coffee_name b64) data = true ->
  plain_keys (@cash_type b64) data = true ->
  totalRevenue data = of_units u (units_total u data)
  /\ totalRevenue data = sum (map (@cc_revenue b64) (coffeeChartData data))
  /\ totalRevenue data = sum (map (@pc_revenue b64) (paymentChartData data)).
Proof.
  intros Hunit Hamounts Htotal Hproducts Hpayments.
  assert (T : totalRevenue data = of_units u (units_total u data)).
  { rewrite totalRevenue_sum. now apply sum_amounts. }
  split; [exact T|]. rewrite T. split; symmetry.
  - apply grouped_revenue with (name := @cc_name b64) (key := @coffee_name b64);
      auto.
    + apply (@products_entry_revenue b64).
    + apply (@products_nonempty_distinct b64).
    + now apply products_names_cover.
  - apply grouped_revenue with (name := @pc_method b64) (key := @cash_type b64);
      auto.
    + apply (@payments_entry_revenue b64).
    + apply (@payments_nonempty_distinct b64).
    + now apply payments_names_cover.
Qed.

Section RoundedSums.
Import Binary64.
#[local] Open Scope Z_scope.

#[local] Abbreviation zsum := (fold_right Z.add 0).

Lemma zsum_units_nonneg (l : list b64) : 0 <= zsum (map (units 1074) l).
Proof.
  induction l as [|y l IH]; cbn [map fold_right]; [lia|].
  pose proof (units_nonneg 1074 y). lia.
Qed.

(** The sum of a list of doubles that are zero or more is within
    [2n * 2^-51] of their exact total. *)
Lemma sum_error (l : list b64) :
  forallb finite_nonneg l = true ->
  2 * Z.of_nat (List.length l) <= 2 ^ 51 ->
  2 * zsum (map (units 1074) l) < safe_range ->
  finite_nonneg (@sum binary64 l) = true
  /\ 2 ^ 51 * Z.abs (units 1074 (@sum binary64 l) - zsum (map (units 1074) l))
     <= 2 * Z.of_nat (List.length l) * zsum (map (units 1074) l).
Proof.
  intros Ml Hn Hr. unfold sum.
  change (@add binary64) with (SFadd prec emax). change (@zero binary64) with (S754_zero false).
  destruct (@fold_add_error l (S754_zero false) 0 0) as [M B];
    try assumption; try reflexivity; try lia.
  split; [assumption|]. rewrite !Z.add_0_l in B. exact B.
Qed.

Lemma zsum_error (A : Type) (a b : A -> Z) (c : Z) (l : list A) :
  0 <= c ->
  Forall (fun p => 2 ^ 51 * Z.abs (a p - b p) <= c * b p) l ->
  2 ^ 51 * Z.abs (zsum (map a l) - zsum (map b l)) <= c * zsum (map b l).
Proof.
  intros C F. induction F as [|p l Hp F IH]; cbn [map fold_right].
  - cbn. lia.
  - change (2 ^ 51) with 2251799813685248 in *. nia.
Qed.

Lemma units_total_map (data : list (SalesRecord binary64)) :
  zsum (map (units 1074) (map (@money binary64) data)) = units_total 1074 data.
Proof. unfold units_total. now rewrite map_map. Qed.

Lemma filter_length_le (A : Type) (p : A -> bool) (l : list A) :
  (List.length (filter p l) <= List.length l)%nat.
Proof.
  induction l as [|x l IH]; cbn [filter List.length]; [lia|].
  destruct (p x); cbn [List.length]; lia.
Qed.

(** Entries that hold, for each key, the sum of the amounts of its
    records: their revenues add up to the amount of all records, within
    [6n * 2^-51]. *)
Lemma grouped_revenue_error (A : Type) (name : A -> string) (revenue : A -> b64)
      (key : SalesRecord binary64 -> PropertyKey) (chart : list A)
      (data : list (SalesRecord binary64)) :
  Forall (fun p => revenue p = @sum binary64 (amounts_of key (name p) data)) chart ->
  NoDup (map name chart) ->
  (forall r, In r data -> In (key r) (map name chart)) ->
  (List.length chart <= List.length data)%nat ->
  forallb (fun r : SalesRecord binary64 => finite_nonneg (money r)) data = true ->
  Z.of_nat (List.length data) < 2 ^ 32 ->
  4 * units_total 1074 data < safe_range ->
  finite_nonneg (@sum binary64 (map revenue chart)) = true
  /\ 2 ^ 51 * Z.abs (units 1074 (@sum binary64 (map revenue chart))
                     - units_total 1074 data)
     <= 6 * Z.of_nat (List.length data) * units_total 1074 data.
Proof.
  intros R N C K M Hn Hr.
  set (n := Z.of_nat (List.length data)) in *.
  set (S := units_total 1074 data) in *.
  set (G := fun p => units_total 1074
                       (filter (fun r => String.eqb (key r) (name p)) data)).
  assert (S0 : 0 <= S) by (unfold S; rewrite <- units_total_map; apply zsum_units_nonneg).
  change (2 ^ 32) with 4294967296 in Hn.
  (* each entry *)
  assert (E : Forall (fun p => finite_nonneg (revenue p) = true
                               /\ 2 ^ 51 * Z.abs (units 1074 (revenue p) - G p)
                                  <= 2 * n * G p) chart).
  { rewrite Forall_forall in R. apply Forall_forall. intros p Hp.
    rewrite (R p Hp). unfold amounts_of.
    set (l := filter (fun r => String.eqb (key r) (name p)) data).
    assert (Ll : (List.length l <= List.length data)%nat) by apply filter_length_le.
    assert (Gl : 0 <= G p <= S).
    { unfold G. fold l. split.
      - rewrite <- units_total_map. apply zsum_units_nonneg.
      - apply units_total_filter. }
    destruct (@sum_error (map (@money binary64) l)) as [Ms Bs].
    - rewrite forallb_forall in M. apply forallb_forall. intros x Hx.
      apply in_map_iff in Hx as (r & <- & Hr'). apply M.
      apply filter_In in Hr'. tauto.
    - rewrite length_map. change (2 ^ 51) with 2251799813685248. lia.
    - rewrite units_total_map.
      change (units_total 1074 l) with (G p). lia.
    - split; [assumption|]. rewrite units_total_map, length_map in Bs.
      change (units_total 1074 l) with (G p) in Bs.
      assert (Z.of_nat (List.length l) * G p <= n * G p)
        by (apply Z.mul_le_mono_nonneg_r; lia).
      lia. }
  (* the exact amounts of the groups add up *)
  assert (T : zsum (map G chart) = S).
  { unfold G, S. rewrite <- (@units_by_key 1074 key _ data N C), map_map. reflexivity. }
  assert (D : 2 ^ 51 * Z.abs (zsum (map (fun p => units 1074 (revenue p)) chart)
                              - zsum (map G chart))
              <= 2 * n * zsum (map G chart)).
  { apply zsum_error; [lia|]. eapply Forall_impl; [|exact E]. cbv beta. tauto. }
  rewrite T in D.
  set (S' := zsum (map (fun p => units 1074 (revenue p)) chart)) in *.
  change (2 ^ 51) with 2251799813685248 in *.
  assert (NS : 0 <= n * S) by nia.
  assert (S2 : S' <= 2 * S) by nia.
  destruct (@sum_error (map revenue chart)) as [Ms Bs].
  - apply forallb_forall. intros x Hx. apply in_map_iff in Hx as (p & <- & Hp).
    rewrite Forall_forall in E. now apply E.
  - rewrite length_map. change (2 ^ 51) with 2251799813685248. lia.
  - rewrite map_map. fold S'. lia.
  - split; [assumption|]. rewrite map_map, length_map in Bs. fold S' in Bs.
    change (2 ^ 51) with 2251799813685248 in Bs.
    set (k := Z.of_nat (List.length chart)) in *.
    assert (Kn : 0 <= k <= n) by (unfold k, n; lia).
    assert (0 <= S') by (unfold S'; rewrite <- map_map; apply zsum_units_nonneg).
    assert (k * S' <= n * (2 * S)) by nia.
    lia.
Qed.

End RoundedSums.

Lemma length_le_list_sum (A : Type) (f : A -> nat) (l : list A) :
  Forall (fun p => 1 <= f p) l -> List.length l <= list_sum (map f l).
Proof. induction 1; simpl; lia. Qed.

Lemma products_length (NUM : Number) (data : list (SalesRecord NUM)) :
  plain_keys (@coffee_name NUM) data = true ->
  List.length (coffeeChartData data) <= List.length data.
Proof.
  intros H. pose proof (products_orders data H) as E.
  unfold totalOrders in E. rewrite <- E.
  apply length_le_list_sum, products_nonempty_distinct.
Qed.

Lemma payments_length (NUM : Number) (data : list (SalesRecord NUM)) :
  plain_keys (@cash_type NUM) data = true ->
  List.length (paymentChartData data) <= List.length data.
Proof.
  intros H. pose proof (payments_orders data H) as E.
  unfold totalOrders in E. rewrite <- E.
  apply length_le_list_sum, payments_nonempty_distinct.
Qed.

(** C2, as stated, fails on doubles: for the amounts 0.1, 0.2, 0.3 with the
    last two of one product, [totalRevenue] is (0.1 + 0.2) + 0.3 while the
    products add up to 0.1 + (0.2 + 0.3), a different double. *)
Lemma revenue_conservation_fails_on_doubles :
  ~ (totalRevenue tenths_of_a_dollar
       = sum (map (@cc_revenue b64) (coffeeChartData tenths_of_a_dollar))
     /\ totalRevenue tenths_of_a_dollar
       = sum (map (@pc_revenue b64) (paymentChartData tenths_of_a_dollar))).
Proof. vm_compute. intros [H _]. discriminate H. Qed.

(** C2, amended: on doubles, for every input whose amounts are zero or
    more and finite, of fewer than [2^32] records with a total below
    [2^1021], and in which no product name or payment method is the name
    of a property inherited from [Object.prototype]: [totalRevenue], the
    sum of the revenues of the products entries and the sum of the
    revenues of the payments entries are finite and agree up to rounding.
    With [n] the number of records and [T] the exact total of the amounts
    (values are counted in units of [2^-1074]), [totalRevenue] is within
    [2n * 2^-51 * T] of [T], and each of the two sums over entries is
    within [8n * 2^-51 * T] of [totalRevenue].  The three are equal, and
    exact, when the amounts are whole multiples of one power of two
    [2^-u] (whole numbers, halves, quarters, ...) with a total below
    [2^53] such units. *)
Theorem revenue_conservation (data : list (SalesRecord b64))
  (Hamounts : forallb (fun r : SalesRecord b64 => finite_nonneg (money r)) data
              = true)
  (Hlength : (Z.of_nat (List.length data) < 2 ^ 32)%Z)
  (Hrange : (units_total 1074 data < 2 ^ 2095)%Z)
  (Hproducts : plain_keys (@coffee_name b64) data = true)
  (Hpayments : plain_keys (@cash_type b64) data = true) :
  (finite_nonneg (totalRevenue data) = true
   /\ finite_nonneg (sum (map (@cc_revenue b64) (coffeeChartData data))) = true
   /\ finite_nonneg (sum (map (@pc_revenue b64) (paymentChartData data))) = true)
  /\ (2 ^ 51 * Z.abs (units 1074 (totalRevenue data) - units_total 1074 data)
      <= 2 * Z.of_nat (List.length data) * units_total 1074 data)%Z
  /\ (2 ^ 51 * Z.abs (units 1074 (totalRevenue data)
                      - units 1074 (sum (map (@cc_revenue b64)
                                             (coffeeChartData data))))
      <= 8 * Z.of_nat (List.length data) * units_total 1074 data)%Z
  /\ (2 ^ 51 * Z.abs (units 1074 (totalRevenue data)
                      - units 1074 (sum (map (@pc_revenue b64)
                                             (paymentChartData data))))
      <= 8 * Z.of_nat (List.length data) * units_total 1074 data)%Z
  /\ (forall u : nat,
        u <= 1022 ->
        Forall (fun r : SalesRecord b64 => in_units u (money r)) data ->
        (units_total u data < 2 ^ 53)%Z ->
        totalRevenue data = of_units u (units_total u data)
        /\ totalRevenue data
           = sum (map (@cc_revenue b64) (coffeeChartData data))
        /\ totalRevenue data
           = sum (map (@pc_revenue b64) (paymentChartData data))).
Proof.
  assert (Hsafe : (4 * units_total 1074 data < safe_range)%Z).
  { unfold safe_range.
    replace (2 ^ 2097)%Z with (2 ^ (2 + 2095))%Z by (f_equal; reflexivity).
    rewrite (Z.pow_add_r 2 2 2095) by lia.
    change (2 ^ 2)%Z with 4%Z. revert Hrange. generalize (2 ^ 2095)%Z. lia. }
  clear Hrange.
  assert (T : finite_nonneg (totalRevenue data) = true
              /\ (2 ^ 51 * Z.abs (units 1074 (totalRevenue data)
                                  - units_total 1074 data)
                  <= 2 * Z.of_nat (List.length data) * units_total 1074 data)%Z).
  { rewrite totalRevenue_sum.
    destruct (@sum_error (map (@money b64) data)) as [M B].
    - rewrite forallb_forall in Hamounts. apply forallb_forall. intros x Hx.
      apply in_map_iff in Hx as (r & <- & Hr). now apply Hamounts.
    - rewrite length_map. change (2 ^ 32)%Z with 4294967296%Z in Hlength.
      change (2 ^ 51)%Z with 2251799813685248%Z. lia.
    - rewrite units_total_map. pose proof (units_total_nonneg 1074 data). lia.
    - rewrite units_total_map, length_map in B. now split. }
  assert (P : finite_nonneg (sum (map (@cc_revenue b64) (coffeeChartData data)))
              = true
              /\ (2 ^ 51 * Z.abs (units 1074 (sum (map (@cc_revenue b64)
                                                       (coffeeChartData data)))
                                  - units_total 1074 data)
                  <= 6 * Z.of_nat (List.length data) * units_total 1074 data)%Z).
  { apply grouped_revenue_error
      with (name := @cc_name b64) (key := @coffee_name b64); auto.
    - apply (@products_entry_revenue b64).
    - apply (@products_nonempty_distinct b64).
    - now apply products_names_cover.
    - now apply products_length. }
  assert (Q : finite_nonneg (sum (map (@pc_revenue b64) (paymentChartData data)))
              = true
              /\ (2 ^ 51 * Z.abs (units 1074 (sum (map (@pc_revenue b64)
                                                       (paymentChartData data)))
                                  - units_total 1074 data)
                  <= 6 * Z.of_nat (List.length data) * units_total 1074 data)%Z).
  { apply grouped_revenue_error
      with (name := @pc_method b64) (key := @cash_type b64); auto.
    - apply (@payments_entry_revenue b64).
    - apply (@payments_nonempty_distinct b64).
    - now apply payments_names_cover.
    - now apply payments_length. }
  destruct T as [T1 T2], P as [P1 P2], Q as [Q1 Q2].
  split; [auto|]. split; [exact T2|].
  change (2 ^ 51)%Z with 2251799813685248%Z in *.
  split; [lia|]. split; [lia|].
  intros u Hu Hin Htot. now apply revenue_conservation_units.
Qed.

(** Scenario A on doubles: 3.00 + 3.00 + 2.00, whole numbers, so that the
    three sums are equal. *)
Lemma revenue_conservation_witness :
  (finite_nonneg (totalRevenue scenario_A) = true
   /\ (2 ^ 51 * Z.abs (units 1074 (totalRevenue scenario_A)
                       - units_total 1074 scenario_A)
       <= 2 * Z.of_nat (List.length scenario_A) * units_total 1074 scenario_A)%Z)
  /\ totalRevenue scenario_A
     = sum (map (@cc_revenue b64) (coffeeChartData scenario_A))
  /\ totalRevenue scenario_A
     = sum (map (@pc_revenue b64) (paymentChartData scenario_A)).
Proof.
  destruct (@revenue_conservation scenario_A) as ((F & _) & T & _ & _ & E).
  - vm_compute. reflexivity.
  - reflexivity.
  - vm_compute. reflexivity.
  - reflexivity.
  - reflexivity.
  - split; [split; assumption|].
    apply (E 0).
    + lia.
    + repeat (apply Forall_cons; [reflexivity|]). apply Forall_nil.
    + reflexivity.
Defined.


(* ================================================================= *)
(** ** Further properties of the views *)

Import Page Views.

(* ----------------------------------------------------------------- *)
(** *** What each products and payments entry holds *)

Section EntryContent.
Context {NUM : Number}.
Implicit Types data : list (SalesRecord NUM).

Lemma coffee_upd_count (l : list (SalesRecord NUM)) : forall v,
  cs_count (fold_left (fun v r => coffee_upd r v) l v) = cs_count v + List.length l.
Proof.
  induction l as [|r l IH]; intros v; simpl; [lia|]. rewrite IH. simpl. lia.
Qed.

Lemma payment_upd_count (l : list (SalesRecord NUM)) : forall v,
  ps_count (fold_left (fun v r => payment_upd r v) l v) = ps_count v + List.length l.
Proof.
  induction l as [|r l IH]; intros v; simpl; [lia|]. rewrite IH. simpl. lia.
Qed.

Lemma coffee_upd_average (l : list (SalesRecord NUM)) : forall r v,
  let s := fold_left (fun v r => coffee_upd r v) l (coffee_upd r v) in
  cs_avgPrice s = div (cs_revenue s) (of_nat (cs_count s)).
Proof.
  induction l as [|r' l IH]; intros r v; simpl; [reflexivity|]. apply IH.
Qed.

Lemma products_entry data k s :
  In (k, s) (entries (coffeeStats data)) ->
  exists r l,
    records_of (@coffee_name NUM) k data = r :: l
    /\ cs_count s = List.length (r :: l)
    /\ cs_revenue s = sum (map (@money NUM) (r :: l))
    /\ cs_avgPrice s = div (cs_revenue s) (of_nat (cs_count s)).
Proof.
  intros Hin. apply (Permutation_in _ (entries_perm _)) in Hin.
  rewrite coffeeStats_group in Hin.
  apply group_entry in Hin as (r & l & E & ->).
  exists r, l. split; [exact E|]. split; [|split].
  - rewrite coffee_upd_count. simpl. lia.
  - rewrite coffee_upd_revenue. reflexivity.
  - apply coffee_upd_average.
Qed.

Lemma payments_entry data k s :
  In (k, s) (entries (paymentStats data)) ->
  exists r l,
    records_of (@cash_type NUM) k data = r :: l
    /\ ps_count s = List.length (r :: l)
    /\ ps_revenue s = sum (map (@money NUM) (r :: l)).
Proof.
  intros Hin. apply (Permutation_in _ (entries_perm _)) in Hin.
  rewrite paymentStats_group in Hin.
  apply group_entry in Hin as (r & l & E & ->).
  exists r, l. split; [exact E|]. split.
  - rewrite payment_upd_count. simpl. lia.
  - rewrite payment_upd_revenue. reflexivity.
Qed.

End EntryContent.

Lemma products_content (NUM : Number) (data : list (SalesRecord NUM)) :
  Forall (fun p =>
            1 <= cc_count p
            /\ cc_count p
               = List.length (records_of (@coffee_name NUM) (cc_name p) data)
            /\ cc_revenue p
               = sum (map (@money NUM)
                          (records_of (@coffee_name NUM) (cc_name p) data))
            /\ cc_avgPrice p
               = parseFloat (toFixed 2 (div (cc_revenue p) (of_nat (cc_count p)))))
         (coffeeChartData data).
Proof.
  unfold coffeeChartData. apply Forall_map, Forall_forall.
  intros [k s] Hin. simpl.
  destruct (products_entry _ _ _ Hin) as (r & l & E & Hc & Hr & Ha).
  rewrite E, Hc, Ha, Hc. simpl. repeat split; auto. lia.
Qed.

(** X1: every products entry stands for at least one record; its count is
    the number of records of that product, its revenue is the sum of their
    amounts in input order, and its average price is the quotient of the
    two, rounded to 2 decimals. *)
Theorem products_entries_content (NUM : Number) (data : list (SalesRecord NUM)) :
  Forall (fun p =>
            1 <= cc_count p
            /\ cc_count p
               = List.length (records_of (@coffee_name NUM) (cc_name p) data)
            /\ cc_revenue p
               = sum (map (@money NUM)
                          (records_of (@coffee_name NUM) (cc_name p) data))
            /\ cc_avgPrice p
               = parseFloat (toFixed 2 (div (cc_revenue p) (of_nat (cc_count p)))))
         (coffeeChartData data).
Proof. apply products_content. Qed.

Lemma payments_content (NUM : Number) (data : list (SalesRecord NUM)) :
  Forall (fun p =>
            1 <= pc_count p
            /\ pc_count p
               = List.length (records_of (@cash_type NUM) (pc_method p) data)
            /\ pc_revenue p
               = sum (map (@money NUM)
                          (records_of (@cash_type NUM) (pc_method p) data))
            /\ pc_percentage p
               = toFixed 1 (mul (div (of_nat (pc_count p))
                                     (of_nat (List.length data)))
                                hundred))
         (paymentChartData data).
Proof.
  unfold paymentChartData. apply Forall_map, Forall_forall.
  intros [k s] Hin. simpl.
  destruct (payments_entry _ _ _ Hin) as (r & l & E & Hc & Hr).
  rewrite E, Hc. simpl. repeat split; auto. lia.
Qed.

(** X2: every payments entry stands for at least one record; its count is
    the number of records paid by that method, its revenue is the sum of
    their amounts in input order, and its percentage is that count divided
    by the number of all records, times 100, to 1 decimal. *)
Theorem payments_entries_content (NUM : Number) (data : list (SalesRecord NUM)) :
  Forall (fun p =>
            1 <= pc_count p
            /\ pc_count p
               = List.length (records_of (@cash_type NUM) (pc_method p) data)
            /\ pc_revenue p
               = sum (map (@money NUM)
                          (records_of (@cash_type NUM) (pc_method p) data))
            /\ pc_percentage p
               = toFixed 1 (mul (div (of_nat (pc_count p))
                                     (of_nat (List.length data)))
                                hundred))
         (paymentChartData data).
Proof. apply payments_content. Qed.

(* ----------------------------------------------------------------- *)
(** *** Records whose key is an inherited name are ignored *)

Section IgnoresInherited.
Variables R V : Type.
Variable key : R -> PropertyKey.
Variable init : V.
Variable upd : R -> V -> V.

#[local] Abbreviation step := (group_step key init upd).

Lemma own_get_Some_keys (o : object V) k v :
  own_get k o = Some v -> In k (keys o).
Proof.
  intros E. destruct (in_dec string_dec k (keys o)) as [H|H]; auto.
  apply own_get_None_keys in H. congruence.
Qed.

Lemma group_fold_ignores_inherited data : forall acc,
  (forall k, In k (keys acc) -> inherited k = false) ->
  fold_left step data acc
  = fold_left step (filter (fun r => negb (inherited (key r))) data) acc.
Proof.
  induction data as [|r data IH]; intros acc Hacc; simpl; auto.
  destruct (inherited (key r)) eqn:I; simpl.
  - rewrite group_step_inherited; auto.
    destruct (own_get (key r) acc) as [v|] eqn:E; auto.
    apply own_get_Some_keys, Hacc in E. congruence.
  - apply IH. intros k Hk.
    destruct (own_get (key r) acc) as [v|] eqn:E.
    + erewrite group_step_own in Hk by eassumption.
      rewrite keys_own_set, E in Hk. auto.
    + rewrite group_step_new in Hk by assumption.
      unfold keys in Hk. rewrite map_app in Hk.
      apply in_app_or in Hk as [Hk|[<-|[]]]; auto.
Qed.

Lemma group_ignores_inherited data :
  group key init upd data
  = group key init upd (filter (fun r => negb (inherited (key r))) data).
Proof. apply group_fold_ignores_inherited. intros k []. Qed.

End IgnoresInherited.

Section IgnoredRecords.
Context {NUM : Number}.
Implicit Types data : list (SalesRecord NUM).

Lemma plain_keys_filter_plain (key : SalesRecord NUM -> PropertyKey) data :
  plain_keys key (filter (plain key) data) = true.
Proof.
  unfold plain_keys. apply forallb_forall. intros r Hr.
  now apply filter_In in Hr.
Qed.

Lemma coffeeChartData_ignores data :
  coffeeChartData data = coffeeChartData (filter (plain (@coffee_name NUM)) data).
Proof.
  unfold coffeeChartData. rewrite !coffeeStats_group.
  now rewrite group_ignores_inherited.
Qed.

Lemma paymentStats_ignores data :
  paymentStats data = paymentStats (filter (plain (@cash_type NUM)) data).
Proof.
  rewrite !paymentStats_group. now rewrite group_ignores_inherited.
Qed.

Lemma perm_In_iff (A : Type) (l l' : list A) x :
  Permutation l l' -> (In x l <-> In x l').
Proof.
  intros H. split; apply Permutation_in; auto. now symmetry.
Qed.

End IgnoredRecords.

(** X3: the products view ignores the records whose product name is the
    name of a property inherited from [Object.prototype], as if they were
    not in the input: the entries are those of the other records, the
    names listed are exactly the other product names, and the counts add
    up to the number of the other records. *)
Theorem products_ignore_inherited_names (NUM : Number)
  (data : list (SalesRecord NUM)) :
  coffeeChartData data = coffeeChartData (filter (plain (@coffee_name NUM)) data)
  /\ (forall n, In n (map (@cc_name NUM) (coffeeChartData data))
                <-> In n (map (@coffee_name NUM) data) /\ inherited n = false)
  /\ list_sum (map (@cc_count NUM) (coffeeChartData data))
     = List.length (filter (plain (@coffee_name NUM)) data).
Proof.
  split; [apply coffeeChartData_ignores|]. split.
  - intros n. unfold coffeeChartData. rewrite map_map.
    rewrite (map_ext _ fst) by (now intros [k s]).
    rewrite (perm_In_iff n (Permutation_map fst (entries_perm _))).
    fold (keys (coffeeStats data)).
    rewrite coffeeStats_group, group_keys_first_seen, first_seen_In.
    rewrite filter_In, negb_true_iff. reflexivity.
  - rewrite coffeeChartData_ignores.
    rewrite products_orders by apply plain_keys_filter_plain.
    reflexivity.
Qed.

(** X4: likewise the payments view ignores the records whose payment
    method is an inherited name: the methods listed are exactly the other
    methods and the counts add up to the number of the other records,
    while each percentage is still taken of the number of all records. *)
Theorem payments_ignore_inherited_names (NUM : Number)
  (data : list (SalesRecord NUM)) :
  (forall m, In m (map (@pc_method NUM) (paymentChartData data))
             <-> In m (map (@cash_type NUM) data) /\ inherited m = false)
  /\ list_sum (map (@pc_count NUM) (paymentChartData data))
     = List.length (filter (plain (@cash_type NUM)) data)
  /\ map (fun p : PaymentChart NUM => (pc_method p, pc_count p, pc_revenue p))
         (paymentChartData data)
     = map (fun p : PaymentChart NUM => (pc_method p, pc_count p, pc_revenue p))
           (paymentChartData (filter (plain (@cash_type NUM)) data)).
Proof.
  assert (E : forall d : list (SalesRecord NUM),
             map (fun p : PaymentChart NUM => (pc_method p, pc_count p, pc_revenue p))
                 (paymentChartData d)
             = map (fun kv => (fst kv, ps_count (snd kv), ps_revenue (snd kv)))
                   (entries (paymentStats d))).
  { intros d. unfold paymentChartData. rewrite map_map.
    apply map_ext. now intros [k s]. }
  assert (E3 : map (fun p : PaymentChart NUM => (pc_method p, pc_count p, pc_revenue p))
                   (paymentChartData data)
               = map (fun p : PaymentChart NUM => (pc_method p, pc_count p, pc_revenue p))
                     (paymentChartData (filter (plain (@cash_type NUM)) data))).
  { rewrite !E. now rewrite paymentStats_ignores. }
  split; [|split; [|exact E3]].
  - intros m. unfold paymentChartData. rewrite map_map.
    rewrite (map_ext _ fst) by (now intros [k s]).
    rewrite (perm_In_iff m (Permutation_map fst (entries_perm _))).
    fold (keys (paymentStats data)).
    rewrite paymentStats_group, group_keys_first_seen, first_seen_In.
    rewrite filter_In, negb_true_iff. reflexivity.
  - apply (f_equal (map (fun t : string * nat * num => snd (fst t)))) in E3.
    rewrite !map_map in E3. simpl in E3.
    rewrite (map_ext (@pc_count NUM) (fun p => pc_count p)) by reflexivity.
    rewrite E3.
    rewrite payments_orders by apply plain_keys_filter_plain.
    reflexivity.
Qed.

(* ----------------------------------------------------------------- *)
(** *** The hourly series in closed form *)

Section HourlyContent.
Context {NUM : Number}.
Implicit Types data : list (SalesRecord NUM).

Lemma hour_upd_revenue (l : list (SalesRecord NUM)) : forall v,
  hs_revenue (fold_left (fun v r => hour_upd r v) l v)
  = fold_left add (map (@money NUM) l) (hs_revenue v).
Proof. induction l as [|r l IH]; intros v; simpl; auto. Qed.

Lemma hourly_item_revenue data h :
  hc_revenue (hourly_item (hourlyStats data) h)
  = or_zero (sum (map (@money NUM) (records_at h data))).
Proof.
  unfold hourly_item, get. cbn [hc_revenue].
  rewrite hourlyStats_group. unfold group.
  rewrite own_get_group by apply decimal_not_inherited.
  cbn [own_get].
  rewrite (filter_ext _ (hour_is h)) by (intros r; apply hour_key_decimal).
  fold (records_at h data).
  destruct (records_at h data) as [|r l].
  - rewrite decimal_not_inherited. unfold or_zero, sum. simpl.
    now destruct (truthy zero).
  - now rewrite hour_upd_revenue.
Qed.

Lemma slots_total_valid data :
  list_sum (map (fun h => orders_at h data) (seq 0 24))
  = List.length (filter (@valid_hour NUM) data).
Proof.
  induction data as [|r data IH]; [reflexivity|].
  rewrite (map_ext _ (fun h => (if hour_is h r then 1 else 0) + orders_at h data)).
  - rewrite list_sum_add, IH. simpl filter. unfold valid_hour at 2, hour_is.
    destruct (hour r) as [n|].
    + rewrite one_slot.
      destruct (Nat.leb_spec 0 n); destruct (Nat.ltb_spec n (0 + 24));
        destruct (Nat.ltb_spec n 24); simpl; lia.
    + cbv beta iota.
      assert (Z : forall l : list nat, list_sum (map (fun _ => 0) l) = 0)
        by (induction l; simpl; auto).
      rewrite Z. reflexivity.
  - intros h. unfold orders_at. simpl. now destruct (hour_is h r).
Qed.

End HourlyContent.

Lemma hourlyChartData_content (NUM : Number) (data : list (SalesRecord NUM)) :
  hourlyChartData data
  = map (hour_entry data) (filter (fun h => 0 <? orders_at h data) (seq 0 24)).
Proof.
  rewrite hourlyChartData_hours. apply map_ext. intros h. unfold hour_entry.
  rewrite <- hourly_item_orders, <- hourly_item_revenue. reflexivity.
Qed.

(** X5: the hourly series in terms of the input: for each hour of 0..23
    that has a record, in ascending order, the label ["h:00"], the number of
    records of that hour, and the sum of their amounts in input order (a
    sum that is 0 or NaN reads as 0). *)
Theorem hourly_series_content (NUM : Number) (data : list (SalesRecord NUM)) :
  hourlyChartData data
  = map (fun h =>
           {| hc_hour := (decimal h ++ ":00")%string;
              hc_orders := orders_at h data;
              hc_revenue := or_zero (sum (map (@money NUM) (records_at h data))) |})
        (filter (fun h => 0 <? orders_at h data) (seq 0 24)).
Proof. apply hourlyChartData_content. Qed.

Lemma hourly_orders_valid (NUM : Number) (data : list (SalesRecord NUM)) :
  list_sum (map (@hc_orders NUM) (hourlyChartData data))
  = List.length (filter (@valid_hour NUM) data).
Proof.
  rewrite hourlyChartData_hours, map_map.
  rewrite (map_ext _ (fun h => orders_at h data))
    by (intros; apply hourly_item_orders).
  rewrite list_sum_filter_positive. apply slots_total_valid.
Qed.

(** X6: the hourly series has at most 24 entries, and its order counts add
    up to the number of records whose hour is one of 0..23: a record whose
    date did not parse (hour NaN) is in no entry. *)
Theorem hourly_orders_total (NUM : Number) (data : list (SalesRecord NUM)) :
  List.length (hourlyChartData data) <= 24
  /\ list_sum (map (@hc_orders NUM) (hourlyChartData data))
     = List.length (filter (@valid_hour NUM) data).
Proof.
  split; [|apply hourly_orders_valid].
  unfold hourlyChartData.
  etransitivity; [apply filter_length_le|].
  now rewrite length_map, length_seq.
Qed.

(* ----------------------------------------------------------------- *)
(** *** The peak hour, and when the reductions throw *)

Section PeakHour.
Context {NUM : Number}.
Implicit Types (data : list (SalesRecord NUM)) (chart : list (HourChart NUM)).

#[local] Abbreviation pick_peak :=
  (fun peak current : HourChart NUM =>
     if hc_orders peak <? hc_orders current then current else peak).

Lemma peak_scan : forall rest before top after,
  Forall (fun p => hc_orders p < hc_orders top) before ->
  Forall (fun p => hc_orders p <= hc_orders top) after ->
  exists before' after',
    before ++ top :: after ++ rest
      = before' ++ fold_left pick_peak rest top :: after'
    /\ Forall (fun p => hc_orders p < hc_orders (fold_left pick_peak rest top))
              before'
    /\ Forall (fun p => hc_orders p <= hc_orders (fold_left pick_peak rest top))
              after'.
Proof.
  induction rest as [|c rest IH]; intros before top after Hb Ha.
  - exists before, after. simpl. rewrite app_nil_r. auto.
  - simpl fold_left. destruct (Nat.ltb_spec (hc_orders top) (hc_orders c)).
    + destruct (@IH (before ++ top :: after) c []) as (b' & a' & Heq & Hb' & Ha').
      * apply Forall_app. split; [|constructor].
        -- eapply Forall_impl; [|exact Hb]. simpl. intros; lia.
        -- exact H.
        -- eapply Forall_impl; [|exact Ha]. simpl. intros; lia.
      * constructor.
      * exists b', a'. split; auto.
        rewrite <- Heq. simpl. now rewrite <- app_assoc.
    + destruct (@IH before top (after ++ [c])) as (b' & a' & Heq & Hb' & Ha').
      * assumption.
      * apply Forall_app. split; auto.
      * exists b', a'. split; auto.
        rewrite <- Heq. now rewrite <- app_assoc.
Qed.

Lemma sorted_after (hb ha : list nat) h :
  StronglySorted lt (hb ++ h :: ha) -> Forall (lt h) ha.
Proof.
  induction hb as [|x hb IH]; simpl; intros H; inversion H; subst; auto.
Qed.

Lemma valid_hour_orders data :
  existsb (@valid_hour NUM) data = true ->
  exists h, h < 24 /\ 0 < orders_at h data.
Proof.
  intros H. apply existsb_exists in H as (r & Hin & Hv).
  unfold valid_hour in Hv. destruct (hour r) as [h|] eqn:E; [|discriminate].
  exists h. split; [now apply Nat.ltb_lt|].
  apply orders_at_positive. eauto.
Qed.

Lemma peak_of_hours data :
  existsb (@valid_hour NUM) data = true ->
  exists h,
    h < 24
    /\ peakHour (hourlyChartData data) = Normal (hour_entry data h)
    /\ 0 < orders_at h data
    /\ (forall h', h' < 24 -> orders_at h' data <= orders_at h data)
    /\ (forall h', h' < h -> orders_at h' data < orders_at h data).
Proof.
  intros Hv. destruct (valid_hour_orders _ Hv) as (h0 & Hlt0 & Hpos0).
  rewrite hourlyChartData_content.
  set (hours := filter (fun h => 0 <? orders_at h data) (seq 0 24)).
  assert (Hmem : forall h, In h hours <-> h < 24 /\ 0 < orders_at h data).
  { intros h. unfold hours. rewrite filter_In, in_seq, Nat.ltb_lt. lia. }
  assert (Hs : StronglySorted lt hours)
    by apply StronglySorted_filter, StronglySorted_seq.
  destruct hours as [|x rest] eqn:Eh.
  { exfalso. apply (Hmem h0). auto. }
  simpl map. unfold peakHour, reduce1.
  destruct (@peak_scan (map (hour_entry data) rest) [] (hour_entry data x) [])
    as (before & after & Heq & Hb & Ha); [constructor|constructor|].
  simpl in Heq. set (top := fold_left _ _ _) in *.
  change (hour_entry data x :: map (hour_entry data) rest)
    with (map (hour_entry data) (x :: rest)) in Heq.
  apply map_eq_app in Heq as (hb & hr & E1 & E2 & E3).
  apply map_eq_cons in E3 as (h & ha & E4 & E5 & E6). subst hr.
  rewrite E1 in Hs, Hmem.
  exists h. assert (Hh : h < 24 /\ 0 < orders_at h data).
  { apply Hmem, in_or_app. right. now left. }
  assert (Hbefore : forall h', In h' hb -> orders_at h' data < orders_at h data).
  { intros h' Hin. rewrite <- E2 in Hb. rewrite Forall_forall in Hb.
    specialize (Hb _ (in_map (hour_entry data) _ _ Hin)).
    rewrite <- E5 in Hb. exact Hb. }
  assert (Hafter : forall h', In h' ha -> orders_at h' data <= orders_at h data).
  { intros h' Hin. rewrite <- E6 in Ha. rewrite Forall_forall in Ha.
    specialize (Ha _ (in_map (hour_entry data) _ _ Hin)).
    rewrite <- E5 in Ha. exact Ha. }
  repeat split; try tauto.
  - now rewrite E5.
  - intros h' Hlt. destruct (Nat.eq_dec (orders_at h' data) 0) as [Z|NZ]; [lia|].
    assert (Hin : In h' (hb ++ h :: ha)) by (apply Hmem; lia).
    apply in_app_or in Hin as [Hin|[<-|Hin]]; auto.
    apply Hbefore in Hin. lia.
  - intros h' Hlt. destruct (Nat.eq_dec (orders_at h' data) 0) as [Z|NZ]; [lia|].
    assert (Hin : In h' (hb ++ h :: ha)) by (apply Hmem; lia).
    apply in_app_or in Hin as [Hin|[<-|Hin]]; auto; [lia|].
    apply sorted_after in Hs. rewrite Forall_forall in Hs.
    specialize (Hs _ Hin). lia.
Qed.

Lemma hourly_empty_iff data :
  hourlyChartData data = [] <-> existsb (@valid_hour NUM) data = false.
Proof.
  split.
  - intros E. destruct (existsb (@valid_hour NUM) data) eqn:V; auto.
    destruct (peak_of_hours _ V) as (h & _ & Hp & _). rewrite E in Hp.
    discriminate.
  - intros V. pose proof (hourly_orders_valid data) as S.
    assert (F : filter (@valid_hour NUM) data = []).
    { apply filter_none. intros r Hr.
      destruct (valid_hour r) eqn:Vr; auto.
      assert (existsb (@valid_hour NUM) data = true)
        by (apply existsb_exists; eauto). congruence. }
    rewrite F in S. simpl in S.
    destruct (hourlyChartData data) as [|p chart] eqn:E; auto.
    assert (Hp : 1 <= hc_orders p).
    { pose proof (hourly_nonempty_distinct data) as [Hall _].
      rewrite E in Hall. now inversion Hall. }
    simpl in S. lia.
Qed.

Lemma products_empty_iff data :
  coffeeChartData data = []
  <-> forallb (fun r => inherited (@coffee_name NUM r)) data = true.
Proof.
  pose proof (coffeeChartData_ignores data) as E.
  split.
  - intros Z. apply forallb_forall. intros r Hr.
    destruct (inherited (coffee_name r)) eqn:I; auto.
    assert (S : list_sum (map (@cc_count NUM) (coffeeChartData data))
                = List.length (filter (plain (@coffee_name NUM)) data)).
    { rewrite E. apply products_orders, plain_keys_filter_plain. }
    rewrite Z in S. simpl in S.
    assert (Hin : In r (filter (plain (@coffee_name NUM)) data)).
    { apply filter_In. split; auto. unfold plain. now rewrite I. }
    destruct (filter (plain (@coffee_name NUM)) data); [destruct Hin|discriminate].
  - intros H. rewrite E.
    rewrite (filter_none (plain (@coffee_name NUM)) data); [reflexivity|].
    intros r Hr. rewrite forallb_forall in H. unfold plain. now rewrite H.
Qed.

End PeakHour.

(** X7: when some record has an hour in 0..23, the peak-hour reduction
    returns the entry of the earliest hour whose order count is the
    largest: no hour has more orders, and every earlier hour has strictly
    fewer. *)
Theorem peak_hour_earliest_maximum (NUM : Number) (data : list (SalesRecord NUM))
  (Hvalid : existsb (@valid_hour NUM) data = true) :
  exists h,
    h < 24
    /\ peakHour (hourlyChartData data) = Normal (hour_entry data h)
    /\ 0 < orders_at h data
    /\ (forall h', h' < 24 -> orders_at h' data <= orders_at h data)
    /\ (forall h', h' < h -> orders_at h' data < orders_at h data).
Proof. now apply peak_of_hours. Qed.

(** Scenario A on doubles: the peak is hour 8. *)
Lemma peak_hour_earliest_maximum_witness :
  exists h,
    h < 24
    /\ peakHour (hourlyChartData scenario_A) = Normal (hour_entry scenario_A h)
    /\ 0 < orders_at h scenario_A
    /\ (forall h', h' < 24 -> orders_at h' scenario_A <= orders_at h scenario_A)
    /\ (forall h', h' < h -> orders_at h' scenario_A < orders_at h scenario_A).
Proof.
  apply (@peak_hour_earliest_maximum b64 scenario_A). reflexivity.
Defined.

(** X8: the peak-hour reduction has no initial value: it throws a
    [TypeError] exactly when the hourly series is empty, which is when no
    record has an hour in 0..23 (every date failed to parse). *)
Theorem peak_hour_throws_iff (NUM : Number) (data : list (SalesRecord NUM)) :
  peakHour (hourlyChartData data) = Throw "TypeError"
  <-> existsb (@valid_hour NUM) data = false.
Proof.
  rewrite <- hourly_empty_iff. unfold peakHour, reduce1.
  destruct (hourlyChartData data); split; intros H; auto; discriminate.
Qed.

(** X9: the top-product reduction has no initial value: it throws a
    [TypeError] exactly when there is no products entry, which is when
    every record's product is named like an inherited property (or there
    is no record). *)
Theorem top_coffee_throws_iff (NUM : Number) (data : list (SalesRecord NUM)) :
  topCoffee (coffeeChartData data) = Throw "TypeError"
  <-> forallb (fun r => inherited (@coffee_name NUM r)) data = true.
Proof.
  rewrite <- products_empty_iff. unfold topCoffee, reduce1.
  destruct (coffeeChartData data); split; intros H; auto; discriminate.
Qed.

(* ----------------------------------------------------------------- *)
(** *** Price and volume points *)

(** X10: there is one price/volume point per products entry, in the same
    order and with distinct names; its volume is the number of records of
    that product and its price is the sum of their amounts divided by that
    number, rounded to 2 decimals. *)
Theorem price_volume_points (NUM : Number) (data : list (SalesRecord NUM)) :
  map (@pv_coffee NUM) (priceVolumeData data)
    = map (@cc_name NUM) (coffeeChartData data)
  /\ NoDup (map (@pv_coffee NUM) (priceVolumeData data))
  /\ Forall (fun q =>
               pv_volume q
               = List.length (records_of (@coffee_name NUM) (pv_coffee q) data)
               /\ pv_price q
                  = parseFloat
                      (toFixed 2
                         (div (sum (map (@money NUM)
                                        (records_of (@coffee_name NUM)
                                                    (pv_coffee q) data)))
                              (of_nat (pv_volume q)))))
            (priceVolumeData data).
Proof.
  assert (E : map (@pv_coffee NUM) (priceVolumeData data)
              = map (@cc_name NUM) (coffeeChartData data)).
  { unfold priceVolumeData. rewrite map_map. reflexivity. }
  split; [exact E|]. split.
  - rewrite E. apply products_nonempty_distinct.
  - unfold priceVolumeData. apply Forall_map.
    eapply Forall_impl; [|apply products_content].
    intros p (_ & Hc & Hr & Ha). simpl. split; auto.
    now rewrite Ha, Hr.
Qed.

(* ----------------------------------------------------------------- *)
(** *** Customers *)

Lemma nodup_length_le (l : list string) :
  List.length (nodup string_dec l) <= List.length l.
Proof.
  apply NoDup_incl_length; [apply NoDup_nodup|].
  intros x Hx. now apply nodup_In in Hx.
Qed.

(** X11: the number of unique customers is at most the number of orders,
    and it is 0 only for the empty input: wherever [analytics] builds a
    result, there is at least one customer. *)
Theorem unique_customers_bounds (NUM : Number) (data : list (SalesRecord NUM)) :
  uniqueCustomers data <= totalOrders data
  /\ (uniqueCustomers data = 0 <-> data = []).
Proof.
  unfold uniqueCustomers, totalOrders. split.
  - etransitivity; [apply nodup_length_le|]. now rewrite length_map.
  - split.
    + intros H. destruct data as [|r data]; auto.
      assert (Hin : In (card r) (nodup string_dec (map (@card NUM) (r :: data))))
        by (apply nodup_In; now left).
      destruct (nodup string_dec (map (@card NUM) (r :: data)));
        [destruct Hin|discriminate].
    + now intros ->.
Qed.

Section FrequencyContent.
Context {NUM : Number}.
Implicit Types data : list (SalesRecord NUM).

Lemma count_up (A : Type) (l : list A) : forall n : nat,
  fold_left (fun v (_ : A) => v + 1) l n = n + List.length l.
Proof.
  induction l as [|x l IH]; intros n; simpl; [lia|]. rewrite IH. lia.
Qed.

Lemma In_own_get (V : Type) (o : object V) k v :
  NoDup (keys o) -> In (k, v) o -> own_get k o = Some v.
Proof.
  induction o as [|[k0 v0] o IH]; simpl; [tauto|].
  intros Hnd [E|Hin]; inversion Hnd; subst.
  - injection E as -> ->. now rewrite String.eqb_refl.
  - destruct (String.eqb_spec k k0) as [->|]; auto.
    exfalso. apply H1. change k0 with (fst (k0, v)). now apply in_map.
Qed.

Lemma object_by_keys (V : Type) (f : PropertyKey -> V) (o : object V) :
  (forall k v, In (k, v) o -> v = f k) ->
  o = map (fun k => (k, f k)) (keys o).
Proof.
  induction o as [|[k v] o IH]; simpl; intros H; auto.
  rewrite (H k v) by now left. f_equal. apply IH. intros; apply H. now right.
Qed.

Lemma perm_filter_length (A : Type) (p : A -> bool) (l l' : list A) :
  Permutation l l' -> List.length (filter p l) = List.length (filter p l').
Proof.
  induction 1; simpl; auto; try congruence.
  - destruct (p x); simpl; congruence.
  - destruct (p x), (p y); reflexivity.
Qed.

(** The tally of the customers, entry by entry. *)
Lemma customer_counts data :
  plain_keys (@card NUM) data = true ->
  group (@card NUM) 0 (fun _ n => n + 1) data
  = map (fun c => (c, orders_of c data)) (first_seen (map (@card NUM) data)).
Proof.
  intros H.
  assert (K : keys (group (@card NUM) 0 (fun _ n => n + 1) data)
              = first_seen (map (@card NUM) data))
    by (now rewrite group_keys_first_seen, plain_keys_filter).
  rewrite <- K.
  apply object_by_keys with (f := fun c => orders_of c data). intros k v Hin.
  apply group_entry in Hin as (r & l & E & ->).
  unfold orders_of. rewrite E, count_up. simpl. lia.
Qed.

Lemma customer_values data :
  plain_keys (@card NUM) data = true ->
  Permutation (values (customerFrequency data))
              (map (fun c => Num (orders_of c data))
                   (first_seen (map (@card NUM) data))).
Proof.
  intros H. unfold values.
  rewrite (Permutation_map snd (entries_perm _)).
  rewrite customerFrequency_counts, customer_counts by assumption.
  unfold map_values. rewrite !map_map. reflexivity.
Qed.

Lemma bucket_count data b :
  plain_keys (@card NUM) data = true ->
  List.length (filter (fun f => String.eqb (bucket_of f) b)
                      (values (customerFrequency data)))
  = customers_in b data.
Proof.
  intros H. rewrite (perm_filter_length _ (customer_values data H)).
  rewrite filter_map_swap, length_map. reflexivity.
Qed.

Lemma frequency_entry data b n :
  plain_keys (@card NUM) data = true ->
  In {| fb_bucket := b; fb_customers := Num n |} (customerFrequencyData data)
  <-> 1 <= n /\ n = customers_in b data.
Proof.
  intros H. unfold customerFrequencyData.
  rewrite frequencyDistribution_counts, entries_map_values.
  set (G := group bucket_of 0 (fun _ n => n + 1) (values (customerFrequency data))).
  assert (Hnd : NoDup (keys G)) by (apply group_keys_NoDup; constructor).
  assert (Hget : forall k, inherited k = false ->
            own_get k G
            = match customers_in k data with 0 => None | S m => Some (S m) end).
  { intros k I. unfold G, group. rewrite own_get_group by assumption.
    cbn [own_get]. rewrite <- (bucket_count data k H).
    destruct (filter _ _) as [|f l]; [reflexivity|].
    rewrite count_up. simpl; f_equal; lia. }
  assert (Hmem : In {| fb_bucket := b; fb_customers := Num n |}
                    (map (fun '(bucket, count) =>
                            {| fb_bucket := bucket; fb_customers := count |})
                         (map_values Num (entries G)))
                 <-> In (b, n) G).
  { unfold map_values. rewrite map_map. rewrite in_map_iff. split.
    - intros ([k v] & E & Hin). simpl in E. injection E as -> ->.
      now apply (Permutation_in _ (entries_perm _)).
    - intros Hin. exists (b, n). split; auto.
      apply (Permutation_in _ (Permutation_sym (entries_perm _))). exact Hin. }
  rewrite Hmem. split.
  - intros Hin.
    assert (I : inherited b = false).
    { apply group_keys_plain
        with (key := bucket_of) (init := 0) (upd := fun (_ : frequency) n => n + 1)
             (data := values (customerFrequency data)).
      fold G. unfold keys. change b with (fst (b, n)). now apply in_map. }
    apply In_own_get in Hin; auto. rewrite Hget in Hin by assumption.
    destruct (customers_in b data); [discriminate|].
    injection Hin as <-. lia.
  - intros [Hpos ->].
    assert (I : inherited b = false).
    { unfold customers_in in Hpos.
      destruct (filter _ _) as [|c l] eqn:F; [simpl in Hpos; lia|].
      assert (Hc : In c (c :: l)) by now left.
      rewrite <- F in Hc. apply filter_In in Hc as [_ Hc].
      apply String.eqb_eq in Hc. rewrite <- Hc. apply bucket_of_not_inherited. }
    apply own_get_In. rewrite Hget by assumption.
    destruct (customers_in b data); [lia|reflexivity].
Qed.

End FrequencyContent.

(** X12: where no customer id is the name of an inherited property, the
    frequency view has an entry for a bucket exactly when some distinct
    customer's order count falls in it, the entry holds the number of those
    customers, and the entries add up to the number of unique customers. *)
Theorem frequency_view_content (NUM : Number) (data : list (SalesRecord NUM))
  (Hcustomers : plain_keys (@card NUM) data = true) :
  (forall b n,
      In {| fb_bucket := b; fb_customers := Num n |} (customerFrequencyData data)
      <-> 1 <= n /\ n = customers_in b data)
  /\ list_sum (map customers_shown (customerFrequencyData data))
     = uniqueCustomers data.
Proof.
  split.
  - intros b n. now apply frequency_entry.
  - now apply frequency_view_plain_keys.
Qed.

(** Scenario A on doubles. *)
Lemma frequency_view_content_witness :
  (forall b n,
      In {| fb_bucket := b; fb_customers := Num n |}
         (customerFrequencyData scenario_A)
      <-> 1 <= n /\ n = customers_in b scenario_A)
  /\ list_sum (map customers_shown (customerFrequencyData scenario_A))
     = uniqueCustomers scenario_A.
Proof.
  apply (@frequency_view_content b64 scenario_A). reflexivity.
Defined.

Section FrequencyBounds.
Context {NUM : Number}.
Implicit Types data : list (SalesRecord NUM).

Lemma tally_keys_incl acc k (labels : list string) :
  incl (keys acc) labels -> In k labels -> incl (keys (tally acc k)) labels.
Proof.
  intros Hacc Hk. unfold tally, set.
  destruct (String.eqb k "__proto__"); auto.
  rewrite keys_own_set. destruct (own_get k acc); auto.
  intros x Hx. apply in_app_or in Hx as [Hx|[<-|[]]]; auto.
Qed.

Lemma frequency_labels data :
  incl (keys (frequencyDistribution data)) bucket_labels.
Proof.
  unfold frequencyDistribution, reduce.
  generalize (values (customerFrequency data)). intros l.
  assert (G : forall acc, incl (keys acc) bucket_labels ->
            incl (keys (fold_left (fun acc f => tally acc (bucket_of f)) l acc))
                 bucket_labels).
  { induction l as [|f l IH]; intros acc Hacc; simpl; auto.
    apply IH, tally_keys_incl; auto. apply bucket_of_labels. }
  apply G. intros x [].
Qed.

End FrequencyBounds.

(** X13: for every input the frequency view has at most four entries, and
    each is labelled "1 order", "2-3 orders", "4-5 orders" or
    "6+ orders". *)
Theorem frequency_view_bounds (NUM : Number) (data : list (SalesRecord NUM)) :
  List.length (customerFrequencyData data) <= 4
  /\ Forall (fun e => In (fb_bucket e) bucket_labels) (customerFrequencyData data).
Proof.
  assert (L : incl (map fb_bucket (customerFrequencyData data)) bucket_labels).
  { unfold customerFrequencyData. rewrite map_map.
    rewrite (map_ext _ fst) by (now intros [k f]).
    intros x Hx.
    apply (Permutation_in _ (Permutation_map fst (entries_perm _))) in Hx.
    exact (frequency_labels data x Hx). }
  split.
  - rewrite <- (length_map fb_bucket).
    change 4 with (List.length bucket_labels).
    apply NoDup_incl_length; auto. apply frequency_nonempty_distinct.
  - apply Forall_forall. intros e He. apply L. now apply in_map.
Qed.

(* ----------------------------------------------------------------- *)
(** *** What the component returns *)

Section Component.
Context {NUM : Number}.
Implicit Types data : list (SalesRecord NUM).

Lemma component_nonempty r data :
  SalesAnalyticsDashboard (r :: data)
  = match topCoffee (coffeeChartData (r :: data)) with
    | Throw error => Throw error
    | Normal top =>
        match peakHour (hourlyChartData (r :: data)) with
        | Throw error => Throw error
        | Normal peak =>
            Normal (DashboardScreen
              {| shown_totalRevenue := toFixed 2 (totalRevenue (r :: data));
                 shown_totalOrders := totalOrders (r :: data);
                 shown_avgOrderValue := toFixed 2 (avgOrderValue (r :: data));
                 shown_uniqueCustomers := uniqueCustomers (r :: data);
                 top_name := cc_name top;
                 top_revenue := toFixed 2 (cc_revenue top);
                 peak_hour := hc_hour peak;
                 peak_orders := hc_orders peak |})
        end
    end.
Proof. reflexivity. Qed.

Lemma reduce1_cases (A : Type) (f : A -> A -> A) (l : list A) :
  (l = [] /\ reduce1 f l = Throw "TypeError")
  \/ (l <> [] /\ exists x, reduce1 f l = Normal x).
Proof.
  destruct l as [|x l]; [left; auto|right]. split; [discriminate|].
  simpl. eauto.
Qed.

End Component.

(** X14: the component returns the upload screen exactly for the empty
    collection, and never returns [null]: the branch
    [if (!analytics) return null] is dead, as [analytics] is [null] only
    for the empty collection. *)
Theorem component_never_blank (NUM : Number) (data : list (SalesRecord NUM)) :
  SalesAnalyticsDashboard data <> Normal Blank
  /\ (SalesAnalyticsDashboard data = Normal UploadScreen <-> data = []).
Proof.
  destruct data as [|r data].
  - split; [discriminate|]. split; reflexivity.
  - rewrite component_nonempty.
    destruct (topCoffee (coffeeChartData (r :: data)));
      [destruct (peakHour (hourlyChartData (r :: data)))|];
      split; try discriminate; split; discriminate.
Qed.

(** X15: rendering the dashboard throws exactly when the collection is not
    empty and either every product is named like an inherited property or
    no record has an hour in 0..23; what is thrown is the [TypeError] of a
    reduction of an empty array without initial value.  In every other
    case of a non-empty collection the dashboard is shown. *)
Theorem component_throws_iff (NUM : Number) (data : list (SalesRecord NUM)) :
  (SalesAnalyticsDashboard data = Throw "TypeError"
   <-> data <> []
       /\ (forallb (fun r => inherited (@coffee_name NUM r)) data = true
           \/ existsb (@valid_hour NUM) data = false))
  /\ (forall error, SalesAnalyticsDashboard data = Throw error ->
                    error = "TypeError")
  /\ (data <> [] ->
      forallb (fun r => inherited (@coffee_name NUM r)) data = false ->
      existsb (@valid_hour NUM) data = true ->
      exists view, SalesAnalyticsDashboard data = Normal (DashboardScreen view)).
Proof.
  destruct data as [|r data].
  - split; [split|split].
    + discriminate.
    + intros [H _]. now destruct H.
    + intros error H. discriminate H.
    + intros H. now destruct H.
  - rewrite component_nonempty.
    pose proof (products_empty_iff (r :: data)) as P.
    pose proof (hourly_empty_iff (r :: data)) as Q.
    unfold topCoffee, peakHour.
    destruct (reduce1_cases
                (fun top current : CoffeeChart NUM =>
                   if gtb (cc_revenue current) (cc_revenue top)
                   then current else top)
                (coffeeChartData (r :: data))) as [[E1 ->]|[N1 (top & ->)]];
    [|destruct (reduce1_cases
                  (fun peak current : HourChart NUM =>
                     if hc_orders peak <? hc_orders current
                     then current else peak)
                  (hourlyChartData (r :: data))) as [[E2 ->]|[N2 (peak & ->)]]].
    + apply P in E1. split; [split|split].
      * intros _. split; [discriminate|auto].
      * reflexivity.
      * now intros error [= <-].
      * intros _ H. congruence.
    + apply Q in E2. split; [split|split].
      * intros _. split; [discriminate|auto].
      * reflexivity.
      * now intros error [= <-].
      * intros _ _ H. congruence.
    + assert (F1 : forallb (fun r0 => inherited (@coffee_name NUM r0)) (r :: data)
                   = false).
      { destruct (forallb _ (r :: data)) eqn:F; auto.
        exfalso. apply N1, P. reflexivity. }
      assert (F2 : existsb (@valid_hour NUM) (r :: data) = true).
      { destruct (existsb _ (r :: data)) eqn:F; auto.
        exfalso. apply N2, Q. reflexivity. }
      split; [split|split].
      * discriminate.
      * intros [_ [H|H]]; congruence.
      * intros error H. discriminate H.
      * intros _ _ _. eauto.
Qed.

(* ----------------------------------------------------------------- *)
(** *** Upload processing, on doubles *)

Section Upload.
Implicit Types (rows : list (ParsedRow b64)) (data : list (SalesRecord b64)).

Lemma or_zero_positive (x : Binary64.b64) :
  SFltb (S754_zero false) (@or_zero b64 x) = SFltb (S754_zero false) x
  /\ (SFltb (S754_zero false) x = true -> @or_zero b64 x = x).
Proof. destruct x as [s|[|]| |[|] m e]; split; reflexivity || discriminate. Qed.

Lemma keeps_toRecord (row : ParsedRow b64) :
  keeps (toRecord row) = row_kept row.
Proof.
  unfold keeps, row_kept, toRecord. cbn [coffee_name money]. f_equal.
  apply or_zero_positive.
Qed.

Lemma processedData_rows rows :
  processedData rows = map toRecord (filter (@row_kept b64) rows).
Proof.
  unfold processedData. rewrite filter_map_swap. f_equal.
  apply filter_ext. intros row. apply keeps_toRecord.
Qed.

Lemma keeps_nonneg (r : SalesRecord b64) :
  keeps r = true -> nonneg (money r) = true.
Proof.
  unfold keeps. intros H. apply andb_true_iff in H as [_ H].
  change (SFltb (S754_zero false) (money r) = true) in H.
  now destruct (money r) as [s|[|]| |[|] m e].
Qed.

Lemma processedData_keeps rows : Forall (fun r => keeps r = true) (processedData rows).
Proof.
  apply Forall_forall. intros r Hr. unfold processedData in Hr.
  now apply filter_In in Hr.
Qed.

Lemma sum_nonneg (l : list Binary64.b64) :
  Forall (fun x => nonneg x = true) l -> nonneg (@sum b64 l) = true.
Proof.
  unfold sum.
  assert (G : forall a, nonneg a = true ->
            Forall (fun x => nonneg x = true) l ->
            nonneg (fold_left (@add b64) l a) = true).
  { induction l as [|x l IH]; intros a Ha Hl; simpl; auto.
    inversion Hl; subst. apply IH; auto.
    now apply SFadd_nonneg. }
  now apply G.
Qed.

Lemma amounts_nonneg data (p : SalesRecord b64 -> bool) :
  Forall (fun r => keeps r = true) data ->
  Forall (fun x => nonneg x = true) (map (@money b64) (filter p data)).
Proof.
  intros H. apply Forall_map, Forall_forall. intros r Hr.
  apply filter_In in Hr as [Hr _]. rewrite Forall_forall in H.
  now apply keeps_nonneg, H.
Qed.

Lemma revenues_nonneg data :
  Forall (fun r => keeps r = true) data ->
  nonneg (totalRevenue data) = true
  /\ Forall (fun p : CoffeeChart b64 => nonneg (cc_revenue p) = true) (coffeeChartData data)
  /\ Forall (fun p : PaymentChart b64 => nonneg (pc_revenue p) = true) (paymentChartData data)
  /\ Forall (fun p : HourChart b64 => nonneg (hc_revenue p) = true) (hourlyChartData data).
Proof.
  intros H. repeat split.
  - rewrite totalRevenue_sum. apply sum_nonneg.
    rewrite <- (filter_all (fun _ => true) data) by reflexivity.
    now apply amounts_nonneg.
  - eapply Forall_impl; [|apply products_content].
    intros p (_ & _ & -> & _). apply sum_nonneg. now apply amounts_nonneg.
  - eapply Forall_impl; [|apply payments_content].
    intros p (_ & _ & -> & _). apply sum_nonneg. now apply amounts_nonneg.
  - rewrite hourlyChartData_content. apply Forall_map, Forall_forall.
    intros h _. unfold hour_entry. cbn [hc_revenue].
    assert (S : nonneg (@sum b64 (map (@money b64) (records_at h data))) = true)
      by (apply sum_nonneg; now apply amounts_nonneg).
    unfold or_zero. now destruct (truthy _).
Qed.

End Upload.

(** X16: on doubles, the upload keeps exactly the parsed rows that have a
    product name and an amount above 0, in their order, with the amount
    unchanged: rows whose amount is NaN, 0 or negative are dropped, and
    [|| 0] never alters a kept amount. *)
Theorem upload_keeps_positive_rows (rows : list (ParsedRow b64)) :
  processedData rows = map toRecord (filter (@row_kept b64) rows)
  /\ Forall (fun row : ParsedRow b64 => money (toRecord row) = row_money row)
            (filter (@row_kept b64) rows)
  /\ Forall (fun r : SalesRecord b64 =>
               coffee_name r <> ""
               /\ SFltb (S754_zero false) (money r) = true)
            (processedData rows).
Proof.
  split; [apply processedData_rows|]. split.
  - apply Forall_forall. intros row Hr. apply filter_In in Hr as [_ Hr].
    unfold row_kept in Hr. apply andb_true_iff in Hr as [_ Hr].
    now apply or_zero_positive.
  - eapply Forall_impl; [|apply processedData_keeps].
    intros r Hr. unfold keeps in Hr. apply andb_true_iff in Hr as [H1 H2].
    split; auto. apply negb_true_iff in H1. now apply String.eqb_neq.
Qed.

(** X17: on doubles, whatever the parsed rows, the total revenue and the
    revenue of every products, payments and hourly entry of the uploaded
    data are zero, positive or plus infinity: never NaN and never
    negative. *)
Theorem uploaded_revenues_never_nan (rows : list (ParsedRow b64)) :
  nonneg (totalRevenue (processedData rows)) = true
  /\ Forall (fun p : CoffeeChart b64 => nonneg (cc_revenue p) = true)
            (coffeeChartData (processedData rows))
  /\ Forall (fun p : PaymentChart b64 => nonneg (pc_revenue p) = true)
            (paymentChartData (processedData rows))
  /\ Forall (fun p : HourChart b64 => nonneg (hc_revenue p) = true)
            (hourlyChartData (processedData rows)).
Proof. apply revenues_nonneg, processedData_keeps. Qed.

(** X18: on doubles, for uploaded data with at least one products entry,
    the top-product reduction returns an entry that no entry exceeds in
    revenue and that every earlier entry is strictly below: the revenues
    of uploaded data are always comparable. *)
Theorem uploaded_top_coffee (rows : list (ParsedRow b64))
  (Hproducts : coffeeChartData (processedData rows) <> []) :
  exists top before after,
    topCoffee (coffeeChartData (processedData rows)) = Normal top
    /\ coffeeChartData (processedData rows) = before ++ top :: after
    /\ Forall (fun p => gtb (cc_revenue top) (cc_revenue p) = true) before
    /\ Forall (fun p => gtb (cc_revenue p) (cc_revenue top) = false)
              (coffeeChartData (processedData rows)).
Proof.
  apply first_maximum; auto.
  apply b64_weakly_ordered, forallb_forall. intros x Hx.
  apply in_map_iff in Hx as (p & <- & Hp).
  pose proof (revenues_nonneg (processedData_keeps rows)) as (_ & H & _).
  rewrite Forall_forall in H. auto.
Qed.

(** The sample rows: two of the five are kept. *)
Lemma uploaded_top_coffee_witness :
  exists top before after,
    topCoffee (coffeeChartData (processedData parsed_rows)) = Normal top
    /\ coffeeChartData (processedData parsed_rows) = before ++ top :: after
    /\ Forall (fun p => gtb (cc_revenue top) (cc_revenue p) = true) before
    /\ Forall (fun p => gtb (cc_revenue p) (cc_revenue top) = false)
              (coffeeChartData (processedData parsed_rows)).
Proof.
  apply (uploaded_top_coffee parsed_rows).
  intros H. apply (f_equal (@List.length _)) in H.
  vm_compute in H. discriminate H.
Defined.

(* ----------------------------------------------------------------- *)
(** *** First-seen order *)

(** X19: where no product name or payment method is an array index or the
    name of an inherited property, the products and the payments entries
    are listed in the order in which their keys first occur in the
    input. *)
Theorem first_seen_order_for_plain_names (NUM : Number)
  (data : list (SalesRecord NUM))
  (Hproducts : plain_keys (@coffee_name NUM) data = true)
  (Hpayments : plain_keys (@cash_type NUM) data = true)
  (Hproducts' : forallb (fun k => negb (is_index_key k))
                        (map (@coffee_name NUM) data) = true)
  (Hpayments' : forallb (fun k => negb (is_index_key k))
                        (map (@cash_type NUM) data) = true) :
  map (@cc_name NUM) (coffeeChartData data)
    = first_seen (map (@coffee_name NUM) data)
  /\ map (@pc_method NUM) (paymentChartData data)
    = first_seen (map (@cash_type NUM) data).
Proof.
  split.
  - apply entries_order_no_index; auto. now apply products_order.
  - apply entries_order_no_index; auto. now apply payments_order.
Qed.

(** Scenario A on doubles. *)
Lemma first_seen_order_for_plain_names_witness :
  map (@cc_name b64) (coffeeChartData scenario_A)
    = first_seen (map (@coffee_name b64) scenario_A)
  /\ map (@pc_method b64) (paymentChartData scenario_A)
    = first_seen (map (@cash_type b64) scenario_A).
Proof.
  apply (@first_seen_order_for_plain_names b64 scenario_A); reflexivity.
Defined.
(* ----------------------------------------------------------------- *)
(** *** Payment shares on doubles *)

(** On doubles every shown percentage is a correct rounding to one
    decimal, for fewer than [2^32] records (an array has no more). *)
Lemma shares_rounded_doubles (data : list (SalesRecord b64)) :
  (Z.of_nat (List.length data) < 2 ^ 32)%Z ->
  Forall (fun p : PaymentChart b64 =>
            exists n : N,
              pc_percentage p = Decimal false n 1
              /\ (Z.abs (2 * Z.of_N n * Z.of_nat (totalOrders data)
                         - 2000 * Z.of_nat (pc_count p))
                  <= Z.of_nat (totalOrders data))%Z)
         (paymentChartData data).
Proof.
  intros Hlen. pose proof (payments_content data) as C.
  eapply Forall_impl; [|exact C]. cbv beta.
  intros p (H1 & Hc & _ & Hp). rewrite Hp. unfold totalOrders.
  apply share_percent_rounded; [|assumption].
  split; [assumption|]. rewrite Hc. unfold records_of.
  clear. induction data as [|r data IH]; cbn [filter List.length]; [lia|].
  destruct (String.eqb _ _); cbn [List.length]; lia.
Qed.

Lemma shares_rounded_bool (data : list (SalesRecord b64)) :
  (Z.of_nat (List.length data) < 2 ^ 32)%Z ->
  forallb (share_rounded (totalOrders data)) (paymentChartData data) = true.
Proof.
  intros Hlen. apply forallb_forall. intros p Hp.
  pose proof (shares_rounded_doubles data Hlen) as F.
  rewrite Forall_forall in F. destruct (F p Hp) as (n & E & B).
  unfold share_rounded. rewrite E. now apply Z.leb_le.
Qed.

(** C6, as stated, fails: six payment methods with one order each show
    "16.7" six times, 100.2 in all, which is not within 0.1 of 100.0. *)
Lemma percentage_closure_fails_for_six_methods :
  ~ (Z.abs (tenths_total (paymentChartData six_methods) - 1000) <= 1)%Z.
Proof. vm_compute. intros H. apply H. reflexivity. Qed.

(** C6, amended: on doubles, for every non-empty input (of fewer than
    [2^32] records, as every array is), the percentage of each payments
    entry is [100 * count / totalOrders] rounded to one decimal: a number
    of tenths within 0.05 of it.  Where no payment method is the name of a
    property inherited from [Object.prototype], the percentages of the [N]
    entries add up to 100.0 within [0.05 * N] (not within 0.1 whatever
    [N]). *)
Theorem percentage_closure (data : list (SalesRecord b64))
  (Hnonempty : data <> [])
  (Hlength : (Z.of_nat (List.length data) < 2 ^ 32)%Z)
  (Hpayments : plain_keys (@cash_type b64) data = true) :
  Forall (fun p : PaymentChart b64 =>
            exists n : N,
              pc_percentage p = Decimal false n 1
              /\ (Z.abs (2 * Z.of_N n * Z.of_nat (totalOrders data)
                         - 2000 * Z.of_nat (pc_count p))
                  <= Z.of_nat (totalOrders data))%Z)
         (paymentChartData data)
  /\ (Z.abs (2 * tenths_total (paymentChartData data) - 2000)
      <= Z.of_nat (List.length (paymentChartData data)))%Z.
Proof.
  split; [now apply shares_rounded_doubles|].
  apply shares_total_deviation; auto. now apply shares_rounded_bool.
Qed.

(** Six payment methods: 100.2 is within 0.05 * 6 of 100.0. *)
Lemma percentage_closure_witness :
  Forall (fun p : PaymentChart b64 =>
            exists n : N,
              pc_percentage p = Decimal false n 1
              /\ (Z.abs (2 * Z.of_N n * Z.of_nat (totalOrders six_methods)
                         - 2000 * Z.of_nat (pc_count p))
                  <= Z.of_nat (totalOrders six_methods))%Z)
         (paymentChartData six_methods)
  /\ (Z.abs (2 * tenths_total (paymentChartData six_methods) - 2000)
      <= Z.of_nat (List.length (paymentChartData six_methods)))%Z.
Proof.
  apply (@percentage_closure six_methods).
  - discriminate.
  - reflexivity.
  - reflexivity.
Defined.

